(** * A shallow embedding of the browser automation agent

    The development follows the JavaScript sources of the agent core:

    - actions/action-registry.js    (module [ActionRegistry])
    - actions/base-action.js        (module [BaseAction])
    - actions/plugins/*.js          (module [Plugins])
    - actions/action-executor.js    (module [ActionExecutor])
    - the OpenRouter adapter of llm (module [OpenRouterAdapter])
    - agent.js                      (module [Agent]; its constructor,
      [generateSessionId], [preloadCookiesFromGoal] and [main] in the
      modules [AgentOptions], [SessionId], [Cookies] and [Cli])
    - actions/action-types.js       (modules [RegistryListing] and
      [ActionTypes])
    - the plugins input-text.js, hover.js and screenshot.js
      (modules [InputText], [MouseMove] and [Screenshot])
    - the token counter             (module [TokenCounter])
    - clean-data.js                 (module [CleanData])

    Conventions of the model:

    - Asynchronous code is sequential: every [await] is a call that ends
      with a value or with a thrown [Error], of which only the message
      is kept. The state of the outside world (browser, page, model
      service, file listing, clock) is threaded through the calls, and
      every call to the outside is recorded in a trace.
    - The collaborators that the sources import but do not contain (the
      page simplifier, the action parser, the base adapter and its rate
      limiter, the highlighter) are parameters of the model.
    - Writing a file always succeeds and is an update of a finite map
      from paths to contents; the creation of directories, the console
      and the TUI are not modelled, and neither is [process.exit].
    - Where a source file holds an older and a newer version of a
      function, the newer one is modelled.
    - The functions of strings that follow the tables of Unicode
      ([toUpperCase], [toLowerCase]), the JSON parser and the file
      system of the cookie loader are parameters. The data directory
      of clean-data.js is a tree of named nodes, and the depth of the
      call stack is a bound on the recursion. *)

From Stdlib Require Import ZArith Ascii.
From stdpp Require Import gmap strings list pretty.

Local Open Scope Z_scope.

(** ** JavaScript values and completions *)

(** The fragment of JavaScript values the agent inspects: it only tests
    them for truthiness and copies them around. *)
#[local] Unset Elimination Schemes.
Inductive JsValue : Type :=
  | JUndefined
  | JNull
  | JBool (b : bool)
  | JNum (n : Z)
  | JStr (s : string)
  | JArr (items : list JsValue)
  | JObj (fields : list (string * JsValue)).
#[local] Set Elimination Schemes.

(** [!!v] in JavaScript. *)
Definition truthy (v : JsValue) : bool :=
  match v with
  | JUndefined | JNull => false
  | JBool b => b
  | JNum n => negb (n =? 0)
  | JStr s => negb (String.eqb s "")
  | JArr _ | JObj _ => true
  end.

(** A string property that may be absent: [o.p] used in a condition is
    truthy when it is present and not the empty string. *)
Definition truthy_str (o : option string) : bool :=
  match o with
  | Some s => negb (String.eqb s "")
  | None => false
  end.

(** [a || b] on values. *)
Definition js_or (a b : JsValue) : JsValue := if truthy a then a else b.

(** [a || b] on optional strings, the second operand being a string. *)
Definition str_or (a : option string) (b : string) : string :=
  match a with
  | Some s => if String.eqb s "" then b else s
  | None => b
  end.

(** How a call ends: with a value, or with a thrown [Error] of which the
    code only ever reads [message]. *)
Inductive Completion (A : Type) : Type :=
  | Returns (a : A)
  | Throws (message : string).
Arguments Returns {A} a.
Arguments Throws {A} message.

(** Effectful computations over a state [S]: the state reached is kept
    when the computation throws, as in JavaScript. *)
Definition Eff (S A : Type) : Type := S -> Completion A * S.

Definition ret {S A} (a : A) : Eff S A := fun s => (Returns a, s).

Definition throw {S A} (message : string) : Eff S A :=
  fun s => (Throws message, s).

Definition bind {S A B} (m : Eff S A) (k : A -> Eff S B) : Eff S B :=
  fun s =>
    match m s with
    | (Returns a, s') => k a s'
    | (Throws e, s') => (Throws e, s')
    end.

(** [try { m } catch (error) { h error.message }] *)
Definition try_catch {S A} (m : Eff S A) (h : string -> Eff S A) : Eff S A :=
  fun s =>
    match m s with
    | (Returns a, s') => (Returns a, s')
    | (Throws e, s') => h e s'
    end.

(** [try { m } finally { f }]: the completion of [m] is kept unless the
    [finally] block itself throws. *)
Definition try_finally {S A} (m : Eff S A) (f : Eff S unit) : Eff S A :=
  fun s =>
    let '(c, s') := m s in
    match f s' with
    | (Returns _, s'') => (c, s'')
    | (Throws e, s'') => (Throws e, s'')
    end.

Definition get_state {S} : Eff S S := fun s => (Returns s, s).
Definition modify {S} (f : S -> S) : Eff S unit := fun s => (Returns tt, f s).

(** A computation that returns in every state. *)
Definition total {S A} (m : Eff S A) : Prop :=
  forall s, exists a s', m s = (Returns a, s').

Declare Scope eff_scope.
Delimit Scope eff_scope with eff.
Notation "'let*' x ':=' m 'in' k" := (bind m (fun x => k))
  (at level 10, x pattern, m at level 100, k at level 200) : eff_scope.
Notation "m ';;' k" := (bind m (fun _ => k))
  (at level 100, k at level 200, right associativity) : eff_scope.

(** ** Data model *)

(** An action as decided by the model and normalised by the parser: a
    JavaScript object of which these properties are read somewhere in the
    sources. An absent property is [None] (or [JUndefined]). *)
Record Action : Type := mkAction {
  action_type : string;
  reasoning : option string;
  element_id : option string;
  text : option string;
  reason : option string;
  data : JsValue;
  extracted_data : JsValue;
  output_format : option string;
  output_title : option string;
  errors : list string;
  x : option Z;
  y : option Z
}.

(** The object literal [{ action_type: k }]. *)
Definition bare_action (k : string) : Action :=
  {| action_type := k; reasoning := None; element_id := None; text := None;
     reason := None; data := JUndefined; extracted_data := JUndefined;
     output_format := None; output_title := None; errors := [];
     x := None; y := None |}.

(** What a handler resolves to: [{success, error?, data?, message?}]. *)
Module Outcome.
Record t : Type := make {
  success : bool;
  error : option string;
  data : JsValue;
  message : option string
}.

(** [{ success: true }] *)
Definition ok : t :=
  {| success := true; error := None; data := JUndefined; message := None |}.

(** [{ success: true, data: d }] *)
Definition ok_with (d : JsValue) : t :=
  {| success := true; error := None; data := d; message := None |}.

(** [{ success: false, error: msg }] *)
Definition failure (msg : string) : t :=
  {| success := false; error := Some msg; data := JUndefined;
     message := None |}.
End Outcome.

(** One entry of the element table built by the page simplifier. *)
Module ElementInfo.
Record t : Type := make {
  tag : option string;
  xpath : option string;
  name : option string;
  type : option string;
  aria_label : option string;
  placeholder : option string;
  role : option string
}.
End ElementInfo.

Abbreviation ElementMap := (gmap string ElementInfo.t).

(** A live element handle of the browser. *)
Definition Handle : Type := nat.

(** The browser capability the handlers consume (a Playwright page),
    over the state [World] of everything outside the agent. *)
Module Page.
Record t (World : Type) : Type := make {
(** [page.locator(`xpath=${xp}`).first().elementHandle()]: resolves
    to a handle, or throws when nothing is found in time. *)
locator_xpath : string -> Eff World Handle;
(** [page.$(selector)]: a handle or [null]. *)
query_selector : string -> Eff World (option Handle);
(** [element.click()], [element.hover()], [element.fill(text)] *)
click : Handle -> Eff World unit;
hover : Handle -> Eff World unit;
fill : Handle -> string -> Eff World unit;
(** [page.keyboard.press(key)] *)
keyboard_press : string -> Eff World unit;
(** [page.mouse.move(x, y)] *)
mouse_move : Z -> Z -> Eff World unit;
(** [page.waitForTimeout(ms)] *)
waitForTimeout : Z -> Eff World unit;
(** [page.goto(url, ...)] *)
goto : string -> Eff World unit
}.
Arguments locator_xpath {World}.
Arguments query_selector {World}.
Arguments click {World}.
Arguments hover {World}.
Arguments fill {World}.
Arguments keyboard_press {World}.
Arguments mouse_move {World}.
Arguments waitForTimeout {World}.
Arguments goto {World}.
End Page.

(** An action plugin class: its static metadata and the [execute] method
    of the instance built by [new ActionClass(page, elementMap)]. *)
Module ActionClass.
Record t (World : Type) : Type := make {
  type : string;
  requiresElement : bool;
  isCoordinate : bool;
  isTerminal : bool;
  description : string;
  execute : Page.t World -> ElementMap -> Action -> Eff World Outcome.t
}.
Arguments type {World}.
Arguments requiresElement {World}.
Arguments isCoordinate {World}.
Arguments isTerminal {World}.
Arguments description {World}.
Arguments execute {World}.
End ActionClass.

(** ** ActionRegistry (action-registry.js) *)

Module ActionRegistry.
Section Registry.
Context {World : Type}.

(** [this.actions], a JavaScript [Map]: keys are kept in insertion
    order and a [set] on a present key replaces its value in place. *)
Definition t : Type := list (string * ActionClass.t World).

Definition empty : t := [].

Fixpoint map_get (m : t) (k : string) : option (ActionClass.t World) :=
  match m with
  | [] => None
  | (k', v) :: rest => if String.eqb k' k then Some v else map_get rest k
  end.

Fixpoint map_set (m : t) (k : string) (v : ActionClass.t World) : t :=
  match m with
  | [] => [(k, v)]
  | (k', v') :: rest =>
      if String.eqb k' k then (k', v) :: rest
      else (k', v') :: map_set rest k v
  end.

(** The message of the [Error] of [register]; the word [type] stands
    between double quotes in it. *)
Definition missing_type : string :=
  "Action class must have a static "
  +:+ String "034"%char ("type" +:+ String "034"%char " property").

(** [register(ActionClass)] throws on a class without a usable type. *)
Definition register (reg : t) (cls : ActionClass.t World) : Completion t :=
  if String.eqb (ActionClass.type cls) ""
     || String.eqb (ActionClass.type cls) "unknown"
  then Throws missing_type
  else Returns (map_set reg (ActionClass.type cls) cls).

(** What [require(file)] gives for one file of the plugins directory:
    the exported class, or an exception. *)
Inductive PluginFile : Type :=
  | Exports (cls : ActionClass.t World)
  | RequireFails (message : string).

(** The body of the [for] loop of [loadPlugins] for one file; a failure
    is logged and the loop goes on. *)
Definition load_file (reg : t) (file : PluginFile) : t :=
  match file with
  | Exports cls =>
      if negb (String.eqb (ActionClass.type cls) "")
         && negb (String.eqb (ActionClass.type cls) "unknown")
      then match register reg cls with
           | Returns reg' => reg'
           | Throws _ => reg
           end
      else reg
  | RequireFails _ => reg
  end.

(** [loadPlugins()]: [dir] is the listing of the [.js] files of the
    plugins directory, [None] when the directory does not exist (it is
    then created and nothing is loaded). *)
Definition loadPlugins (dir : option (list PluginFile)) (reg : t) : t :=
  match dir with
  | None => reg
  | Some files => fold_left load_file files reg
  end.

(** [get(actionType)]: [this.actions.get(actionType) || null] *)
Definition get (reg : t) (actionType : string)
  : option (ActionClass.t World) :=
  map_get reg actionType.

Definition has (reg : t) (actionType : string) : bool :=
  match map_get reg actionType with Some _ => true | None => false end.

(** [getTypes()]: the keys, in insertion order. *)
Definition getTypes (reg : t) : list string := map fst reg.

(** [requiresElement(actionType)] and [isTerminal(actionType)] *)
Definition requiresElement (reg : t) (actionType : string) : bool :=
  match get reg actionType with
  | Some cls => ActionClass.requiresElement cls
  | None => false
  end.

Definition isTerminal (reg : t) (actionType : string) : bool :=
  match get reg actionType with
  | Some cls => ActionClass.isTerminal cls
  | None => false
  end.

(** [getElementActions()] and [getTerminalActions()] *)
Definition getElementActions (reg : t) : list string :=
  map fst (filter (fun kv => ActionClass.requiresElement (snd kv) = true) reg).

Definition getTerminalActions (reg : t) : list string :=
  map fst (filter (fun kv => ActionClass.isTerminal (snd kv) = true) reg).

End Registry.
Arguments t World : clear implicits.
End ActionRegistry.

(** ** BaseAction (base-action.js) *)

Module BaseAction.
Section Resolver.
Context {World : Type}.
Variable page : Page.t World.
Variable elementMap : ElementMap.

(** The double quote character of the attribute selectors. *)
Definition dq : string := String "034"%char EmptyString.

(** [`[${attr}="${value}"]`] *)
Definition attr_selector (attr value : string) : string :=
  "[" +:+ attr +:+ "=" +:+ dq +:+ value +:+ dq +:+ "]".

(** [`input[type="${value}"]`] *)
Definition input_type_selector (value : string) : string :=
  "input" +:+ attr_selector "type" value.

(** The message of the [Error] thrown when every strategy has failed;
    the specification calls this fault ElementNotFound. *)
Definition ElementNotFound (elementId : string) : string :=
  "Could not locate element: " +:+ elementId.

(** Strategy 1: the stored XPath, inside its own [try]/[catch], which
    leaves [element] at [null] when the locator throws. *)
Definition by_xpath (info : ElementInfo.t) : Eff World (option Handle) :=
  match ElementInfo.xpath info with
  | Some xp =>
      if String.eqb xp "" then ret None
      else try_catch
             (let* h := Page.locator_xpath page xp in ret (Some h))%eff
             (fun _ => ret None)
  | None => ret None
  end.

(** [if (!element && value) element = await this.page.$(selector)] *)
Definition or_query (element : option Handle) (value : option string)
    (selector : string -> string) : Eff World (option Handle) :=
  match element, value with
  | None, Some v =>
      if String.eqb v "" then ret None
      else Page.query_selector page (selector v)
  | _, _ => ret element
  end.

(** Strategy 4 is guarded by [elementInfo.tag === 'input']. *)
Definition input_type_of (info : ElementInfo.t) : option string :=
  match ElementInfo.tag info with
  | Some tg => if String.eqb tg "input" then ElementInfo.type info else None
  | None => None
  end.

(** [getElement(elementId)] *)
Definition getElement (elementId : option string) : Eff World Handle :=
  match elementId with
  | None => throw "Element ID is required"
  | Some id =>
      if String.eqb id "" then throw "Element ID is required"
      else
        match elementMap !! id with
        | None => throw ("Element " +:+ id +:+ " not found in map")
        | Some info =>
            (let* e1 := by_xpath info in
             let* e2 := or_query e1 (ElementInfo.name info)
                          (attr_selector "name") in
             let* e3 := or_query e2 (ElementInfo.aria_label info)
                          (attr_selector "aria-label") in
             let* e4 := or_query e3 (input_type_of info)
                          input_type_selector in
             match e4 with
             | None => throw (ElementNotFound id)
             | Some h => ret h
             end)%eff
        end
  end.



End Resolver.
End BaseAction.

(** ** Plugins (plugins/*.js) *)

Module Plugins.
Section Handlers.
Context {World : Type}.

(** click.js *)
Definition ClickAction : ActionClass.t World :=
  {| ActionClass.type := "click";
     ActionClass.requiresElement := true;
     ActionClass.isCoordinate := false;
     ActionClass.isTerminal := false;
     ActionClass.description := "Click on an element";
     ActionClass.execute := fun page elementMap action =>
       try_catch
         (let* element := BaseAction.getElement page elementMap
                            (element_id action) in
          Page.click page element ;;
          ret Outcome.ok)%eff
         (fun msg => ret (Outcome.failure msg)) |}.

(** hover.js *)
Definition HoverAction : ActionClass.t World :=
  {| ActionClass.type := "hover";
     ActionClass.requiresElement := true;
     ActionClass.isCoordinate := false;
     ActionClass.isTerminal := false;
     ActionClass.description := "Hover over an element";
     ActionClass.execute := fun page elementMap action =>
       try_catch
         (let* element := BaseAction.getElement page elementMap
                            (element_id action) in
          Page.hover page element ;;
          ret Outcome.ok)%eff
         (fun msg => ret (Outcome.failure msg)) |}.

(** extract.js: [{ success: true, data: data || null }] *)
Definition ExtractAction : ActionClass.t World :=
  {| ActionClass.type := "extract";
     ActionClass.requiresElement := false;
     ActionClass.isCoordinate := false;
     ActionClass.isTerminal := false;
     ActionClass.description := "Extract data from the current page";
     ActionClass.execute := fun _ _ action =>
       ret (Outcome.ok_with (js_or (data action) JNull)) |}.

(** complete.js: [{ success: true, data: extracted_data || null }] *)
Definition CompleteAction : ActionClass.t World :=
  {| ActionClass.type := "complete";
     ActionClass.requiresElement := false;
     ActionClass.isCoordinate := false;
     ActionClass.isTerminal := true;
     ActionClass.description := "Mark task as complete with extracted data";
     ActionClass.execute := fun _ _ action =>
       ret (Outcome.ok_with (js_or (extracted_data action) JNull)) |}.

(** terminate.js:
    [{ success: true,
       data: { terminated: true, reason: reason || 'Task terminated' } }] *)
Definition TerminateAction : ActionClass.t World :=
  {| ActionClass.type := "terminate";
     ActionClass.requiresElement := false;
     ActionClass.isCoordinate := false;
     ActionClass.isTerminal := true;
     ActionClass.description :=
       "Terminate the agent - task cannot be completed";
     ActionClass.execute := fun _ _ action =>
       ret (Outcome.ok_with
              (JObj [("terminated", JBool true);
                     ("reason",
                      JStr (str_or (reason action) "Task terminated"))])) |}.

(** The listing of a plugins directory that holds these five classes
    (the directory of the repository holds more of them, none of a
    terminal kind). *)
Definition plugin_files : list (@ActionRegistry.PluginFile World) :=
  map ActionRegistry.Exports
    [ClickAction; CompleteAction; ExtractAction; HoverAction;
     TerminateAction].
End Handlers.
End Plugins.

(** ** ActionExecutor (action-executor.js) *)

Module ActionExecutor.
Section Executor.
Context {World : Type}.

(** The constructor loads the plugins when the registry is still
    empty: [if (registry.getTypes().length === 0) registry.loadPlugins()]. *)
Definition constructor (dir : option (list ActionRegistry.PluginFile))
    (reg : ActionRegistry.t World) : ActionRegistry.t World :=
  if Nat.eqb (length (ActionRegistry.getTypes reg)) 0
  then ActionRegistry.loadPlugins dir reg
  else reg.

(** The message of the failure returned for an unregistered kind. *)
Definition unknown_action (reg : ActionRegistry.t World)
    (actionType : string) : string :=
  "Unknown action type: " +:+ actionType +:+ ". Available: "
    +:+ String.concat ", " (ActionRegistry.getTypes reg).

(** [execute(action)]. A handler is typed to resolve to an outcome;
    everything it throws, from its construction on, is caught. *)
Definition execute (reg : ActionRegistry.t World) (page : Page.t World)
    (elementMap : ElementMap) (action : Action) : Eff World Outcome.t :=
  match ActionRegistry.get reg (action_type action) with
  | None =>
      ret (Outcome.failure (unknown_action reg (action_type action)))
  | Some cls =>
      try_catch
        (ActionClass.execute cls page elementMap action)
        (fun msg => ret (Outcome.failure msg))
  end.
End Executor.
End ActionExecutor.

(** ** The decision provider (llm/openrouter-adapter.js) *)

(** One entry of [this.actionLog]: either
    [{ step, ...action, result: { success, error } }] for an executed
    action, or [{ step, action_type: 'error', error }] written by the
    [catch] block of [run]. *)
Module LogEntry.
Record t : Type := make {
  step : Z;
  action : Action;
  result : option (bool * option string);
  error : option string
}.

Definition executed (step : Z) (a : Action) (o : Outcome.t) : t :=
  {| step := step; action := a;
     result := Some (Outcome.success o, Outcome.error o);
     error := None |}.

Definition caught (step : Z) (message : string) : t :=
  {| step := step; action := bare_action "error"; result := None;
     error := Some message |}.

Definition kind (e : t) : string := action_type (action e).
End LogEntry.

(** The context handed to the decision provider. *)
Record Context : Type := mkContext {
  goal : string;
  simplifiedHtml : string;
  elementMap : ElementMap;
  previousActions : list LogEntry.t;
  currentUrl : string
}.

Module OpenRouterAdapter.
Section Adapter.
Context {World : Type}.

(** The parsed body of a response: [error.error?.message] of a failed
    request and [data.choices?.[0]?.message?.content] of a good one. *)
Record Body : Type := mkBody {
  error_message : option string;
  content : option string
}.

(** What [fetch] resolves to; [json] is the result of
    [response.json()], which may throw. *)
Record Response : Type := mkResponse {
  ok : bool;
  status : Z;
  statusText : string;
  json : Completion Body
}.

(** [fetch(`${this.baseUrl}/chat/completions`, ...)] for a prompt. *)
Variable fetch : string -> Eff World Response.
(** [buildPrompt] and [parseResponse] are inherited from the base
    adapter, which is not part of the sources at hand. *)
Variable buildPrompt : Context -> Completion string.
Variable parseResponse : string -> Completion Action.
(** [this.rateLimiter], when present: its [execute(apiCall, label)]. *)
Variable rateLimiter : option (Eff World Action -> Eff World Action).

Definition lift_pure {A} (c : Completion A) : Eff World A :=
  fun w => (c, w).

(** The closure [apiCall]. *)
Definition apiCall (prompt : string) : Eff World Action :=
  (let* response := fetch prompt in
   if negb (ok response) then
     let detail :=
       match json response with
       | Returns b => str_or (error_message b) (statusText response)
       | Throws _ => statusText response
       end in
     throw ("OpenRouter API error: " +:+ pretty (status response)
              +:+ " - " +:+ detail)
   else
     let* body := lift_pure (json response) in
     lift_pure (parseResponse (str_or (content body) "")))%eff.

(** The safe fallback action of the [catch] block. *)
Definition fallback (message : string) : Action :=
  {| action_type := "terminate";
     reasoning := Some ("LLM API error: " +:+ message);
     element_id := None; text := None; reason := None;
     data := JUndefined; extracted_data := JUndefined;
     output_format := None; output_title := None;
     errors := [message]; x := None; y := None |}.

(** The body of the [try] block: the call, through the rate limiter
    when there is one. *)
Definition limited (prompt : string) : Eff World Action :=
  match rateLimiter with
  | Some limiter => limiter (apiCall prompt)
  | None => apiCall prompt
  end.

(** [generateAction(context)] *)
Definition generateAction (context : Context) : Eff World Action :=
  (let* prompt := lift_pure (buildPrompt context) in
   try_catch (limited prompt) (fun msg => ret (fallback msg)))%eff.
End Adapter.

Section Retry.
Context {World : Type}.
(** [setTimeout]-based sleeping between two attempts. *)
Variable sleep : Z -> Eff World unit.

(** Modelled from the spec: the rate limiter of the base adapter is
    missing from the sources. Section 4.6 describes it as a bounded
    retry with exponential backoff up to a configured retry ceiling:
    the call is tried again after a delay that is multiplied after each
    failure, and the last error is thrown once [retries] is used up. *)
Fixpoint retry (retries : nat) (delay multiplier : Z)
    (call : Eff World Action) : Eff World Action :=
  try_catch call
    (fun msg =>
       match retries with
       | O => throw msg
       | S n => (sleep delay ;; retry n (delay * multiplier) multiplier call)%eff
       end).
End Retry.
End OpenRouterAdapter.

(** ** The agent (agent.js) *)

Module Agent.

(** [this.options] *)
Record Options : Type := mkOptions {
  headless : bool;
  maxSteps : Z;
  waitBetweenActions : Z;
  useTUI : bool
}.

(** The result of [getPageState()]. *)
Record PageState : Type := mkPageState {
  ps_simplifiedHtml : string;
  ps_elementMap : ElementMap;
  ps_url : string
}.

(** [{ format, path }] of a saved output file. *)
Record OutputFile : Type := mkOutputFile {
  format : string;
  path : string
}.

(** The object built by [saveResults]. *)
Record Results : Type := mkResults {
  r_sessionId : string;
  r_timestamp : string;
  r_totalSteps : Z;
  r_status : string;
  r_extractedData : JsValue;
  r_outputFiles : list OutputFile;
  r_actionLog : list LogEntry.t
}.

(** What is written to a file. [JSON.stringify] is left abstract: a
    log file holds the results object, a JSON output holds
    [{ title, generated, sessionId, ...extractedData }], and of a
    Markdown output the title, the date and the data it is rendered
    from are kept (the rendering to text is not modelled). *)
Inductive FileContent : Type :=
  | LogFile (results : Results)
  | JsonOutput (title generated sessionId : string) (extractedData : JsValue)
  | MarkdownOutput (title generated : string) (extractedData : JsValue).

(** The calls the agent makes to the outside, in the order made. *)
Inductive Call : Type :=
  | CreateAdapter
  | LaunchBrowser
  | OpenPage
  | PreloadCookies
  | Goto (url : string)
  | WaitForTimeout (ms : Z)
  | InjectStyles
  | GetPageState
  | GenerateAction
  | Highlight
  | ShowToast
  | Execute (kind : string)
  | CloseBrowser
  | WriteFile (path : string).

(** How the [while] loop is left without an exception: by [break], or
    because its condition is false. [ExitFuel] stands for an unfinished
    loop and is never the result of [run_loop] ([run_loop_finishes]). *)
Inductive LoopExit : Type := ExitBreak | ExitCondition | ExitFuel.

(** The calls of an iteration other than the observation of the page
    and the execution of the action. *)
Definition is_background (c : Call) : bool :=
  match c with
  | GenerateAction | Highlight | ShowToast | WaitForTimeout _ => true
  | _ => false
  end.

(** The calls with which an iteration starts. *)
Definition is_observation (c : Call) : bool :=
  match c with GetPageState => true | _ => false end.

(** The calls made once the [try] statement is left. *)
Definition is_cleanup (c : Call) : bool :=
  match c with CloseBrowser | WriteFile _ => true | _ => false end.

(** The calls of the loop. *)
Definition is_step_call (c : Call) : bool :=
  match c with
  | GetPageState | GenerateAction | Highlight | ShowToast | Execute _ => true
  | _ => false
  end.

(** The calls made before the loop. *)
Definition is_setup (c : Call) : bool :=
  match c with
  | CreateAdapter | LaunchBrowser | OpenPage | PreloadCookies | Goto _
  | WaitForTimeout _ | InjectStyles => true
  | _ => false
  end.

(** The number of iterations begun in a stretch of calls. *)
Definition observations (tr : list Call) : nat :=
  length (List.filter is_observation tr).

Section Agent.
Context {World : Type}.

(** The execution of an action of a terminal kind. *)
Definition is_terminal_call (reg : ActionRegistry.t World) (c : Call)
  : bool :=
  match c with
  | Execute kind => ActionRegistry.isTerminal reg kind
  | _ => false
  end.

(** A stretch of calls without the execution of a terminal action. *)
Definition quiet (reg : ActionRegistry.t World) (tr : list Call) : Prop :=
  Forall (fun c => is_terminal_call reg c = false) tr.

(** The collaborators of the agent. *)
Record Env : Type := mkEnv {
(** [this.page] *)
page : Page.t World;
(** [createAdapter(provider)] and the adapter it returns *)
createAdapter : Eff World unit;
generateAction : Context -> Eff World Action;
(** [chromium.launchPersistentContext(...)], with the preparation of
    the profile directory *)
launchPersistentContext : Eff World unit;
(** [context.pages()[0] || await context.newPage()] *)
openPage : Eff World unit;
(** [this.browser.close()] *)
browser_close : Eff World unit;
(** the listing of the plugins directory *)
pluginsDir : World -> option (list (@ActionRegistry.PluginFile World));
(** [preloadCookiesFromGoal(goal, url)] *)
preloadCookiesFromGoal : string -> string -> Eff World unit;
(** [getPageState()] *)
getPageState : Eff World PageState;
(** [parseAction(rawAction, elementMap)] of action-parser.js, which
    is not part of the sources at hand *)
parseAction : Action -> ElementMap -> Completion Action;
(** the highlighter of scripts/highlighter.js *)
injectStyles : Eff World unit;
highlightAction : string -> string -> Eff World unit;
showToast : string -> string -> Eff World unit;
(** [new Date().toISOString()] *)
now : World -> string
}.

(** The fields of [this], the process-wide registry, the files written
    and the calls made so far, and the world outside. *)
Record State : Type := mkState {
  options : Options;
  sessionId : string;
  browser : bool;
  highlighter : bool;
  actionLog : list LogEntry.t;
  extractedData : JsValue;
  currentStep : Z;
  outputFormat : option string;
  outputTitle : option string;
  registry : ActionRegistry.t World;
  disk : gmap string FileContent;
  trace : list Call;
  world : World
}.

(** [new Agent(options)] in a process whose registry is [reg]. *)
Definition constructor (opts : Options) (id : string)
    (reg : ActionRegistry.t World) (w : World) : State :=
  {| options := opts; sessionId := id; browser := false;
     highlighter := false; actionLog := []; extractedData := JNull;
     currentStep := 0; outputFormat := None; outputTitle := None;
     registry := reg; disk := ∅; trace := []; world := w |}.

Definition set_world (w : World) (s : State) : State :=
  {| options := options s; sessionId := sessionId s; browser := browser s;
     highlighter := highlighter s; actionLog := actionLog s;
     extractedData := extractedData s; currentStep := currentStep s;
     outputFormat := outputFormat s; outputTitle := outputTitle s;
     registry := registry s; disk := disk s; trace := trace s;
     world := w |}.

Definition add_call (c : Call) (s : State) : State :=
  {| options := options s; sessionId := sessionId s; browser := browser s;
     highlighter := highlighter s; actionLog := actionLog s;
     extractedData := extractedData s; currentStep := currentStep s;
     outputFormat := outputFormat s; outputTitle := outputTitle s;
     registry := registry s; disk := disk s; trace := trace s ++ [c];
     world := world s |}.

Definition set_browser (b : bool) (s : State) : State :=
  {| options := options s; sessionId := sessionId s; browser := b;
     highlighter := highlighter s; actionLog := actionLog s;
     extractedData := extractedData s; currentStep := currentStep s;
     outputFormat := outputFormat s; outputTitle := outputTitle s;
     registry := registry s; disk := disk s; trace := trace s;
     world := world s |}.

Definition set_highlighter (b : bool) (s : State) : State :=
  {| options := options s; sessionId := sessionId s; browser := browser s;
     highlighter := b; actionLog := actionLog s;
     extractedData := extractedData s; currentStep := currentStep s;
     outputFormat := outputFormat s; outputTitle := outputTitle s;
     registry := registry s; disk := disk s; trace := trace s;
     world := world s |}.

Definition set_registry (r : ActionRegistry.t World) (s : State) : State :=
  {| options := options s; sessionId := sessionId s; browser := browser s;
     highlighter := highlighter s; actionLog := actionLog s;
     extractedData := extractedData s; currentStep := currentStep s;
     outputFormat := outputFormat s; outputTitle := outputTitle s;
     registry := r; disk := disk s; trace := trace s;
     world := world s |}.

(** [this.currentStep++] *)
Definition increment_step (s : State) : State :=
  {| options := options s; sessionId := sessionId s; browser := browser s;
     highlighter := highlighter s; actionLog := actionLog s;
     extractedData := extractedData s; currentStep := currentStep s + 1;
     outputFormat := outputFormat s; outputTitle := outputTitle s;
     registry := registry s; disk := disk s; trace := trace s;
     world := world s |}.

(** [this.actionLog.push(entry)] *)
Definition push_log (e : LogEntry.t) (s : State) : State :=
  {| options := options s; sessionId := sessionId s; browser := browser s;
     highlighter := highlighter s; actionLog := actionLog s ++ [e];
     extractedData := extractedData s; currentStep := currentStep s;
     outputFormat := outputFormat s; outputTitle := outputTitle s;
     registry := registry s; disk := disk s; trace := trace s;
     world := world s |}.

(** The assignments made after a terminal action:
    [if (action.extracted_data) this.extractedData = ...] and the like. *)
Definition capture (a : Action) (s : State) : State :=
  {| options := options s; sessionId := sessionId s; browser := browser s;
     highlighter := highlighter s; actionLog := actionLog s;
     extractedData :=
       if truthy (extracted_data a) then extracted_data a
       else extractedData s;
     currentStep := currentStep s;
     outputFormat :=
       if truthy_str (output_format a) then output_format a
       else outputFormat s;
     outputTitle :=
       if truthy_str (output_title a) then output_title a
       else outputTitle s;
     registry := registry s; disk := disk s; trace := trace s;
     world := world s |}.

(** [fs.writeFileSync(path, content)] *)
Definition write_file (p : string) (c : FileContent) (s : State) : State :=
  {| options := options s; sessionId := sessionId s; browser := browser s;
     highlighter := highlighter s; actionLog := actionLog s;
     extractedData := extractedData s; currentStep := currentStep s;
     outputFormat := outputFormat s; outputTitle := outputTitle s;
     registry := registry s; disk := <[p := c]> (disk s);
     trace := trace s ++ [WriteFile p]; world := world s |}.

(** A call to the outside: it is recorded, then made on the world. *)
Definition call {A} (c : Call) (op : Eff World A) : Eff State A :=
  fun s =>
    let '(r, w') := op (world s) in
    (r, set_world w' (add_call c s)).

Definition lift_pure {A} (c : Completion A) : Eff State A :=
  fun s => (c, s).

(** [title.replace(/[^a-zA-Z0-9_-]/g, '_').toLowerCase()]. A character
    stands for one code unit of the JavaScript string. *)
Definition in_title_class (c : ascii) : bool :=
  let n := nat_of_ascii c in
  ((97 <=? n) && (n <=? 122) || (65 <=? n) && (n <=? 90)
   || (48 <=? n) && (n <=? 57) || (n =? 95) || (n =? 45))%nat.

Fixpoint map_chars (f : ascii -> ascii) (s : string) : string :=
  match s with
  | EmptyString => EmptyString
  | String c rest => String (f c) (map_chars f rest)
  end.

(** The replacement of every character outside the class by [_]. *)
Definition replace_outside_class (s : string) : string :=
  map_chars (fun c => if in_title_class c then c else "_"%char) s.

(** [toLowerCase()], on the characters that the replacement leaves:
    only the letters A to Z change. *)
Definition toLowerCase (s : string) : string :=
  map_chars
    (fun c =>
       let n := nat_of_ascii c in
       if ((65 <=? n) && (n <=? 90))%nat then ascii_of_nat (n + 32) else c)
    s.

Definition safeTitle (title : string) : string :=
  toLowerCase (replace_outside_class title).

(** The characters a to z, 0 to 9, [_] and [-]. *)
Definition in_safe_class (c : ascii) : bool :=
  let n := nat_of_ascii c in
  ((97 <=? n) && (n <=? 122) || (48 <=? n) && (n <=? 57)
   || (n =? 95) || (n =? 45))%nat.

Fixpoint all_chars (p : ascii -> bool) (s : string) : bool :=
  match s with
  | EmptyString => true
  | String c rest => p c && all_chars p rest
  end.

(** [this.actionLog.slice(-5)] *)
Definition slice_last (n : nat) (log : list LogEntry.t) : list LogEntry.t :=
  drop (length log - n) log.

Variable env : Env.

(** The status, as a function of the log, the step counter and the
    step limit. *)
Definition status_of (log : list LogEntry.t) (step limit : Z) : string :=
  match last log with
  | None => "no_actions"
  | Some lastAction =>
      if String.eqb (LogEntry.kind lastAction) "complete" then "completed"
      else if String.eqb (LogEntry.kind lastAction) "terminate"
      then "terminated"
      else if String.eqb (LogEntry.kind lastAction) "error" then "error"
      else if limit <=? step then "max_steps_reached"
      else "unknown"
  end.

(** [getStatus()] *)
Definition getStatus (s : State) : string :=
  status_of (actionLog s) (currentStep s) (maxSteps (options s)).

(** [initialize()] *)
Definition initialize : Eff State unit :=
  (call CreateAdapter (createAdapter env) ;;
   call LaunchBrowser (launchPersistentContext env) ;;
   modify (set_browser true) ;;
   call OpenPage (openPage env) ;;
   modify (fun s =>
             set_registry
               (ActionExecutor.constructor (pluginsDir env (world s))
                  (registry s)) s))%eff.

(** [close()] *)
Definition close : Eff State unit :=
  fun s =>
    if browser s then call CloseBrowser (browser_close env) s
    else ret tt s.

(** The predicate of [this.actionLog.find(...)] in [saveExtractedData]. *)
Definition has_output (a : LogEntry.t) : bool :=
  truthy (extracted_data (LogEntry.action a))
  || truthy_str (output_format (LogEntry.action a)).

(** [this.outputFormat || lastAction?.output_format || 'json'] *)
Definition chosen_format (s : State) : string :=
  let lastAction := List.find has_output (actionLog s) in
  str_or (outputFormat s)
    (str_or (lastAction ≫= fun a => output_format (LogEntry.action a))
       "json").

(** [this.outputTitle || lastAction?.output_title
     || `output_${this.sessionId}`] *)
Definition chosen_title (s : State) : string :=
  let lastAction := List.find has_output (actionLog s) in
  str_or (outputTitle s)
    (str_or (lastAction ≫= fun a => output_title (LogEntry.action a))
       ("output_" +:+ sessionId s)).

(** The path of the file written by [saveExtractedData]. *)
Definition output_path (s : State) (extension : string) : string :=
  "data/output/" +:+ safeTitle (chosen_title s) +:+ "_" +:+ sessionId s
    +:+ extension.

(** [saveExtractedData(outputDir)] *)
Definition saveExtractedData : Eff State (list OutputFile) :=
  fun s =>
    let format := chosen_format s in
    let title := chosen_title s in
    if String.eqb format "markdown" || String.eqb format "md" then
      let mdPath := output_path s ".md" in
      (Returns [ {| format := "markdown"; path := mdPath |} ],
       write_file mdPath
         (MarkdownOutput title (now env (world s)) (extractedData s)) s)
    else
      let jsonPath := output_path s ".json" in
      (Returns [ {| format := "json"; path := jsonPath |} ],
       write_file jsonPath
         (JsonOutput title (now env (world s)) (sessionId s)
            (extractedData s)) s).

(** The path of the session record. *)
Definition log_path (s : State) : string :=
  "data/action-logs/" +:+ sessionId s +:+ ".json".

(** The results object, as first built by [saveResults]. *)
Definition results_of (s : State) : Results :=
  {| r_sessionId := sessionId s;
     r_timestamp := now env (world s);
     r_totalSteps := currentStep s;
     r_status := getStatus s;
     r_extractedData := extractedData s;
     r_outputFiles := [];
     r_actionLog := actionLog s |}.

Definition with_outputFiles (files : list OutputFile) (r : Results)
  : Results :=
  {| r_sessionId := r_sessionId r; r_timestamp := r_timestamp r;
     r_totalSteps := r_totalSteps r; r_status := r_status r;
     r_extractedData := r_extractedData r; r_outputFiles := files;
     r_actionLog := r_actionLog r |}.

(** [saveResults()] *)
Definition saveResults : Eff State Results :=
  (let* s := get_state in
   let results := results_of s in
   modify (write_file (log_path s) (LogFile results)) ;;
   if truthy (extractedData s) then
     let* outputFiles := saveExtractedData in
     ret (with_outputFiles outputFiles results)
   else ret results)%eff.

(** The non-TUI branch reads [action.reasoning.substring(0, 100)]. *)
Definition print_action (s : State) (a : Action) : Eff State unit :=
  if useTUI (options s) then ret tt
  else match reasoning a with
       | Some _ => ret tt
       | None =>
           throw "Cannot read properties of undefined (reading 'substring')"
       end.

(** [if (this.highlighter && action.element_id) { ... }] *)
Definition highlight (s : State) (a : Action) : Eff State unit :=
  if highlighter s && truthy_str (element_id a) then
    (call Highlight
       (highlightAction env (default "" (element_id a)) (action_type a)) ;;
     call ShowToast
       (showToast env (action_type a) (default "" (element_id a))))%eff
  else ret tt.

(** [if (this.options.waitBetweenActions > 0) await ...waitForTimeout] *)
Definition pause (s : State) : Eff State unit :=
  if 0 <? waitBetweenActions (options s) then
    call (WaitForTimeout (waitBetweenActions (options s)))
      (Page.waitForTimeout (page env) (waitBetweenActions (options s)))
  else ret tt.

(** [o] is what the executor returns for [a] on some page. *)
Definition executed_by (reg : ActionRegistry.t World) (a : Action)
    (o : Outcome.t) : Prop :=
  exists em w w',
    ActionExecutor.execute reg (page env) em a w = (Returns o, w').

(** An entry written for an executed action. *)
Definition logged_by (reg : ActionRegistry.t World) (e : LogEntry.t)
  : Prop :=
  exists a o,
    e = LogEntry.executed (LogEntry.step e) a o /\ executed_by reg a o.

(** The first half of the body of the [while] loop: the step counter
    is incremented, the page is observed, and the next action is
    decided, parsed, printed and highlighted. *)
Definition decide (goal : string) : Eff State (PageState * Action) :=
  (modify increment_step ;;
   let* pageState := call GetPageState (getPageState env) in
   let* s := get_state in
   let context :=
     {| goal := goal;
        simplifiedHtml := ps_simplifiedHtml pageState;
        elementMap := ps_elementMap pageState;
        previousActions := slice_last 5 (actionLog s);
        currentUrl := ps_url pageState |} in
   let* rawAction := call GenerateAction (generateAction env context) in
   let* action :=
     lift_pure (parseAction env rawAction (ps_elementMap pageState)) in
   print_action s action ;;
   highlight s action ;;
   ret (pageState, action))%eff.

(** The second half: the action is executed and logged; a terminal
    kind leaves the loop, any other kind is followed by the pause. The
    result tells whether the loop is left by [break]. *)
Definition act (pageState : PageState) (action : Action)
  : Eff State bool :=
  (let* s := get_state in
   let* result :=
     call (Execute (action_type action))
       (ActionExecutor.execute (registry s) (page env)
          (ps_elementMap pageState) action) in
   modify (push_log (LogEntry.executed (currentStep s) action result)) ;;
   if ActionRegistry.isTerminal (registry s) (action_type action) then
     modify (capture action) ;; ret true
   else
     pause s ;; ret false)%eff.

(** The body of the [while] loop. *)
Definition iteration (goal : string) : Eff State bool :=
  (let* decision := decide goal in
   act (fst decision) (snd decision))%eff.

(** [while (this.currentStep < this.options.maxSteps) { ... }], with
    [fuel] bounding the number of iterations. *)
Fixpoint loop (goal : string) (fuel : nat) : Eff State LoopExit :=
  fun s =>
    if currentStep s <? maxSteps (options s) then
      match fuel with
      | O => (Returns ExitFuel, s)
      | S fuel' =>
          (let* terminal := iteration goal in
           if terminal : bool then ret ExitBreak
           else loop goal fuel')%eff s
      end
    else (Returns ExitCondition, s).

Definition run_loop (goal : string) : Eff State LoopExit :=
  fun s =>
    loop goal (Z.to_nat (maxSteps (options s) - currentStep s)) s.

(** The [try] block of [run], up to the loop. *)
Definition setup (url goal : string) : Eff State unit :=
  (initialize ;;
   call PreloadCookies (preloadCookiesFromGoal env goal url) ;;
   call (Goto url) (Page.goto (page env) url) ;;
   call (WaitForTimeout 2000) (Page.waitForTimeout (page env) 2000) ;;
   let* s := get_state in
   if negb (headless (options s)) then
     modify (set_highlighter true) ;;
     call InjectStyles (injectStyles env)
   else ret tt)%eff.

(** The [try] block of [run]. *)
Definition try_block (url goal : string) : Eff State LoopExit :=
  (setup url goal ;; run_loop goal)%eff.

(** The registry of a session: the process-wide registry once
    [initialize] has built the executor. *)
Definition session_registry (s : State) : ActionRegistry.t World :=
  registry (snd (initialize s)).

(** What is known of the entries logged and of the calls made by the
    loop, by the way the [try] block ends: the loop is left by its
    condition after one entry per iteration, none of a terminal kind;
    it is left by [break] right after the execution of an action of a
    terminal kind, which is the last entry; an exception leaves it
    before any action of a terminal kind has been executed. *)
Definition exit_facts (reg : ActionRegistry.t World) (start limit : Z)
    (c : Completion LoopExit) (final : Z) (entries : list LogEntry.t)
    (tr : list Call) : Prop :=
  match c with
  | Returns ExitCondition =>
      final = Z.max start limit
      /\ final = start + Z.of_nat (length entries)
      /\ observations tr = length entries
      /\ Forall (fun e => ActionRegistry.isTerminal reg (LogEntry.kind e)
                          = false) entries
      /\ quiet reg tr
  | Returns ExitBreak =>
      exists pre e tr0,
        entries = pre ++ [e]
        /\ ActionRegistry.isTerminal reg (LogEntry.kind e) = true
        /\ tr = tr0 ++ [Execute (LogEntry.kind e)]
        /\ quiet reg tr0
  | Returns ExitFuel => False
  | Throws _ => quiet reg tr
  end.

(** An environment in which no call outside the handlers throws, and
    in which every decision of the provider is parsed to an action
    that satisfies [P]. *)
Definition cooperative (P : Action -> Prop) : Prop :=
  total (createAdapter env)
  /\ total (launchPersistentContext env)
  /\ total (openPage env)
  /\ total (browser_close env)
  /\ (forall goal url, total (preloadCookiesFromGoal env goal url))
  /\ (forall url, total (Page.goto (page env) url))
  /\ (forall ms, total (Page.waitForTimeout (page env) ms))
  /\ total (injectStyles env)
  /\ total (getPageState env)
  /\ (forall id kind, total (highlightAction env id kind))
  /\ (forall kind id, total (showToast env kind id))
  /\ (forall context w,
        exists raw w' a,
          generateAction env context w = (Returns raw, w')
          /\ parseAction env raw (elementMap context) = Returns a
          /\ P a).


(** An action that can be printed. *)
Definition printable (opts : Options) (a : Action) : Prop :=
  useTUI opts = true \/ is_Some (reasoning a).

(** The [catch] block of [run]. *)
Definition catch_block (message : string) : Eff State unit :=
  (let* s := get_state in
   modify (push_log (LogEntry.caught (currentStep s) message)))%eff.

(** The [try]/[catch] statement of [run], without its [finally]. *)
Definition guarded (url goal : string) : Eff State unit :=
  try_catch (try_block url goal ;; ret tt)%eff catch_block.

(** The log once the [try]/[catch] statement is left: an exception
    adds the entry of the [catch] block. *)
Definition log_at_exit {A} (c : Completion A) (s : State)
  : list LogEntry.t :=
  match c with
  | Returns _ => actionLog s
  | Throws message =>
      actionLog s ++ [LogEntry.caught (currentStep s) message]
  end.

(** [run(url, goal)] *)
Definition run (url goal : string) : Eff State Results :=
  (try_finally (guarded url goal) close ;;
   saveResults)%eff.
End Agent.
End Agent.

(** ** A scripted world

    A small concrete world on which the model runs: the decisions of the
    provider are read from a script, the live page is a table from
    locators and selectors to handles, and closing the browser fails
    when [close_error] is set. *)

Module Script.
Record World : Type := mkWorld {
  answers : list (Completion Action);
  live : list (string * Handle)
}.

Definition lookup_live (key : string) (w : World) : option Handle :=
  snd <$> List.find (fun kv => String.eqb (fst kv) key) (live w).

Definition page : Page.t World :=
  {| Page.locator_xpath := fun xp w =>
       match lookup_live xp w with
       | Some h => (Returns h, w)
       | None => (Throws "Timeout 30000ms exceeded", w)
       end;
     Page.query_selector := fun sel w => (Returns (lookup_live sel w), w);
     Page.click := fun _ => ret tt;
     Page.hover := fun _ => ret tt;
     Page.fill := fun _ _ => ret tt;
     Page.keyboard_press := fun _ => ret tt;
     Page.mouse_move := fun _ _ => ret tt;
     Page.waitForTimeout := fun _ => ret tt;
     Page.goto := fun _ => ret tt |}.

(** A provider that reads the next decision from the script. *)
Definition scripted (_ : Context) : Eff World Action :=
  fun w =>
    match answers w with
    | [] => (Throws "script exhausted", w)
    | c :: rest => (c, {| answers := rest; live := live w |})
    end.


(** An element table with one element, known by its aria-label only
    on the live page. *)
Definition e1 : ElementInfo.t :=
  {| ElementInfo.tag := Some "button";
     ElementInfo.xpath := Some "/html/body/button[1]";
     ElementInfo.name := Some "go";
     ElementInfo.type := None;
     ElementInfo.aria_label := Some "Search";
     ElementInfo.placeholder := None;
     ElementInfo.role := None |}.

Definition table : ElementMap := {[ "e1" := e1 ]}.

(** The environment with a given provider, in which closing the
    browser throws [close_error] when there is one. *)
Definition env (close_error : option string)
    (provider : Context -> Eff World Action) : Agent.Env :=
  {| Agent.page := page;
     Agent.createAdapter := ret tt;
     Agent.generateAction := provider;
     Agent.launchPersistentContext := ret tt;
     Agent.openPage := ret tt;
     Agent.browser_close :=
       match close_error with
       | Some e => throw e
       | None => ret tt
       end;
     Agent.pluginsDir := fun _ => Some Plugins.plugin_files;
     Agent.preloadCookiesFromGoal := fun _ _ => ret tt;
     Agent.getPageState :=
       ret {| Agent.ps_simplifiedHtml := "<button>";
              Agent.ps_elementMap := table;
              Agent.ps_url := "about:blank" |};
     Agent.parseAction := fun raw _ => Returns raw;
     Agent.injectStyles := ret tt;
     Agent.highlightAction := fun _ _ => ret tt;
     Agent.showToast := fun _ _ => ret tt;
     Agent.now := fun _ => "2024-01-01T00:00:00.000Z" |}.

Definition world (script : list (Completion Action)) : World :=
  {| answers := script;
     live := [(BaseAction.attr_selector "aria-label" "Search", 7%nat)] |}.

Definition options (m : Z) : Agent.Options :=
  {| Agent.headless := true; Agent.maxSteps := m;
     Agent.waitBetweenActions := 1000; Agent.useTUI := true |}.

(** [new Agent({ maxSteps: m })] in a process whose registry is still
    empty, in front of the scripted world. *)
Definition start (m : Z) (w : World) : Agent.State :=
  Agent.constructor (options m) "20240101_000000" ActionRegistry.empty w.

(** The registry once the five plugin classes are loaded. *)
Definition loaded : ActionRegistry.t World :=
  ActionRegistry.loadPlugins (Some Plugins.plugin_files)
    ActionRegistry.empty.

(** A plugin class whose handler always throws. *)
Definition FaultyAction : ActionClass.t World :=
  {| ActionClass.type := "faulty";
     ActionClass.requiresElement := false;
     ActionClass.isCoordinate := false;
     ActionClass.isTerminal := false;
     ActionClass.description := "Always throws";
     ActionClass.execute := fun _ _ _ => throw "handler crashed" |}.

(** An OpenRouter adapter whose requests all fail, behind a limiter
    that retries three times. *)
Definition failing_fetch (_ : string)
  : Eff World OpenRouterAdapter.Response :=
  throw "fetch failed".

Definition limiter : option (Eff World Action -> Eff World Action) :=
  Some (OpenRouterAdapter.retry (fun _ => ret tt) 3 1000 2).

Definition failing_provider : Context -> Eff World Action :=
  OpenRouterAdapter.generateAction failing_fetch
    (fun _ => Returns "prompt")
    (fun _ => Returns (bare_action "wait"))
    limiter.

Definition some_context : Context :=
  {| goal := "find the docs"; simplifiedHtml := "<button>";
     elementMap := table; previousActions := [];
     currentUrl := "about:blank" |}.

Definition click_e1 : Action :=
  {| action_type := "click"; reasoning := Some "open the search";
     element_id := Some "e1"; text := None; reason := None;
     data := JUndefined; extracted_data := JUndefined;
     output_format := None; output_title := None; errors := [];
     x := None; y := None |}.



Definition complete_with (d : JsValue) : Action :=
  {| action_type := "complete"; reasoning := Some "done";
     element_id := None; text := None; reason := None;
     data := JUndefined; extracted_data := d;
     output_format := None; output_title := None; errors := [];
     x := None; y := None |}.
End Script.

(** ** Strings *)

Module Str.
(** [s.startsWith(p)] *)
Definition startsWith (p s : string) : bool := String.prefix p s.

(** [s.includes(needle)] *)
Fixpoint includes (needle s : string) : bool :=
  String.prefix needle s
  || match s with
     | EmptyString => false
     | String _ rest => includes needle rest
     end.

(** [s.endsWith(suffix)] *)
Fixpoint endsWith (suffix s : string) : bool :=
  String.eqb suffix s
  || match s with
     | EmptyString => false
     | String _ rest => endsWith suffix rest
     end.

(** [s.substring(n)] *)
Fixpoint drop (n : nat) (s : string) : string :=
  match n, s with
  | O, _ => s
  | S n', String _ rest => drop n' rest
  | S _, EmptyString => EmptyString
  end.

(** [s.replace(pattern, '')] for a string pattern: the first
    occurrence is removed. *)
Fixpoint remove_first (pattern s : string) : string :=
  if String.prefix pattern s then drop (String.length pattern) s
  else match s with
       | EmptyString => EmptyString
       | String c rest => String c (remove_first pattern rest)
       end.

(** [s.split(separator)[0]] for a separator of one character *)
Fixpoint before (separator : ascii) (s : string) : string :=
  match s with
  | EmptyString => EmptyString
  | String c rest =>
      if Ascii.eqb c separator then EmptyString
      else String c (before separator rest)
  end.

(** Whether a character occurs in a string. *)
Fixpoint occurs (c : ascii) (s : string) : bool :=
  match s with
  | EmptyString => false
  | String c' rest => Ascii.eqb c c' || occurs c rest
  end.
End Str.

(** ** The calls made on a page *)

Module PageLog.
Inductive Call : Type :=
  | LocatorXPath (xpath : string)
  | QuerySelector (selector : string)
  | Click (element : Handle)
  | Hover (element : Handle)
  | Fill (element : Handle) (text : string)
  | KeyboardPress (key : string)
  | MouseMove (x y : Z)
  | WaitForTimeout (ms : Z)
  | Goto (url : string).

(** The call is made on the world and added to the record. *)
Definition record {W A} (c : Call) (op : Eff W A) : Eff (W * list Call) A :=
  fun s =>
    let '(r, w') := op (fst s) in
    (r, (w', snd s ++ [c])).

(** A page that keeps a record of the calls made on it. *)
Definition logged {W} (p : Page.t W) : Page.t (W * list Call) :=
  {| Page.locator_xpath := fun xp =>
       record (LocatorXPath xp) (Page.locator_xpath p xp);
     Page.query_selector := fun sel =>
       record (QuerySelector sel) (Page.query_selector p sel);
     Page.click := fun h => record (Click h) (Page.click p h);
     Page.hover := fun h => record (Hover h) (Page.hover p h);
     Page.fill := fun h t => record (Fill h t) (Page.fill p h t);
     Page.keyboard_press := fun k =>
       record (KeyboardPress k) (Page.keyboard_press p k);
     Page.mouse_move := fun vx vy =>
       record (MouseMove vx vy) (Page.mouse_move p vx vy);
     Page.waitForTimeout := fun ms =>
       record (WaitForTimeout ms) (Page.waitForTimeout p ms);
     Page.goto := fun url => record (Goto url) (Page.goto p url) |}.

(** The calls that look for an element. *)
Definition is_lookup (c : Call) : bool :=
  match c with LocatorXPath _ | QuerySelector _ => true | _ => false end.

(** The calls that [input_text] may make. *)
Definition is_typing (c : Call) : bool :=
  match c with
  | LocatorXPath _ | QuerySelector _ | Fill _ _ => true
  | KeyboardPress key => String.eqb key "Enter"
  | WaitForTimeout ms => ms =? 500
  | _ => false
  end.
End PageLog.

(** ** More plugins (plugins/input-text.js, plugins/hover.js) *)

Module InputText.
Section Handler.
Context {World : Type}.
(** [String.prototype.toLowerCase] *)
Variable toLowerCase : string -> string.

(** [value === expected] for a property that may be absent *)
Definition is_exactly (value : option string) (expected : string) : bool :=
  match value with
  | Some v => String.eqb v expected
  | None => false
  end.

(** [value?.toLowerCase()?.includes(needle)], [undefined] counting as
    false *)
Definition mentions (value : option string) (needle : string) : bool :=
  match value with
  | Some v => Str.includes needle (toLowerCase v)
  | None => false
  end.

(** [isSearchInput(elementInfo)] *)
Definition isSearchInput (elementInfo : option ElementInfo.t) : bool :=
  match elementInfo with
  | None => false
  | Some info =>
      is_exactly (ElementInfo.type info) "search"
      || mentions (ElementInfo.name info) "search"
      || mentions (ElementInfo.name info) "query"
      || is_exactly (ElementInfo.name info) "q"
      || mentions (ElementInfo.aria_label info) "search"
      || mentions (ElementInfo.placeholder info) "search"
      || is_exactly (ElementInfo.role info) "searchbox"
  end.

(** [this.elementMap[element_id]] *)
Definition info_of (elementMap : ElementMap) (element_id : option string)
  : option ElementInfo.t :=
  element_id ≫= fun id => elementMap !! id.

(** input-text.js *)
Definition InputTextAction : ActionClass.t World :=
  {| ActionClass.type := "input_text";
     ActionClass.requiresElement := true;
     ActionClass.isCoordinate := false;
     ActionClass.isTerminal := false;
     ActionClass.description := "Type text into an input field";
     ActionClass.execute := fun page elementMap action =>
       try_catch
         (let* element := BaseAction.getElement page elementMap
                            (element_id action) in
          Page.fill page element "" ;;
          Page.fill page element (str_or (text action) "") ;;
          if isSearchInput (info_of elementMap (element_id action)) then
            Page.keyboard_press page "Enter" ;;
            Page.waitForTimeout page 500 ;;
            ret Outcome.ok
          else ret Outcome.ok)%eff
         (fun msg => ret (Outcome.failure msg)) |}.
End Handler.
End InputText.

Module MouseMove.
Section Handler.
Context {World : Type}.


End Handler.
End MouseMove.

(* ------------ theorems ------------- *)

(** ** The screenshot plugin (plugins/screenshot.js) *)

Module Screenshot.
Section Handler.
Context {World : Type}.
(** [new Date().toISOString()] *)
Variable toISOString : World -> string.
(** [path.join(dataDir, 'screenshots')], with [dataDir] taken from the
    environment or from the place of the plugin *)
Variable screenshotDir : string.
(** [path.join(screenshotDir, filename)] *)
Variable path_join : string -> string -> string.
(** [if (!fs.existsSync(dir)) fs.mkdirSync(dir, { recursive: true })] *)
Variable ensure_dir : string -> Eff World unit.
(** [this.page.screenshot({ path, fullPage: false })] *)
Variable page_screenshot : string -> Eff World unit.

(** [iso.replace(/[:.]/g, '-')] *)
Definition timestamp_of (iso : string) : string :=
  Agent.map_chars
    (fun c => if Ascii.eqb c ":" || Ascii.eqb c "." then "-"%char else c)
    iso.

(** [`screenshot-${timestamp}.png`] *)
Definition filename_of (iso : string) : string :=
  "screenshot-" +:+ timestamp_of iso +:+ ".png".

(** [{ success: true, message, data: { filepath, filename } }] *)
Definition saved (filepath filename : string) : Outcome.t :=
  {| Outcome.success := true; Outcome.error := None;
     Outcome.data :=
       JObj [("filepath", JStr filepath); ("filename", JStr filename)];
     Outcome.message := Some ("Screenshot saved to " +:+ filename) |}.

(** screenshot.js *)
Definition ScreenshotAction : ActionClass.t World :=
  {| ActionClass.type := "screenshot";
     ActionClass.requiresElement := false;
     ActionClass.isCoordinate := false;
     ActionClass.isTerminal := false;
     ActionClass.description :=
       "Take a screenshot of the current page and save it to the logs.";
     ActionClass.execute := fun _ _ _ =>
       try_catch
         (let* now := get_state in
          let filename := filename_of (toISOString now) in
          ensure_dir screenshotDir ;;
          let filepath := path_join screenshotDir filename in
          page_screenshot filepath ;;
          ret (saved filepath filename))%eff
         (fun msg => ret (Outcome.failure ("Screenshot failed: " +:+ msg))) |}.
End Handler.
End Screenshot.

(* ---------- definitions ---------- *)

(** ** Listings of the registry (action-registry.js, action-types.js) *)

Module RegistryListing.
Section Listing.
Context {World : Type}.

(** One object of the array returned by [getAll()]. *)
Record Meta : Type := mkMeta {
  type : string;
  requiresElement : bool;
  isCoordinate : bool;
  isTerminal : bool;
  description : string
}.

(** [getAll()]: the entries of the map, in its order, each with
    [ActionClass.requiresElement || false] and the like. *)
Definition getAll (reg : ActionRegistry.t World) : list Meta :=
  map (fun kv =>
         {| type := fst kv;
            requiresElement := ActionClass.requiresElement (snd kv) || false;
            isCoordinate := ActionClass.isCoordinate (snd kv) || false;
            isTerminal := ActionClass.isTerminal (snd kv) || false;
            description := str_or (Some (ActionClass.description (snd kv))) "" |})
      reg.

(** [getAll().filter(a => a.requiresElement).map(a => a.type)] *)
Definition element_types (reg : ActionRegistry.t World) : list string :=
  map type (filter (fun a => requiresElement a = true) (getAll reg)).

(** [getAll().filter(a => a.isTerminal).map(a => a.type)] *)
Definition terminal_types (reg : ActionRegistry.t World) : list string :=
  map type (filter (fun a => isTerminal a = true) (getAll reg)).

(** [isCoordinateAction(actionType)] of action-types.js *)
Definition isCoordinateAction (reg : ActionRegistry.t World)
    (actionType : string) : bool :=
  match ActionRegistry.get reg actionType with
  | Some cls => ActionClass.isCoordinate cls
  | None => false
  end.

(** The kind under which [loadPlugins] registers the class of a file,
    when it registers one. *)
Definition usable_type (file : @ActionRegistry.PluginFile World)
  : option string :=
  match file with
  | ActionRegistry.Exports cls =>
      if negb (String.eqb (ActionClass.type cls) "")
         && negb (String.eqb (ActionClass.type cls) "unknown")
      then Some (ActionClass.type cls) else None
  | ActionRegistry.RequireFails _ => None
  end.
End Listing.
End RegistryListing.

(* ---------- theorems ---------- *)

(** ** The table of action types (action-types.js) *)

Module ActionTypes.
Section Types.
(** [String.prototype.toUpperCase] *)
Variable toUpperCase : string -> string.

(** [s.replace(/-/g, '_')] *)
Definition replace_dashes (s : string) : string :=
  Agent.map_chars (fun c => if Ascii.eqb c "-" then "_"%char else c) s.

(** The own properties of a plain object whose values are strings. *)
Definition Obj : Type := list (string * string).

(** [o[k]], [None] standing for [undefined] *)
Fixpoint obj_get (o : Obj) (k : string) : option string :=
  match o with
  | [] => None
  | (k', v) :: rest => if String.eqb k' k then Some v else obj_get rest k
  end.

(** [o[k] = v] *)
Fixpoint obj_set (o : Obj) (k v : string) : Obj :=
  match o with
  | [] => [(k, v)]
  | (k', v') :: rest =>
      if String.eqb k' k then (k', v) :: rest
      else (k', v') :: obj_set rest k v
  end.

(** [type.toUpperCase().replace(/-/g, '_')] *)
Definition key_of (type : string) : string :=
  replace_dashes (toUpperCase type).

(** The first loop: [ActionType[key] = type] for every registered type. *)
Definition from_types (types : list string) : Obj :=
  fold_left (fun o type => obj_set o (key_of type) type) types [].

Definition LEGACY_TYPES : list string :=
  [ "click"; "input_text"; "select_option"; "hover"; "upload_file";
    "click_coords"; "move_mouse"; "drag";
    "keypress"; "type_text";
    "scroll"; "goto_url"; "reload"; "go_back"; "go_forward";
    "wait"; "complete"; "terminate"; "extract" ].

(** The second loop: [if (!ActionType[key]) ActionType[key] = type] for
    every legacy type, with [key = type.toUpperCase()]. *)
Definition with_legacy (legacy : list string) (o : Obj) : Obj :=
  fold_left
    (fun o type =>
       let key := toUpperCase type in
       if truthy_str (obj_get o key) then o else obj_set o key type)
    legacy o.

(** The object [ActionType] built when the module is imported. *)
Definition ActionType {World : Type} (reg : ActionRegistry.t World) : Obj :=
  with_legacy LEGACY_TYPES (from_types (ActionRegistry.getTypes reg)).

(** What the first loop keeps true of the object and of the types it
    has gone through. *)
Definition typed (types : list string) (o : Obj) : Prop :=
  (forall K v, obj_get o K = Some v -> v ∈ types /\ key_of v = K)
  /\ (forall t, t ∈ types ->
        exists t', obj_get o (key_of t) = Some t').

(** What the second loop keeps true. *)
Definition merged (types done : list string) (o : Obj) : Prop :=
  (forall K v, obj_get o K = Some v ->
     v <> ""
     /\ ((v ∈ types /\ key_of v = K)
         \/ (v ∈ done /\ toUpperCase v = K
             /\ forall t, t ∈ types -> key_of t <> K)))
  /\ (forall t, t ∈ types ->
        exists t', obj_get o (key_of t) = Some t' /\ t' ∈ types)
  /\ (forall t, t ∈ done ->
        exists v, obj_get o (toUpperCase t) = Some v).
End Types.
End ActionTypes.

(** ** The session identifier (agent.js, [generateSessionId]) *)

Module SessionId.
(** What [generateSessionId] reads of [new Date()], in local time:
    [getFullYear()], [getMonth()] (from 0), [getDate()], [getHours()],
    [getMinutes()] and [getSeconds()]. *)
Record LocalTime : Type := mkLocalTime {
  fullYear : Z;
  month : Z;
  date : Z;
  hours : Z;
  minutes : Z;
  seconds : Z
}.

(** [s.padStart(2, '0')] *)
Definition padStart2 (s : string) : string :=
  match String.length s with
  | O => "00"
  | 1%nat => "0" +:+ s
  | _ => s
  end.

(** [String(n).padStart(2, '0')] *)
Definition two (n : Z) : string := padStart2 (pretty n).

(** [generateSessionId()] *)
Definition generateSessionId (now : LocalTime) : string :=
  pretty (fullYear now) +:+ two (month now + 1) +:+ two (date now)
    +:+ "_" +:+ two (hours now) +:+ two (minutes now)
    +:+ two (seconds now).

(** The fields of a date of the years 1000 to 9999. *)
Definition in_range (t : LocalTime) : Prop :=
  1000 <= fullYear t <= 9999 /\ 0 <= month t <= 11 /\ 1 <= date t <= 31
  /\ 0 <= hours t <= 23 /\ 0 <= minutes t <= 59 /\ 0 <= seconds t <= 59.

(** The decimal digits. *)
Definition is_digit (c : ascii) : bool :=
  let n := nat_of_ascii c in ((48 <=? n) && (n <=? 57))%nat.

(** A check of the numbers [first], ..., [first + count - 1]. *)
Definition all_from (first count : Z) (check : Z -> bool) : bool :=
  forallb (fun i => check (first + Z.of_nat i)) (seq 0 (Z.to_nat count)).
End SessionId.

(** ** The cookies of a session (agent.js, [preloadCookiesFromGoal]) *)

Module Cookies.
Section Cookies.
Context {World : Type}.
(** [String.prototype.toLowerCase] *)
Variable toLowerCase : string -> string.

(** [`${goal} ${url}`.toLowerCase()] *)
Definition searchText (goal url : string) : string :=
  toLowerCase (goal +:+ " " +:+ url).

(** [file.replace('.json', '').toLowerCase()] *)
Definition domain (file : string) : string :=
  toLowerCase (Str.remove_first ".json" file).

(** [domain.split('.')[0]] *)
Definition shortName (file : string) : string :=
  Str.before "." (domain file).

(** [searchText.includes(domain) || searchText.includes(shortName)] *)
Definition matches (goal url file : string) : bool :=
  Str.includes (domain file) (searchText goal url)
  || Str.includes (shortName file) (searchText goal url).

(** [c[name]] for a value [c] that is neither [null] nor [undefined],
    and a name that is none of the properties of strings and arrays
    themselves. *)
Definition field (c : JsValue) (name : string) : JsValue :=
  match c with
  | JObj fields =>
      match List.find (fun kv => String.eqb (fst kv) name) fields with
      | Some kv => snd kv
      | None => JUndefined
      end
  | _ => JUndefined
  end.

(** The value given to [sameSite]. *)
Definition sameSite_of (v : JsValue) : string :=
  match v with
  | JStr s =>
      if String.eqb s "no_restriction" then "None"
      else if String.eqb s "lax" then "Lax"
      else if String.eqb s "strict" then "Strict"
      else "None"
  | _ => "None"
  end.

(** The function mapped over [rawCookies]: the cookie in the format of
    Playwright. Reading a property of [null] or [undefined] throws. *)
Definition normalize (c : JsValue) : Completion JsValue :=
  match c with
  | JNull => Throws "Cannot read properties of null (reading 'name')"
  | JUndefined =>
      Throws "Cannot read properties of undefined (reading 'name')"
  | _ =>
      Returns
        (JObj
           [ ("name", field c "name");
             ("value", field c "value");
             ("domain", field c "domain");
             ("path", js_or (field c "path") (JStr "/"));
             ("expires",
              js_or (field c "expires")
                (js_or (field c "expirationDate") (JNum (-1))));
             ("httpOnly", js_or (field c "httpOnly") (JBool false));
             ("secure", js_or (field c "secure") (JBool false));
             ("sameSite", JStr (sameSite_of (field c "sameSite"))) ])
  end.

(** [rawCookies.map(c => ...)] *)
Fixpoint normalize_all (rawCookies : list JsValue)
  : Completion (list JsValue) :=
  match rawCookies with
  | [] => Returns []
  | c :: rest =>
      match normalize c with
      | Throws e => Throws e
      | Returns n =>
          match normalize_all rest with
          | Throws e => Throws e
          | Returns ns => Returns (n :: ns)
          end
      end
  end.

(** The file system, the JSON parser and the browser context. *)
Variable existsSync : Eff World bool.
Variable mkdirSync : Eff World unit.
Variable readdirSync : Eff World (list string).
Variable readFileSync : string -> Eff World string.
Variable JSON_parse : string -> Completion JsValue.
Variable addCookies : list JsValue -> Eff World unit.

Definition lift_pure {A} (c : Completion A) : Eff World A :=
  fun w => (c, w).

(** The [try] statement in the body of the loop: the file is read and
    parsed, and a non-empty array of cookies is added to the browser;
    whatever is thrown is logged and dropped. *)
Definition load (file : string) : Eff World unit :=
  try_catch
    (let* cookieData := readFileSync file in
     let* rawCookies := lift_pure (JSON_parse cookieData) in
     match rawCookies with
     | JArr (c :: rest) =>
         let* cookies := lift_pure (normalize_all (c :: rest)) in
         addCookies cookies
     | _ => ret tt
     end)%eff
    (fun _ => ret tt).

(** [for (const file of cookieFiles) { ... }] *)
Fixpoint each_file (goal url : string) (cookieFiles : list string)
  : Eff World unit :=
  match cookieFiles with
  | [] => ret tt
  | file :: rest =>
      ((if matches goal url file then load file else ret tt) ;;
       each_file goal url rest)%eff
  end.

(** [preloadCookiesFromGoal(goal, url)] *)
Definition preloadCookiesFromGoal (goal url : string) : Eff World unit :=
  (let* present := existsSync in
   if negb present then mkdirSync
   else
     let* files := readdirSync in
     let cookieFiles := List.filter (Str.endsWith ".json") files in
     match cookieFiles with
     | [] => ret tt
     | _ => each_file goal url cookieFiles
     end)%eff.
End Cookies.
End Cookies.

(** ** The command line (agent.js, [main]) *)

Module Cli.
(** What [main] makes of [process.argv.slice(2)]: the usage text and
    [process.exit(1)], or an agent with these options and a run of it. *)
Inductive Invocation : Type :=
  | Usage
  | Run (llmProvider url goal : string) (headless verbose : bool).

(** [args.indexOf(x)], [None] standing for -1 *)
Fixpoint indexOf (x : string) (args : list string) : option nat :=
  match args with
  | [] => None
  | arg :: rest =>
      if String.eqb arg x then Some O else S <$> indexOf x rest
  end.

(** The provider: [args[llmIndex + 1]] when ['--llm'] occurs and this
    is truthy, the default otherwise. *)
Definition llmProvider (defaultProvider : string) (args : list string)
  : string :=
  match indexOf "--llm" args with
  | Some llmIndex => str_or (args !! (llmIndex + 1)%nat) defaultProvider
  | None => defaultProvider
  end.

(** The callback of [args.filter((arg, i) => ...)]. *)
Definition is_non_flag (args : list string) (i : nat) (arg : string)
  : bool :=
  if Str.startsWith "--" arg then false
  else if (0 <? i)%nat
          && bool_decide (args !! (i - 1)%nat = Some "--llm")
       then false
       else true.

Definition nonFlagArgs (args : list string) : list string :=
  concat (imap (fun i arg => if is_non_flag args i arg then [arg] else [])
            args).

(** The same filter, read from left to right with the argument that
    stands before. *)
Fixpoint scan (previous : option string) (args : list string)
  : list string :=
  match args with
  | [] => []
  | arg :: rest =>
      (if Str.startsWith "--" arg then []
       else if bool_decide (previous = Some "--llm") then []
            else [arg])
      ++ scan (Some arg) rest
  end.

(** [firstArg.startsWith('http://') || firstArg.startsWith('https://')] *)
Definition is_url (firstArg : string) : bool :=
  Str.startsWith "http://" firstArg || Str.startsWith "https://" firstArg.

(** The URL and the goal. *)
Definition target (nonFlag : list string) : string * string :=
  match nonFlag with
  | firstArg :: rest =>
      if is_url firstArg then (firstArg, String.concat " " rest)
      else ("about:blank", String.concat " " nonFlag)
  | [] => ("about:blank", String.concat " " nonFlag)
  end.

(** [main()], up to the run of the agent. *)
Definition parse (defaultProvider : string) (args : list string)
  : Invocation :=
  match args with
  | [] => Usage
  | first :: _ =>
      if String.eqb first "--help" || String.eqb first "-h" then Usage
      else
        let '(url, goal) := target (nonFlagArgs args) in
        Run (llmProvider defaultProvider args) url goal
          (bool_decide ("--headless" ∈ args))
          (negb (bool_decide ("--quiet" ∈ args)))
  end.
End Cli.

(** ** The options of an agent (agent.js, [constructor]) *)

Module AgentOptions.
(** The own properties of a plain object, in the order of creation. *)
Definition Obj : Type := list (string * JsValue).

(** [o[name]] *)
Definition get (o : Obj) (name : string) : JsValue :=
  match List.find (fun kv => String.eqb (fst kv) name) o with
  | Some kv => snd kv
  | None => JUndefined
  end.

(** [name in o], for an own property *)
Definition has (o : Obj) (name : string) : bool :=
  match List.find (fun kv => String.eqb (fst kv) name) o with
  | Some _ => true
  | None => false
  end.

(** [o[name] = v] *)
Fixpoint set (o : Obj) (name : string) (v : JsValue) : Obj :=
  match o with
  | [] => [(name, v)]
  | (name', v') :: rest =>
      if String.eqb name' name then (name', v) :: rest
      else (name', v') :: set rest name v
  end.

(** [a ?? b] *)
Definition nullish_or (a b : JsValue) : JsValue :=
  match a with
  | JUndefined | JNull => b
  | _ => a
  end.

(** [{ ...target, ...source }] *)
Definition spread (target source : Obj) : Obj :=
  fold_left (fun o kv => set o (fst kv) (snd kv)) source target.

(** What the constructor reads of [config]. *)
Record Config : Type := mkConfig {
  agent_maxSteps : JsValue;
  agent_waitBetweenActions : JsValue;
  agent_verbose : JsValue;
  defaultProvider : JsValue
}.

(** The defaults of the object literal, by name. *)
Definition default_of (config : Config) (name : string) : JsValue :=
  if String.eqb name "headless" then JBool false
  else if String.eqb name "maxSteps" then agent_maxSteps config
  else if String.eqb name "waitBetweenActions"
       then agent_waitBetweenActions config
  else if String.eqb name "verbose" then agent_verbose config
  else if String.eqb name "llmProvider" then defaultProvider config
  else if String.eqb name "useTUI" then JBool true
  else JUndefined.

(** [this.options] as the constructor builds it from its argument. *)
Definition constructor (config : Config) (options : Obj) : Obj :=
  spread
    [ ("headless", nullish_or (get options "headless") (JBool false));
      ("maxSteps",
       nullish_or (get options "maxSteps") (agent_maxSteps config));
      ("waitBetweenActions",
       nullish_or (get options "waitBetweenActions")
         (agent_waitBetweenActions config));
      ("verbose", nullish_or (get options "verbose") (agent_verbose config));
      ("llmProvider",
       nullish_or (get options "llmProvider") (defaultProvider config));
      ("useTUI", nullish_or (get options "useTUI") (JBool true)) ]
    options.
End AgentOptions.

(** ** Counting tokens (count-tokens.js) *)

Module TokenCounter.
Section Counter.
(** The code units of a text, with the two classes of the regular
    expressions: white space ([\s]) and the punctuation of markup and
    code (the class that starts with [<>] and ends with [:,.]). *)
Context {C : Type}.
Variable is_space : C -> bool.
Variable is_punctuation : C -> bool.

(** [text.split(separators)], where a separator is a run of white
    space or one punctuation character and is kept, read from left to
    right: [chunk] is the piece being read, which is a run of white
    space when [in_space] is set. A separator ends the piece before it
    and is a piece itself, so that two separators in a row have an
    empty piece between them, and the last piece may be empty. *)
Fixpoint split_from (in_space : bool) (chunk text : list C)
  : list (list C) :=
  match text with
  | [] => if in_space then [chunk; []] else [chunk]
  | c :: rest =>
      if is_space c then
        if in_space then split_from true (chunk ++ [c]) rest
        else chunk :: split_from true [c] rest
      else if is_punctuation c then
        if in_space then chunk :: [] :: [c] :: split_from false [] rest
        else chunk :: [c] :: split_from false [] rest
      else
        if in_space then chunk :: split_from false [c] rest
        else split_from false (chunk ++ [c]) rest
  end.

Definition split (text : list C) : list (list C) :=
  split_from false [] text.

(** The pieces of a text are of four kinds. *)
Definition piece (chunk : list C) : Prop :=
  chunk = []
  \/ (chunk <> [] /\ forallb is_space chunk = true)
  \/ (exists c, chunk = [c] /\ is_space c = false /\ is_punctuation c = true)
  \/ (chunk <> []
      /\ forallb (fun c => negb (is_space c) && negb (is_punctuation c))
           chunk = true).

(** [Math.ceil(n / 4)] for a length [n] *)
Definition ceil_quarter (n : Z) : Z := (n + 3) / 4.

(** What one chunk adds to [tokenCount]. *)
Definition chunk_tokens (chunk : list C) : Z :=
  match chunk with
  | [] => 0
  | _ =>
      if forallb is_space chunk then 1
      else if (Z.of_nat (length chunk) =? 1) && existsb is_punctuation chunk
      then 1
      else if Z.of_nat (length chunk) <=? 4 then 1
      else ceil_quarter (Z.of_nat (length chunk))
  end.

(** [countTokensGPTStyle(text)] *)
Definition countTokensGPTStyle (text : list C) : Z :=
  fold_left (fun tokenCount chunk => tokenCount + chunk_tokens chunk)
    (split text) 0.

(** [countTokensCharBased(text)]: [Math.ceil(text.length / 3.5)] *)
Definition countTokensCharBased (text : list C) : Z :=
  (2 * Z.of_nat (length text) + 6) / 7.
End Counter.

(** The two classes on code units below 256. *)
Definition white_space (c : ascii) : bool :=
  let n := nat_of_ascii c in
  ((9 <=? n) && (n <=? 13) || (n =? 32) || (n =? 160))%nat.

(** The characters of the class, the double quote being the last. *)
Definition punctuation (c : ascii) : bool :=
  Str.occurs c "<>/='`{}()[];:,." || Ascii.eqb c "034"%char.
End TokenCounter.

(** ** Cleaning the data folder (clean-data.js) *)

Module CleanData.
(** The data directory: regular files and directories with named
    entries. A path is the list of the names that lead from the data
    directory to a node; a name stands for the first entry that has
    it. Links and permissions are not modelled. *)
#[local] Unset Elimination Schemes.
Inductive Node : Type :=
  | File
  | Dir (entries : list (string * Node)).
#[local] Set Elimination Schemes.

Definition Path : Type := list string.

Fixpoint lookup_entry (name : string) (entries : list (string * Node))
  : option Node :=
  match entries with
  | [] => None
  | (name', node) :: rest =>
      if String.eqb name' name then Some node else lookup_entry name rest
  end.

Fixpoint lookup (path : Path) (node : Node) : option Node :=
  match path with
  | [] => Some node
  | name :: rest =>
      match node with
      | Dir entries =>
          match lookup_entry name entries with
          | Some child => lookup rest child
          | None => None
          end
      | File => None
      end
  end.

Fixpoint alter_entry (name : string) (f : Node -> Node)
    (entries : list (string * Node)) : list (string * Node) :=
  match entries with
  | [] => []
  | (name', node) :: rest =>
      if String.eqb name' name then (name', f node) :: rest
      else (name', node) :: alter_entry name f rest
  end.

(** The tree in which the node at [path] is replaced by its image. *)
Fixpoint alter (path : Path) (f : Node -> Node) (node : Node) : Node :=
  match path with
  | [] => f node
  | name :: rest =>
      match node with
      | Dir entries => Dir (alter_entry name (alter rest f) entries)
      | File => File
      end
  end.

Fixpoint remove_entry (name : string) (entries : list (string * Node))
  : list (string * Node) :=
  match entries with
  | [] => []
  | (name', node) :: rest =>
      if String.eqb name' name then rest
      else (name', node) :: remove_entry name rest
  end.


(** The tree with [node] at [path]. *)
Definition put (path : Path) (node : Node) : Node -> Node :=
  alter path (fun _ => node).


(** [fs.existsSync(path)] *)
Definition existsSync (path : Path) : Eff Node bool :=
  fun fs =>
    (Returns (match lookup path fs with Some _ => true | None => false end),
     fs).

(** [fs.readdirSync(path)] *)
Definition readdirSync (path : Path) : Eff Node (list string) :=
  fun fs =>
    match lookup path fs with
    | Some (Dir entries) => (Returns (map fst entries), fs)
    | Some File => (Throws "ENOTDIR: not a directory, scandir", fs)
    | None => (Throws "ENOENT: no such file or directory, scandir", fs)
    end.











End CleanData.

(** ** The calls of the highlighter (agent.js, [run]) *)

Module Visual.
(** The calls made through the highlighter. *)
Definition is_visual (c : Agent.Call) : bool :=
  match c with
  | Agent.InjectStyles | Agent.Highlight | Agent.ShowToast => true
  | _ => false
  end.

(** The calls of [tr] come after those of [tr0] and none of them is
    made through the highlighter. *)
Definition plain_since (tr0 tr : list Agent.Call) : Prop :=
  exists added, tr = tr0 ++ added /\ Forall (fun c => is_visual c = false) added.
End Visual.

(** ** Tactics *)

(** Case analysis on the result of every call to the world, and on every
    test, of a computation unfolded in the goal. *)
Ltac eff_cases :=
  repeat (simpl;
    match goal with
    | |- context [let (_, _) := ?m in _] =>
        lazymatch type of m with
        | (Completion _ * Agent.State)%type => fail
        | (Completion _ * _)%type => destruct m as [[?|?] ?] eqn:?
        end
    | |- context [if ?b then _ else _] => destruct b eqn:?
    | |- context [match ?o with Some _ => _ | None => _ end] =>
        destruct o eqn:?
    | |- context [match ?o with Returns _ => _ | Throws _ => _ end] =>
        destruct o eqn:?
    end).

(** The calls appended to a trace, read off the goal. *)
Ltac trace_witness :=
  eexists; split;
  [ rewrite <- ?app_assoc; simpl; reflexivity
  | repeat constructor ].

Ltac plain_witness :=
  eexists; split;
  [ simpl; rewrite <- ?app_assoc; simpl; reflexivity
  | repeat constructor ].

(** * Properties *)

(** ** Reasoning about [Eff] *)

Section EffFacts.
Context {S A B : Type}.

Lemma bind_returns (m : Eff S A) (k : A -> Eff S B) s a s' :
  m s = (Returns a, s') -> bind m k s = k a s'.
Proof. unfold bind. intros ->. reflexivity. Qed.

Lemma bind_throws (m : Eff S A) (k : A -> Eff S B) s e s' :
  m s = (Throws e, s') -> bind m k s = (Throws e, s').
Proof. unfold bind. intros ->. reflexivity. Qed.

(** The two ways a sequence ends. *)
Lemma bind_inv (m : Eff S A) (k : A -> Eff S B) s c s2 :
  bind m k s = (c, s2) ->
  (exists a s1, m s = (Returns a, s1) /\ k a s1 = (c, s2))
  \/ (exists e, m s = (Throws e, s2) /\ c = Throws e).
Proof.
  unfold bind. destruct (m s) as [[a|e] s1]; intros H.
  - left. eauto.
  - right. inversion H; subst. eauto.
Qed.

End EffFacts.

(** ** The registry *)

Section RegistryFacts.
Context {World : Type}.
Implicit Types (reg : ActionRegistry.t World) (cls : ActionClass.t World).






Lemma get_getTypes reg k :
  k ∈ ActionRegistry.getTypes reg <-> is_Some (ActionRegistry.get reg k).
Proof.
  unfold ActionRegistry.getTypes, ActionRegistry.get.
  induction reg as [|[k0 v0] reg IH]; simpl.
  - split; [intros H; inversion H | intros [? [=]]].
  - rewrite elem_of_cons, IH.
    destruct (String.eqb_spec k0 k) as [->|Hne].
    + split; [eauto | auto].
    + split; [intros [?|?]; [congruence | done] | auto].
Qed.


End RegistryFacts.

(** ** The executor *)

Section ExecutorFacts.
Context {World : Type}.

(** The executor returns an outcome whatever the handler does. *)
Lemma execute_returns (reg : ActionRegistry.t World) page em a w :
  exists o w', ActionExecutor.execute reg page em a w = (Returns o, w').
Proof.
  unfold ActionExecutor.execute.
  destruct (ActionRegistry.get reg (action_type a)) as [cls|].
  - unfold try_catch, ret.
    destruct (ActionClass.execute cls page em a w) as [[o|e] w']; eauto.
  - unfold ret. eauto.
Qed.
End ExecutorFacts.

(** ** The step loop *)

Section AgentFacts.
Context {World : Type}.
Variable env : @Agent.Env World.
Implicit Types (s : @Agent.State World).

(** What [decide] leaves behind, however it ends. *)
Lemma decide_spec goal s c s' :
  Agent.decide env goal s = (c, s') ->
  Agent.options s' = Agent.options s
  /\ Agent.registry s' = Agent.registry s
  /\ Agent.actionLog s' = Agent.actionLog s
  /\ Agent.currentStep s' = Agent.currentStep s + 1
  /\ exists tr,
       Agent.trace s' = Agent.trace s ++ Agent.GetPageState :: tr
       /\ Forall (fun c => Agent.is_background c = true) tr.
Proof.
  unfold Agent.decide, bind, modify, get_state, Agent.call,
    Agent.lift_pure, ret, Agent.print_action, Agent.highlight, throw,
    bind, Agent.call.
  eff_cases.
  all: intros [= <- <-]; simpl; repeat split; try reflexivity.
  all: trace_witness.
Qed.

(** What [act] leaves behind: the action has been executed and logged,
    and only the kind of the action decides whether the loop is left. *)
Lemma act_spec ps a s c s' :
  Agent.act env ps a s = (c, s') ->
  Agent.options s' = Agent.options s
  /\ Agent.registry s' = Agent.registry s
  /\ Agent.currentStep s' = Agent.currentStep s
  /\ exists o tr,
       Agent.executed_by env (Agent.registry s) a o
       /\ Agent.actionLog s'
          = Agent.actionLog s
              ++ [LogEntry.executed (Agent.currentStep s) a o]
       /\ Agent.trace s'
          = Agent.trace s ++ Agent.Execute (action_type a) :: tr
       /\ Forall (fun c => Agent.is_background c = true) tr
       /\ if ActionRegistry.isTerminal (Agent.registry s) (action_type a)
          then c = Returns true /\ tr = []
          else c = Returns false \/ exists e, c = Throws e.
Proof.
  unfold Agent.act, bind, modify, get_state, Agent.call, ret, Agent.pause,
    Agent.call.
  destruct (execute_returns (Agent.registry s) (Agent.page env)
              (Agent.ps_elementMap ps) a (Agent.world s)) as (o & w' & He).
  rewrite He. simpl.
  destruct (ActionRegistry.isTerminal (Agent.registry s) (action_type a))
    eqn:Hterm; simpl.
  - intros [= <- <-]; simpl. repeat split.
    exists o, []. repeat split; try constructor.
    red; eauto.
  - eff_cases.
    all: intros [= <- <-]; simpl; repeat split.
    all: exists o; eexists; split; [red; eauto|].
    all: split; [reflexivity|].
    all: split; [rewrite <- ?app_assoc; simpl; reflexivity|].
    all: split; [repeat constructor | eauto].
Qed.

(** One iteration of the loop: either the deciding half throws and
    nothing is logged, or an action is executed and logged. *)
Lemma iteration_spec goal s c s' :
  Agent.iteration env goal s = (c, s') ->
  Agent.options s' = Agent.options s
  /\ Agent.registry s' = Agent.registry s
  /\ Agent.currentStep s' = Agent.currentStep s + 1
  /\ exists tr,
       Agent.trace s' = Agent.trace s ++ Agent.GetPageState :: tr
       /\ ((exists e, c = Throws e
                      /\ Agent.actionLog s' = Agent.actionLog s
                      /\ Forall (fun c => Agent.is_background c = true) tr)
           \/ (exists a o tr1 tr2,
                 Agent.executed_by env (Agent.registry s) a o
                 /\ Agent.actionLog s'
                    = Agent.actionLog s
                        ++ [LogEntry.executed (Agent.currentStep s + 1) a o]
                 /\ tr = tr1 ++ Agent.Execute (action_type a) :: tr2
                 /\ Forall (fun c => Agent.is_background c = true) tr1
                 /\ Forall (fun c => Agent.is_background c = true) tr2
                 /\ if ActionRegistry.isTerminal (Agent.registry s)
                         (action_type a)
                    then c = Returns true /\ tr2 = []
                    else c = Returns false \/ exists e, c = Throws e)).
Proof.
  unfold Agent.iteration. intros H.
  apply bind_inv in H as [(d & s1 & Hd & Ha) | (e & Hd & ->)].
  - apply decide_spec in Hd as (Ho & Hr & Hl & Hc & tr1 & Ht & Hb).
    apply act_spec in Ha as (Ho' & Hr' & Hc' & o & tr2 & Hex & Hl' & Ht' & Hb' & Hk).
    rewrite Ho', Hr', Hc', Ho, Hr, Hc. repeat split.
    exists (tr1 ++ Agent.Execute (action_type d.2) :: tr2). split.
    + rewrite Ht', Ht, <- app_assoc. reflexivity.
    + right. exists d.2, o, tr1, tr2.
      rewrite Hr in Hex, Hk. rewrite Hl', Hl, Hc. auto 10.
  - apply decide_spec in Hd as (Ho & Hr & Hl & Hc & tr & Ht & Hb).
    repeat split; try assumption.
    exists tr. split; [assumption|]. left. eauto.
Qed.

Lemma background_quiet (reg : ActionRegistry.t World) tr :
  Forall (fun c => Agent.is_background c = true) tr -> Agent.quiet reg tr.
Proof.
  unfold Agent.quiet. intros H. eapply Forall_impl; [exact H|].
  intros [] Hc; simpl in *; congruence.
Qed.

Lemma background_observations tr :
  Forall (fun c => Agent.is_background c = true) tr ->
  Agent.observations tr = 0%nat.
Proof.
  unfold Agent.observations. induction 1 as [|c tr Hc _ IH]; simpl.
  - reflexivity.
  - destruct c; simpl in *; try congruence; exact IH.
Qed.

Lemma observations_app tr1 tr2 :
  Agent.observations (tr1 ++ tr2)
  = (Agent.observations tr1 + Agent.observations tr2)%nat.
Proof.
  unfold Agent.observations. rewrite List.filter_app, length_app.
  reflexivity.
Qed.

(** The loop, however it is left: the log and the trace grow, one
    executed entry per iteration, and an action of a terminal kind is
    executed only as the very last call, when the loop is left by
    [break]. *)
Lemma loop_spec goal fuel : forall s c s',
  Agent.loop env goal fuel s = (c, s') ->
  Agent.options s' = Agent.options s
  /\ Agent.registry s' = Agent.registry s
  /\ exists entries tr,
       Agent.actionLog s' = Agent.actionLog s ++ entries
       /\ Agent.trace s' = Agent.trace s ++ tr
       /\ Forall (Agent.logged_by env (Agent.registry s)) entries
       /\ (forall i e, entries !! i = Some e ->
                       LogEntry.step e
                       = Agent.currentStep s + 1 + Z.of_nat i)
       /\ match c with
          | Returns Agent.ExitCondition =>
              Agent.currentStep s'
              = Z.max (Agent.currentStep s) (Agent.maxSteps (Agent.options s))
              /\ Agent.currentStep s'
                 = Agent.currentStep s + Z.of_nat (length entries)
              /\ Agent.observations tr = length entries
              /\ Forall (fun e => ActionRegistry.isTerminal
                                    (Agent.registry s) (LogEntry.kind e)
                                  = false) entries
              /\ Agent.quiet (Agent.registry s) tr
          | Returns Agent.ExitBreak =>
              exists pre e tr0,
                entries = pre ++ [e]
                /\ ActionRegistry.isTerminal (Agent.registry s)
                     (LogEntry.kind e) = true
                /\ tr = tr0 ++ [Agent.Execute (LogEntry.kind e)]
                /\ Agent.quiet (Agent.registry s) tr0
          | Returns Agent.ExitFuel =>
              Agent.currentStep s' < Agent.maxSteps (Agent.options s)
              /\ Agent.currentStep s'
                 = Agent.currentStep s + Z.of_nat fuel
          | Throws _ => Agent.quiet (Agent.registry s) tr
          end.
Proof.
  induction fuel as [|fuel IH]; intros s c s'; simpl.
  - destruct (Z.ltb_spec (Agent.currentStep s)
                (Agent.maxSteps (Agent.options s)));
      intros [= <- <-]; repeat split;
      exists [], []; rewrite !app_nil_r; repeat split;
      try constructor; try (intros i e; rewrite lookup_nil; discriminate);
      try (simpl; lia).
  - destruct (Z.ltb_spec (Agent.currentStep s)
                (Agent.maxSteps (Agent.options s))) as [Hlt|Hge].
    2: { intros [= <- <-]; repeat split.
         exists [], []; rewrite !app_nil_r; repeat split;
         try constructor; try (intros i e; rewrite lookup_nil; discriminate);
         try (simpl; lia). }
    intros H.
    apply bind_inv in H as [(b & s1 & Hi & Hk) | (e & Hi & ->)].
    + apply iteration_spec in Hi
        as (Ho & Hr & Hc & tr & Ht & [(e & [=] & _)
              | (a & o & tr1 & tr2 & Hex & Hl & -> & Hb1 & Hb2 & Hterm)]).
      pose (entry := LogEntry.executed (Agent.currentStep s + 1) a o).
      assert (Hentry : Agent.logged_by env (Agent.registry s) entry)
        by (exists a, o; split; [reflexivity | assumption]).
      destruct (ActionRegistry.isTerminal (Agent.registry s) (action_type a))
        eqn:Hkind.
      * destruct Hterm as [[= ->] ->]. unfold ret in Hk.
        injection Hk as <- <-. repeat split; try assumption.
        exists [entry], (Agent.GetPageState :: tr1 ++ [Agent.Execute (action_type a)]).
        repeat split; try assumption.
        -- repeat constructor. assumption.
        -- intros [|i] e; simpl; [intros [= <-]; simpl; lia
                                 | rewrite lookup_nil; discriminate].
        -- exists [], entry, (Agent.GetPageState :: tr1).
           repeat split; try assumption.
           constructor; [reflexivity | by apply background_quiet].
      * destruct Hterm as [[= ->] | (e & [=])].
        apply IH in Hk as (Ho' & Hr' & entries & tr' & Hl' & Ht' & Hlog
                           & Hsteps & Hc').
        rewrite Ho', Hr', Ho, Hr. repeat split.
        exists (entry :: entries),
          ((Agent.GetPageState :: tr1 ++ Agent.Execute (action_type a) :: tr2)
             ++ tr').
        rewrite Hr in Hlog, Hc'. rewrite Ho, Hc in Hc'.
        assert (Hq : Agent.quiet (Agent.registry s)
                       (Agent.GetPageState
                          :: tr1 ++ Agent.Execute (action_type a) :: tr2)).
        { constructor; [reflexivity|]. apply Forall_app. split.
          - by apply background_quiet.
          - constructor; [exact Hkind | by apply background_quiet]. }
        assert (Hobs : Agent.observations
                         (Agent.GetPageState
                            :: tr1 ++ Agent.Execute (action_type a) :: tr2)
                       = 1%nat).
        { change (Agent.GetPageState :: tr1 ++ ?l)
            with ([Agent.GetPageState] ++ tr1 ++ l).
          rewrite !observations_app,
            (background_observations tr1 Hb1).
          change (Agent.Execute (action_type a) :: tr2)
            with ([Agent.Execute (action_type a)] ++ tr2).
          rewrite observations_app, (background_observations tr2 Hb2).
          reflexivity. }
        repeat split.
        -- rewrite Hl', Hl, <- app_assoc. reflexivity.
        -- rewrite Ht', Ht, <- app_assoc. reflexivity.
        -- constructor; assumption.
        -- intros [|i] e; simpl; [intros [= <-]; simpl; lia|].
           intros Hi. apply Hsteps in Hi. rewrite Hi, Hc. lia.
        -- destruct c as [[| |]|e].
           ++ destruct Hc' as (pre & e & tr0 & -> & Hte & -> & Hq0).
              exists (entry :: pre), e,
                ((Agent.GetPageState
                    :: tr1 ++ Agent.Execute (action_type a) :: tr2) ++ tr0).
              repeat split; try assumption.
              ** rewrite <- app_assoc. reflexivity.
              ** apply Forall_app. split; assumption.
           ++ destruct Hc' as (Hmax & Hcur & Hobs' & Hnt & Hq').
              repeat split.
              ** rewrite Hmax. lia.
              ** rewrite Hcur. simpl length. lia.
              ** rewrite observations_app, Hobs, Hobs'. reflexivity.
              ** constructor; [exact Hkind | assumption].
              ** apply Forall_app. split; assumption.
           ++ destruct Hc' as (Hlt' & Hcur). split; [assumption | lia].
           ++ apply Forall_app. split; assumption.
    + apply iteration_spec in Hi
        as (Ho & Hr & Hc & tr & Ht & [(e' & _ & Hl & Hb)
              | (a & o & tr1 & tr2 & Hex & Hl & -> & Hb1 & Hb2 & Hterm)]).
      * repeat split; try assumption.
        exists [], (Agent.GetPageState :: tr). rewrite app_nil_r.
        split; [assumption|]. split; [assumption|].
        split; [constructor|].
        split; [intros i e0; rewrite lookup_nil; discriminate|].
        constructor; [reflexivity | by apply background_quiet].
      * pose (entry := LogEntry.executed (Agent.currentStep s + 1) a o).
        destruct (ActionRegistry.isTerminal (Agent.registry s)
                    (action_type a)) eqn:Hkind.
        { destruct Hterm as [[=] _]. }
        repeat split; try assumption.
        exists [entry],
          (Agent.GetPageState :: tr1 ++ Agent.Execute (action_type a) :: tr2).
        split; [assumption|]. split; [assumption|].
        split.
        { repeat constructor. exists a, o. split; [reflexivity|assumption]. }
        split.
        { intros [|i] e0; simpl; [intros [= <-]; simpl; lia
                                 | rewrite lookup_nil; discriminate]. }
        constructor; [reflexivity|]. apply Forall_app. split.
        -- by apply background_quiet.
        -- constructor; [exact Hkind | by apply background_quiet].
Qed.

(** The fuel given by [run_loop] is enough: the loop is left by
    [break], by its condition or by an exception. *)
Lemma run_loop_finishes goal s s' :
  Agent.run_loop env goal s <> (Returns Agent.ExitFuel, s').
Proof.
  unfold Agent.run_loop. intros H.
  apply loop_spec in H as (_ & _ & _ & _ & _ & _ & _ & _ & Hlt & Hcur).
  lia.
Qed.

(** What the part of the [try] block before the loop leaves behind. *)
Lemma setup_spec url goal s c s' :
  Agent.setup env url goal s = (c, s') ->
  Agent.options s' = Agent.options s
  /\ Agent.registry s' = Agent.session_registry env s
  /\ Agent.actionLog s' = Agent.actionLog s
  /\ Agent.currentStep s' = Agent.currentStep s
  /\ (c = Returns tt -> Agent.browser s' = true)
  /\ exists tr,
       Agent.trace s' = Agent.trace s ++ tr
       /\ Forall (fun c => Agent.is_setup c = true) tr.
Proof.
  unfold Agent.setup, Agent.session_registry, Agent.initialize, bind,
    modify, get_state, Agent.call, ret.
  eff_cases.
  all: intros [= <- <-]; simpl; repeat split; try reflexivity;
    try discriminate.
  all: trace_witness.
Qed.

(** The [try] block, however it ends. *)
Lemma try_block_spec url goal s c s' :
  Agent.try_block env url goal s = (c, s') ->
  Agent.options s' = Agent.options s
  /\ Agent.registry s' = Agent.session_registry env s
  /\ exists entries tr_setup tr_loop,
       Agent.actionLog s' = Agent.actionLog s ++ entries
       /\ Agent.trace s' = Agent.trace s ++ tr_setup ++ tr_loop
       /\ Forall (fun c => Agent.is_setup c = true) tr_setup
       /\ Forall (Agent.logged_by env (Agent.session_registry env s))
            entries
       /\ (forall i e, entries !! i = Some e ->
                       LogEntry.step e
                       = Agent.currentStep s + 1 + Z.of_nat i)
       /\ Agent.exit_facts (Agent.session_registry env s)
            (Agent.currentStep s) (Agent.maxSteps (Agent.options s))
            c (Agent.currentStep s') entries tr_loop.
Proof.
  unfold Agent.try_block. intros H.
  apply bind_inv in H as [([] & s1 & Hs & Hl) | (e & Hs & ->)].
  - apply setup_spec in Hs as (Ho & Hr & Hlog & Hc & _ & tr1 & Ht & Hsetup).
    destruct c as [[| |]|e];
      try (exfalso; exact (run_loop_finishes _ _ _ Hl)).
    all: unfold Agent.run_loop in Hl;
      apply loop_spec in Hl
        as (Ho' & Hr' & entries & tr2 & Hlog' & Ht' & Hby & Hsteps & Hexit).
    all: rewrite Ho', Hr', Ho, Hr; split; [reflexivity|];
      split; [reflexivity|].
    all: exists entries, tr1, tr2.
    all: rewrite Hr in Hby, Hexit; rewrite ?Ho, ?Hc in Hexit;
      rewrite Hc in Hsteps.
    all: rewrite Hlog', Hlog, Ht', Ht, <- app_assoc.
    all: repeat (split; [first [reflexivity | assumption]|]).
    all: exact Hexit.
  - apply setup_spec in Hs as (Ho & Hr & Hlog & Hc & _ & tr1 & Ht & Hsetup).
    split; [assumption|]. split; [assumption|].
    exists [], tr1, []. rewrite !app_nil_r.
    repeat (split; [first [assumption | constructor]|]).
    split; [intros i e0; rewrite lookup_nil; discriminate|].
    constructor.
Qed.

(** The [try]/[catch] statement always completes normally. *)
Lemma guarded_spec url goal s :
  let out := Agent.try_block env url goal s in
  Agent.guarded env url goal s
  = (Returns tt,
     match out.1 with
     | Returns _ => out.2
     | Throws e =>
         Agent.push_log
           (LogEntry.caught (Agent.currentStep out.2) e) out.2
     end).
Proof.
  unfold Agent.guarded, try_catch, bind, ret, Agent.catch_block,
    get_state, modify.
  destruct (Agent.try_block env url goal s) as [[x|e] s1]; reflexivity.
Qed.

Lemma output_path_not_log_path s s0 ext :
  Agent.output_path s ext <> Agent.log_path s0.
Proof. unfold Agent.output_path, Agent.log_path. simpl. discriminate. Qed.

(** [saveResults] always returns, having written the session record. *)
Lemma saveResults_spec s :
  exists r s',
    Agent.saveResults env s = (Returns r, s')
    /\ Agent.with_outputFiles [] r = Agent.results_of env s
    /\ Agent.disk s' !! Agent.log_path s
       = Some (Agent.LogFile (Agent.results_of env s))
    /\ Agent.options s' = Agent.options s
    /\ Agent.registry s' = Agent.registry s
    /\ Agent.actionLog s' = Agent.actionLog s
    /\ Agent.currentStep s' = Agent.currentStep s
    /\ exists tr,
         Agent.trace s' = Agent.trace s ++ Agent.WriteFile (Agent.log_path s) :: tr
         /\ Forall (fun c => Agent.is_cleanup c = true) tr.
Proof.
  unfold Agent.saveResults, bind, get_state, modify, ret,
    Agent.saveExtractedData.
  destruct (truthy (Agent.extractedData s)) eqn:Hd; simpl.
  - destruct (String.eqb (Agent.chosen_format (Agent.write_file _ _ s))
                "markdown"
              || String.eqb (Agent.chosen_format (Agent.write_file _ _ s))
                   "md").
    all: eexists _, _; split; [reflexivity|]; simpl.
    all: split; [reflexivity|].
    all: split;
      [rewrite lookup_insert_ne by apply output_path_not_log_path;
       apply lookup_insert_eq|].
    all: repeat (split; [reflexivity|]).
    all: trace_witness.
  - eexists _, _; split; [reflexivity|]; simpl.
    split; [reflexivity|].
    split; [apply lookup_insert_eq|].
    repeat (split; [reflexivity|]).
    trace_witness.
Qed.

(** The session identifier is never assigned after construction. *)
Lemma loop_sessionId goal fuel : forall s,
  Agent.sessionId (Agent.loop env goal fuel s).2 = Agent.sessionId s.
Proof.
  assert (Hiter : forall s,
             Agent.sessionId (Agent.iteration env goal s).2
             = Agent.sessionId s).
  { intros s.
    unfold Agent.iteration, Agent.decide, Agent.act, bind, modify,
      get_state, Agent.call, Agent.lift_pure, ret, Agent.print_action,
      Agent.highlight, Agent.pause, throw, bind, Agent.call.
    eff_cases; reflexivity. }
  induction fuel as [|fuel IH]; intros s; simpl.
  - destruct (_ <? _); reflexivity.
  - destruct (_ <? _); [|reflexivity].
    unfold bind. specialize (Hiter s).
    destruct (Agent.iteration env goal s) as [[[]|e] s1]; simpl in *;
      try assumption.
    rewrite IH. assumption.
Qed.

Lemma try_block_sessionId url goal s :
  Agent.sessionId (Agent.try_block env url goal s).2 = Agent.sessionId s.
Proof.
  assert (Hsetup : Agent.sessionId (Agent.setup env url goal s).2
                   = Agent.sessionId s).
  { unfold Agent.setup, Agent.initialize, bind, modify, get_state,
      Agent.call, ret.
    eff_cases; reflexivity. }
  unfold Agent.try_block, bind.
  destruct (Agent.setup env url goal s) as [[[]|e] s1]; simpl in *;
    [|assumption].
  unfold Agent.run_loop. rewrite loop_sessionId. assumption.
Qed.

Lemma call_inv {A} (c : Agent.Call) (op : Eff World A) s r s' :
  Agent.call c op s = (r, s') ->
  exists w', op (Agent.world s) = (r, w')
             /\ s' = Agent.set_world w' (Agent.add_call c s).
Proof.
  unfold Agent.call. destruct (op (Agent.world s)) as [r0 w'].
  intros [= <- <-]. eauto.
Qed.

(** [run] as a whole. After the [try]/[catch] statement the browser is
    closed if one is held; when that call throws, [run] throws; when
    not, the record is saved and returned. *)
Lemma run_cases url goal s c s' :
  Agent.run env url goal s = (c, s') ->
  let out := Agent.try_block env url goal s in
  let log := Agent.log_at_exit out.1 out.2 in
  Agent.registry s' = Agent.registry out.2
  /\ (exists cleanup,
        Agent.trace s' = Agent.trace out.2 ++ cleanup
        /\ Forall (fun c => Agent.is_cleanup c = true) cleanup)
  /\ match c with
     | Throws e =>
         Agent.browser out.2 = true
         /\ exists w w', Agent.browser_close env w = (Throws e, w')
     | Returns r =>
         Agent.r_actionLog r = log
         /\ Agent.r_totalSteps r = Agent.currentStep out.2
         /\ Agent.r_status r
            = Agent.status_of log (Agent.currentStep out.2)
                (Agent.maxSteps (Agent.options out.2))
         /\ (exists saved,
               Agent.disk s' !! Agent.log_path s
               = Some (Agent.LogFile saved)
               /\ saved = Agent.with_outputFiles [] r
               /\ Agent.r_sessionId saved = Agent.sessionId s)
         /\ exists tr,
              Agent.trace s'
              = Agent.trace out.2
                  ++ (if Agent.browser out.2 then [Agent.CloseBrowser]
                      else [])
                  ++ Agent.WriteFile (Agent.log_path s) :: tr
              /\ Forall (fun c => Agent.is_cleanup c = true) tr
     end.
Proof.
  intros Hrun out log.
  pose proof (guarded_spec url goal s) as Hg. cbv zeta in Hg.
  pose proof (try_block_sessionId url goal s) as Hid.
  fold out in Hg, Hid.
  set (s1 := match out.1 with
             | Returns _ => out.2
             | Throws e =>
                 Agent.push_log
                   (LogEntry.caught (Agent.currentStep out.2) e) out.2
             end) in Hg.
  assert (Hlog : Agent.actionLog s1 = log)
    by (unfold s1, log, Agent.log_at_exit; destruct out.1; reflexivity).
  assert (Hs1 : Agent.sessionId s1 = Agent.sessionId s
                /\ Agent.trace s1 = Agent.trace out.2
                /\ Agent.browser s1 = Agent.browser out.2
                /\ Agent.currentStep s1 = Agent.currentStep out.2
                /\ Agent.options s1 = Agent.options out.2
                /\ Agent.registry s1 = Agent.registry out.2)
    by (unfold s1; destruct out.1; simpl; auto 10).
  destruct Hs1 as (Hid1 & Htr1 & Hbr1 & Hcur1 & Hopt1 & Hreg1).
  unfold Agent.run, bind, try_finally in Hrun. rewrite Hg in Hrun.
  destruct (Agent.close env s1) as [[[]|e] s2] eqn:Hc.
  - assert (Hs2 : Agent.sessionId s2 = Agent.sessionId s
                  /\ Agent.actionLog s2 = log
                  /\ Agent.currentStep s2 = Agent.currentStep out.2
                  /\ Agent.options s2 = Agent.options out.2
                  /\ Agent.registry s2 = Agent.registry out.2
                  /\ Agent.trace s2
                     = Agent.trace out.2
                         ++ (if Agent.browser out.2
                             then [Agent.CloseBrowser] else [])).
    { unfold Agent.close in Hc. rewrite Hbr1 in Hc.
      destruct (Agent.browser out.2).
      - apply call_inv in Hc as (w' & _ & ->). simpl.
        rewrite Htr1. auto 10.
      - injection Hc as <-. rewrite app_nil_r. auto 10. }
    destruct Hs2 as (Hid2 & Hlog2 & Hcur2 & Hopt2 & Hreg2 & Htr2).
    destruct (saveResults_spec s2)
      as (r & s3 & Hsave & Hr & Hdisk & _ & Hreg3 & _ & _ & tr & Htr3
          & Hcl).
    rewrite Hsave in Hrun. injection Hrun as <- <-.
    assert (Hpath : Agent.log_path s2 = Agent.log_path s)
      by (unfold Agent.log_path; rewrite Hid2; reflexivity).
    rewrite Hpath in Hdisk, Htr3.
    split; [rewrite Hreg3; exact Hreg2|].
    split.
    { eexists. split; [rewrite Htr3, Htr2, <- app_assoc; reflexivity|].
      apply Forall_app. split.
      - destruct (Agent.browser out.2); repeat constructor.
      - constructor; [reflexivity | exact Hcl]. }
    split.
    { transitivity (Agent.r_actionLog (Agent.with_outputFiles [] r));
        [reflexivity|]. rewrite Hr. exact Hlog2. }
    split.
    { transitivity (Agent.r_totalSteps (Agent.with_outputFiles [] r));
        [reflexivity|]. rewrite Hr. exact Hcur2. }
    split.
    { transitivity (Agent.r_status (Agent.with_outputFiles [] r));
        [reflexivity|]. rewrite Hr. simpl. unfold Agent.getStatus.
      rewrite Hlog2, Hcur2, Hopt2. reflexivity. }
    split.
    { exists (Agent.results_of env s2). split; [exact Hdisk|].
      split; [symmetry; exact Hr | exact Hid2]. }
    exists tr. split; [|exact Hcl].
    rewrite Htr3, Htr2, <- app_assoc. reflexivity.
  - injection Hrun as <- <-.
    unfold Agent.close in Hc. rewrite Hbr1 in Hc.
    destruct (Agent.browser out.2); [|discriminate].
    apply call_inv in Hc as (w' & Hw & ->). simpl.
    split; [exact Hreg1|].
    split; [exists [Agent.CloseBrowser]; rewrite Htr1; split;
            [reflexivity | repeat constructor]|].
    split; [reflexivity | eauto].
Qed.


(** *** Progress in a cooperative environment *)

Section Cooperative.
Variable P : Action -> Prop.
Hypothesis Hcoop : Agent.cooperative env P.

Lemma decide_cooperative goal s :
  (forall a, P a ->
             Agent.useTUI (Agent.options s) = true
             \/ is_Some (reasoning a)) ->
  exists ps a s', Agent.decide env goal s = (Returns (ps, a), s') /\ P a.
Proof.
  intros Hprint.
  destruct Hcoop
    as (_ & _ & _ & _ & _ & _ & _ & _ & Hobs & Hhl & Htoast & Hdec).
  unfold Agent.decide, bind, modify, get_state, Agent.call,
    Agent.lift_pure, ret. simpl.
  destruct (Hobs (Agent.world s)) as (ps & w1 & ->). simpl.
  match goal with
  | |- context [Agent.generateAction env ?ctx w1] =>
      destruct (Hdec ctx w1) as (raw & w2 & a & -> & Hparse & HP)
  end.
  simpl in Hparse. simpl. rewrite Hparse. simpl.
  assert (Hpr : forall s0,
             Agent.print_action
               (Agent.set_world w1
                  (Agent.add_call Agent.GetPageState
                     (Agent.increment_step s))) a s0
             = (Returns tt, s0)).
  { intros s0. unfold Agent.print_action. simpl.
    destruct (Hprint a HP) as [-> | [r ->]]; [reflexivity|].
    destruct (Agent.useTUI (Agent.options s)); reflexivity. }
  rewrite Hpr.
  unfold Agent.highlight. simpl.
  destruct (Agent.highlighter s && truthy_str (element_id a)).
  - unfold bind, Agent.call. simpl.
    match goal with
    | |- context [Agent.highlightAction env ?i ?k w2] =>
        destruct (Hhl i k w2) as ([] & w3 & ->)
    end.
    simpl.
    match goal with
    | |- context [Agent.showToast env ?k ?i w3] =>
        destruct (Htoast k i w3) as ([] & w4 & ->)
    end.
    simpl. eauto.
  - unfold ret. eauto.
Qed.

Lemma act_cooperative ps a s :
  exists b s', Agent.act env ps a s = (Returns b, s').
Proof.
  destruct Hcoop as (_ & _ & _ & _ & _ & _ & Hwait & _).
  unfold Agent.act, bind, modify, get_state, Agent.call, ret.
  destruct (execute_returns (Agent.registry s) (Agent.page env)
              (Agent.ps_elementMap ps) a (Agent.world s))
    as (o & w' & ->).
  simpl.
  destruct (ActionRegistry.isTerminal _ _); [eauto|].
  unfold Agent.pause. simpl.
  destruct (0 <? _); [|unfold ret; eauto].
  unfold Agent.call. simpl.
  match goal with
  | |- context [Page.waitForTimeout (Agent.page env) ?ms ?w] =>
      destruct (Hwait ms w) as ([] & w3 & ->)
  end.
  eauto.
Qed.

(** With a cooperative environment the loop never throws, whatever
    the handlers do, and every action it logs satisfies [P]. *)
Lemma loop_cooperative goal fuel : forall s,
  (forall a, P a ->
             Agent.useTUI (Agent.options s) = true
             \/ is_Some (reasoning a)) ->
  exists exit s' entries,
    Agent.loop env goal fuel s = (Returns exit, s')
    /\ Agent.actionLog s' = Agent.actionLog s ++ entries
    /\ Forall (fun e => P (LogEntry.action e)) entries.
Proof.
  induction fuel as [|fuel IH]; intros s Hprint; simpl.
  - destruct (_ <? _); eexists _, _, []; rewrite app_nil_r;
      repeat split; constructor.
  - destruct (_ <? _).
    2: { eexists _, _, []; rewrite app_nil_r; repeat split; constructor. }
    unfold bind at 1. unfold Agent.iteration, bind.
    destruct (decide_cooperative goal s Hprint)
      as (ps & a & s1 & Hd & HP).
    rewrite Hd. simpl.
    destruct (act_cooperative ps a s1) as (b & s2 & Ha).
    rewrite Ha.
    apply decide_spec in Hd as (Ho1 & _ & Hl1 & _).
    apply act_spec in Ha as (Ho2 & _ & _ & o & tr & _ & Hl2 & _).
    destruct b.
    + eexists _, _, [_]. split; [reflexivity|].
      split; [rewrite Hl2, Hl1; reflexivity|].
      repeat constructor. exact HP.
    + destruct (IH s2) as (exit & s' & entries & Hloop & Hl3 & HPs).
      { rewrite Ho2, Ho1. exact Hprint. }
      eexists exit, s', (_ :: entries). split; [exact Hloop|].
      split; [rewrite Hl3, Hl2, Hl1, <- app_assoc; reflexivity|].
      constructor; [exact HP | exact HPs].
Qed.

Lemma setup_cooperative url goal s :
  exists s', Agent.setup env url goal s = (Returns tt, s').
Proof.
  destruct Hcoop
    as (Hadapter & Hlaunch & Hopen & _ & Hcookies & Hgoto & Hwait
        & Hstyles & _).
  unfold Agent.setup, Agent.initialize, bind, modify, get_state,
    Agent.call, ret. simpl.
  destruct (Hadapter (Agent.world s)) as ([] & w1 & ->). simpl.
  destruct (Hlaunch w1) as ([] & w2 & ->). simpl.
  destruct (Hopen w2) as ([] & w3 & ->). simpl.
  destruct (Hcookies goal url w3) as ([] & w4 & ->). simpl.
  destruct (Hgoto url w4) as ([] & w5 & ->). simpl.
  destruct (Hwait 2000 w5) as ([] & w6 & ->). simpl.
  destruct (negb (Agent.headless (Agent.options s))); simpl; [|eauto].
  destruct (Hstyles w6) as ([] & w7 & ->). eauto.
Qed.

Lemma try_block_cooperative url goal s :
  (forall a, P a ->
             Agent.useTUI (Agent.options s) = true
             \/ is_Some (reasoning a)) ->
  exists exit s' entries,
    Agent.try_block env url goal s = (Returns exit, s')
    /\ Agent.actionLog s' = Agent.actionLog s ++ entries
    /\ Forall (fun e => P (LogEntry.action e)) entries.
Proof.
  intros Hprint.
  destruct (setup_cooperative url goal s) as (s1 & Hs).
  unfold Agent.try_block, bind. rewrite Hs.
  apply setup_spec in Hs as (Ho & _ & Hl & _).
  unfold Agent.run_loop.
  destruct (loop_cooperative goal
              (Z.to_nat (Agent.maxSteps (Agent.options s1)
                         - Agent.currentStep s1)) s1)
    as (exit & s' & entries & Hloop & Hl' & HPs).
  { rewrite Ho. exact Hprint. }
  exists exit, s', entries. rewrite Hloop, Hl', Hl. auto.
Qed.
End Cooperative.







(** At the step limit the status is one of the five documented ones. *)
Lemma status_of_at_limit log step limit :
  limit <= step ->
  Agent.status_of log step limit
  ∈ ["completed"; "terminated"; "error"; "max_steps_reached";
     "no_actions"].
Proof.
  intros Hle. unfold Agent.status_of.
  destruct (last log) as [e|]; [|set_solver].
  repeat (destruct (String.eqb _ _); [set_solver|]).
  destruct (Z.leb_spec limit step); [set_solver | lia].
Qed.

Lemma status_of_snoc log e step limit :
  Agent.status_of (log ++ [e]) step limit
  = if String.eqb (LogEntry.kind e) "complete" then "completed"
    else if String.eqb (LogEntry.kind e) "terminate" then "terminated"
    else if String.eqb (LogEntry.kind e) "error" then "error"
    else if limit <=? step then "max_steps_reached"
    else "unknown".
Proof. unfold Agent.status_of. rewrite last_snoc. reflexivity. Qed.

(** C6, as amended. The status is a function of the kind of the last
    log entry and of the step counter, decided in this order:
    no_actions exactly for an empty log; otherwise completed,
    terminated or error exactly when the last entry has the kind
    complete, terminate or error; otherwise max_steps_reached exactly
    when the step counter has reached the limit, and a sixth value,
    unknown, when it has not. The record that [run] saves has one of
    the five documented values whenever complete and terminate are the
    only terminal kinds of the registry. *)
Theorem status_is_derived :
  (forall log step limit,
      let status := Agent.status_of log step limit in
      let other e :=
        LogEntry.kind e <> "complete" /\ LogEntry.kind e <> "terminate"
        /\ LogEntry.kind e <> "error" in
      (status = "no_actions" <-> log = [])
      /\ (status = "completed"
          <-> exists e, last log = Some e /\ LogEntry.kind e = "complete")
      /\ (status = "terminated"
          <-> exists e, last log = Some e /\ LogEntry.kind e = "terminate")
      /\ (status = "error"
          <-> exists e, last log = Some e /\ LogEntry.kind e = "error")
      /\ (status = "max_steps_reached"
          <-> exists e, last log = Some e /\ other e /\ limit <= step)
      /\ (status = "unknown"
          <-> exists e, last log = Some e /\ other e /\ step < limit))
  /\ (forall s, Agent.getStatus s
                = Agent.status_of (Agent.actionLog s) (Agent.currentStep s)
                    (Agent.maxSteps (Agent.options s)))
  /\ (forall url goal s r s',
        Agent.run env url goal s = (Returns r, s') ->
        (forall k,
            ActionRegistry.isTerminal (Agent.session_registry env s) k
            = true ->
            k = "complete" \/ k = "terminate") ->
        Agent.r_status r
        = Agent.status_of (Agent.r_actionLog r) (Agent.r_totalSteps r)
            (Agent.maxSteps (Agent.options s))
        /\ Agent.r_status r
           ∈ ["completed"; "terminated"; "error"; "max_steps_reached";
              "no_actions"]).
Proof.
  split; [|split; [reflexivity|]].
  - intros log step limit. cbv zeta. unfold Agent.status_of.
    destruct (last log) as [e|] eqn:Hlast.
    + assert (Hne : log <> []) by (intros ->; discriminate).
      destruct (String.eqb_spec (LogEntry.kind e) "complete") as [H1|H1];
        [|destruct (String.eqb_spec (LogEntry.kind e) "terminate")
            as [H2|H2];
          [|destruct (String.eqb_spec (LogEntry.kind e) "error")
              as [H3|H3];
            [|destruct (Z.leb_spec limit step)]]].
      all: repeat split; try discriminate; try done.
      all: try (intros (e' & [= <-] & Hk); try destruct Hk as (? & ? & ?);
                first [congruence | lia | tauto]).
      all: try (intros _; exists e; repeat split; assumption).
    + apply last_None in Hlast. subst log.
      repeat split; try discriminate; try done.
      all: intros (e' & [=] & _).
  - intros url goal s r s' Hrun Honly.
    pose proof (run_cases url goal s _ _ Hrun) as (_ & _ & Hr).
    cbv zeta in Hr. destruct Hr as (Hlog & Hsteps & Hstatus & _).
    destruct (Agent.try_block env url goal s) as [c s1] eqn:Htry.
    simpl in Hlog, Hsteps, Hstatus.
    pose proof (try_block_spec _ _ _ _ _ Htry)
      as (Ho & _ & entries & tr1 & tr2 & Hl & _ & _ & _ & _ & Hexit).
    rewrite Ho in Hstatus. split.
    { rewrite Hstatus, Hlog, Hsteps. reflexivity. }
    rewrite Hstatus.
    destruct c as [[| |]|e]; simpl in Hexit |- *.
    + destruct Hexit as (pre & e & tr0 & -> & Hterm & _).
      rewrite Hl, app_assoc, status_of_snoc.
      destruct (Honly _ Hterm) as [-> | ->]; simpl; set_solver.
    + apply status_of_at_limit. lia.
    + contradiction.
    + rewrite status_of_snoc. simpl. set_solver.
Qed.

(** Calls classified as setup or cleanup execute no action. *)
Lemma setup_quiet (reg : ActionRegistry.t World) tr :
  Forall (fun c => Agent.is_setup c = true) tr -> Agent.quiet reg tr.
Proof.
  unfold Agent.quiet. intros H. eapply Forall_impl; [exact H|].
  intros [] Hc; simpl in *; congruence.
Qed.

(** In a stretch of calls that starts quietly, the execution of a
    terminal action lies in the rest. *)
Lemma terminal_call_after_quiet (reg : ActionRegistry.t World) quiet_part :
  forall rest pre k post,
    Agent.quiet reg quiet_part ->
    quiet_part ++ rest = pre ++ Agent.Execute k :: post ->
    ActionRegistry.isTerminal reg k = true ->
    exists pre', rest = pre' ++ Agent.Execute k :: post.
Proof.
  induction quiet_part as [|q qs IH]; intros rest pre k post Hq Heq Hk.
  - exists pre. exact Heq.
  - inversion_clear Hq as [|? ? Hq1 Hq2].
    destruct pre as [|p pre]; simpl in Heq; injection Heq as -> Heq.
    + simpl in Hq1. congruence.
    + eapply IH; eassumption.
Qed.

Lemma cleanup_has_no_execute cleanup pre k post :
  Forall (fun c => Agent.is_cleanup c = true) cleanup ->
  cleanup <> pre ++ Agent.Execute k :: post.
Proof.
  intros Hcl ->. apply Forall_app in Hcl as [_ Hcl].
  inversion_clear Hcl as [|? ? Hc _]. discriminate.
Qed.

(** C7. Once an action of a terminal kind has been executed, the loop
    is over: [act] answers [true] whether the handler succeeded, failed
    or threw, the loop is then left by [break], and in the calls that a
    run makes nothing follows the execution of a terminal action but the
    closing of the browser and the writing of the results. No further
    observation, decision or execution is ever made. *)
Theorem terminal_action_is_final :
  (forall ps a s,
      ActionRegistry.isTerminal (Agent.registry s) (action_type a) = true ->
      exists o s',
        Agent.act env ps a s = (Returns true, s')
        /\ Agent.executed_by env (Agent.registry s) a o
        /\ last (Agent.actionLog s')
           = Some (LogEntry.executed (Agent.currentStep s) a o))
  /\ (forall goal fuel s s1,
        Agent.currentStep s < Agent.maxSteps (Agent.options s) ->
        Agent.iteration env goal s = (Returns true, s1) ->
        Agent.loop env goal (S fuel) s = (Returns Agent.ExitBreak, s1))
  /\ (forall url goal s,
        exists calls,
          Agent.trace (Agent.run env url goal s).2 = Agent.trace s ++ calls
          /\ forall pre k post,
              calls = pre ++ Agent.Execute k :: post ->
              ActionRegistry.isTerminal (Agent.session_registry env s) k
              = true ->
              Forall (fun c => Agent.is_cleanup c = true) post).
Proof.
  split; [|split].
  - intros ps a s Hterm.
    destruct (Agent.act env ps a s) as [c s'] eqn:Hact.
    apply act_spec in Hact
      as (_ & _ & _ & o & tr & Hby & Hlog & _ & _ & Hc).
    rewrite Hterm in Hc. destruct Hc as [-> _].
    exists o, s'. split; [reflexivity|]. split; [exact Hby|].
    rewrite Hlog. apply last_snoc.
  - intros goal fuel s s1 Hlt Hiter. simpl.
    destruct (Z.ltb_spec (Agent.currentStep s)
                (Agent.maxSteps (Agent.options s))); [|lia].
    unfold bind. rewrite Hiter. reflexivity.
  - intros url goal s.
    destruct (Agent.run env url goal s) as [c s'] eqn:Hrun.
    pose proof (run_cases url goal s _ _ Hrun)
      as (_ & (cleanup & Htr & Hcl) & _).
    destruct (Agent.try_block env url goal s) as [ct s1] eqn:Htry.
    simpl in Htr.
    pose proof (try_block_spec _ _ _ _ _ Htry)
      as (_ & _ & entries & tr1 & tr2 & _ & Htr' & Hsetup & _ & _ & Hexit).
    set (reg := Agent.session_registry env s) in *.
    exists (tr1 ++ tr2 ++ cleanup). split.
    { simpl. rewrite Htr, Htr', <- !app_assoc. reflexivity. }
    intros pre k post Heq Hk.
    assert (Hnone : forall quiet_part,
               Agent.quiet reg quiet_part ->
               quiet_part ++ cleanup = pre ++ Agent.Execute k :: post ->
               False).
    { intros q Hq Hq'.
      destruct (terminal_call_after_quiet reg q _ _ _ _ Hq Hq' Hk)
        as (pre' & Hpre').
      exact (cleanup_has_no_execute _ _ _ _ Hcl Hpre'). }
    destruct ct as [[| |]|e]; simpl in Hexit.
    + destruct Hexit as (pre0 & e & tr0 & _ & _ & -> & Hq0).
      assert (Hq : Agent.quiet reg (tr1 ++ tr0))
        by (apply Forall_app; split; [by apply setup_quiet | exact Hq0]).
      replace (tr1 ++ (tr0 ++ [Agent.Execute (LogEntry.kind e)])
                 ++ cleanup)
        with ((tr1 ++ tr0)
                ++ Agent.Execute (LogEntry.kind e) :: cleanup) in Heq
        by (rewrite <- !app_assoc; reflexivity).
      destruct (terminal_call_after_quiet reg _ _ _ _ _ Hq Heq Hk)
        as ([|p pre'] & Hpre'); simpl in Hpre'.
      * injection Hpre' as _ <-. exact Hcl.
      * injection Hpre' as _ Hpre'.
        destruct (cleanup_has_no_execute _ _ _ _ Hcl Hpre').
    + destruct Hexit as (_ & _ & _ & _ & Hq2).
      exfalso. apply (Hnone (tr1 ++ tr2)).
      * apply Forall_app. split; [by apply setup_quiet | exact Hq2].
      * rewrite <- app_assoc. exact Heq.
    + contradiction.
    + exfalso. apply (Hnone (tr1 ++ tr2)).
      * apply Forall_app. split; [by apply setup_quiet | exact Hexit].
      * rewrite <- app_assoc. exact Heq.
Qed.

(** C9. The two terminal handlers never fail: [complete] returns
    [success: true] with the extracted data or [null], [terminate]
    returns [success: true] with the reason or its default. So, when
    they are the terminal classes of the registry, the last log entry
    of a session that ended by a terminal action records
    [success: true] and no error. *)
Theorem terminal_handlers_succeed :
  (forall (page : Page.t World) em a w,
      ActionClass.execute Plugins.CompleteAction page em a w
      = (Returns {| Outcome.success := true; Outcome.error := None;
                    Outcome.data := js_or (extracted_data a) JNull;
                    Outcome.message := None |}, w))
  /\ (forall (page : Page.t World) em a w,
        ActionClass.execute Plugins.TerminateAction page em a w
        = (Returns
             {| Outcome.success := true; Outcome.error := None;
                Outcome.data :=
                  JObj [("terminated", JBool true);
                        ("reason",
                         JStr (str_or (reason a) "Task terminated"))];
                Outcome.message := None |}, w))
  /\ (forall url goal s s1,
        (forall k cls,
            ActionRegistry.get (Agent.session_registry env s) k = Some cls ->
            ActionClass.isTerminal cls = true ->
            cls = Plugins.CompleteAction \/ cls = Plugins.TerminateAction) ->
        Agent.try_block env url goal s = (Returns Agent.ExitBreak, s1) ->
        exists e,
          last (Agent.actionLog s1) = Some e
          /\ LogEntry.result e = Some (true, None)).
Proof.
  split; [reflexivity|]. split; [reflexivity|].
  intros url goal s s1 Honly Htry.
  apply try_block_spec in Htry
    as (_ & _ & entries & tr1 & tr2 & Hlog & _ & _ & Hby & _ & Hexit).
  simpl in Hexit. destruct Hexit as (pre & e & tr0 & -> & Hterm & _).
  exists e. split; [rewrite Hlog, app_assoc; apply last_snoc|].
  apply Forall_app in Hby as [_ Hby]. inversion_clear Hby as [|? ? He _].
  destruct He as (a & o & He & em & w & w' & Hex).
  assert (Hkind : LogEntry.kind e = action_type a)
    by (rewrite He; reflexivity).
  rewrite Hkind in Hterm.
  unfold ActionRegistry.isTerminal in Hterm.
  unfold ActionExecutor.execute in Hex.
  destruct (ActionRegistry.get (Agent.session_registry env s)
              (action_type a)) as [cls|] eqn:Hget; [|discriminate].
  rewrite He. simpl.
  destruct (Honly _ _ Hget Hterm) as [-> | ->];
    unfold try_catch in Hex; simpl in Hex; unfold ret in Hex;
    injection Hex as <- _; reflexivity.
Qed.



(** C3. [execute] always returns an outcome. For a kind that is not
    registered the outcome is a failure whose error names the kind and
    lists the registered kinds; when the handler throws, the outcome
    is a failure whose error is the message thrown. In the loop such a
    fault is logged with [success: false] and that error, and the
    iteration goes on as after any other action: to [break] for a
    terminal kind, to the pause and the next iteration otherwise. With
    nothing else throwing, the [try] block ends without an exception
    whatever the handlers do. *)
Theorem executor_never_throws :
  (forall (reg : ActionRegistry.t World) page em a w,
      exists o w', ActionExecutor.execute reg page em a w = (Returns o, w'))
  /\ (forall (reg : ActionRegistry.t World) page em a w,
        ActionRegistry.get reg (action_type a) = None ->
        ActionExecutor.execute reg page em a w
        = (Returns
             {| Outcome.success := false;
                Outcome.error :=
                  Some ("Unknown action type: " +:+ action_type a
                          +:+ ". Available: "
                          +:+ String.concat ", "
                                (ActionRegistry.getTypes reg));
                Outcome.data := JUndefined;
                Outcome.message := None |}, w)
        /\ forall k, k ∈ ActionRegistry.getTypes reg
                     <-> is_Some (ActionRegistry.get reg k))
  /\ (forall (reg : ActionRegistry.t World) page em a w cls msg w',
        ActionRegistry.get reg (action_type a) = Some cls ->
        ActionClass.execute cls page em a w = (Throws msg, w') ->
        ActionExecutor.execute reg page em a w
        = (Returns
             {| Outcome.success := false; Outcome.error := Some msg;
                Outcome.data := JUndefined; Outcome.message := None |},
           w'))
  /\ (forall ps a s cls msg w',
        ActionRegistry.get (Agent.registry s) (action_type a) = Some cls ->
        ActionClass.execute cls (Agent.page env) (Agent.ps_elementMap ps)
          a (Agent.world s) = (Throws msg, w') ->
        let entry :=
          {| LogEntry.step := Agent.currentStep s;
             LogEntry.action := a;
             LogEntry.result := Some (false, Some msg);
             LogEntry.error := None |} in
        let logged :=
          Agent.push_log entry
            (Agent.set_world w'
               (Agent.add_call (Agent.Execute (action_type a)) s)) in
        Agent.act env ps a s
        = if ActionRegistry.isTerminal (Agent.registry s) (action_type a)
          then (Returns true, Agent.capture a logged)
          else (Agent.pause env s ;; ret false)%eff logged)
  /\ (forall url goal s,
        Agent.cooperative env (Agent.printable (Agent.options s)) ->
        exists exit s',
          Agent.try_block env url goal s = (Returns exit, s')).
Proof.
  split; [exact execute_returns|]. split; [|split; [|split]].
  - intros reg page em a w Hnone. split; [|intros k; apply get_getTypes].
    unfold ActionExecutor.execute. rewrite Hnone. reflexivity.
  - intros reg page em a w cls msg w' Hget Hthrow.
    unfold ActionExecutor.execute, try_catch. rewrite Hget, Hthrow.
    reflexivity.
  - intros ps a s cls msg w' Hget Hthrow. cbv zeta.
    unfold Agent.act, bind, get_state, Agent.call, modify,
      ActionExecutor.execute, try_catch.
    rewrite Hget, Hthrow. simpl.
    destruct (ActionRegistry.isTerminal _ _); reflexivity.
  - intros url goal s Hcoop.
    destruct (try_block_cooperative _ Hcoop url goal s)
      as (exit & s' & _ & Htry & _); [|eauto].
    intros a Ha. exact Ha.
Qed.
End AgentFacts.

(** ** Element resolution *)

Section ResolverFacts.
Context {World : Type}.
Variable page : Page.t World.
Variable em : ElementMap.

End ResolverFacts.

(** ** The decision provider *)

Section AdapterFacts.
Context {World : Type}.
Variable fetch : string -> Eff World OpenRouterAdapter.Response.
Variable buildPrompt : Context -> Completion string.
Variable parseResponse : string -> Completion Action.
Variable rateLimiter : option (Eff World Action -> Eff World Action).
Variable env : @Agent.Env World.

(** With every attempt failing, the bounded retry gives up with the
    error of the call. *)
Lemma retry_exhausted sleep call msg retries : forall delay multiplier w,
  (forall ms, total (sleep ms)) ->
  (forall w, exists w', call w = (Throws msg, w')) ->
  exists w',
    OpenRouterAdapter.retry (World := World) sleep retries delay
      multiplier call w = (Throws msg, w').
Proof.
  induction retries as [|n IH]; intros delay multiplier w Hsleep Hcall;
    simpl; unfold try_catch.
  - destruct (Hcall w) as (w' & ->). unfold throw. eauto.
  - destruct (Hcall w) as (w' & ->). unfold bind.
    destruct (Hsleep delay w') as ([] & w'' & ->).
    apply IH; assumption.
Qed.

(** C5, as amended. When the (rate-limited) call to the provider ends
    with an exception, [generateAction] does not throw: it returns an
    action of kind terminate that carries the error text in its
    [reasoning] field, after the prefix "LLM API error: ", and in its
    [errors] list. Its [reason] field is absent, so that the terminate
    handler reports the default reason. Executed by the loop, the
    fallback is logged with the kind terminate, that reasoning and
    [success: true], and the loop is left. *)
Theorem provider_failure_falls_back context prompt msg w w' :
  buildPrompt context = Returns prompt ->
  OpenRouterAdapter.limited fetch parseResponse rateLimiter prompt w
  = (Throws msg, w') ->
  let decision := OpenRouterAdapter.fallback msg in
  OpenRouterAdapter.generateAction fetch buildPrompt parseResponse
    rateLimiter context w = (Returns decision, w')
  /\ action_type decision = "terminate"
  /\ reasoning decision = Some ("LLM API error: " +:+ msg)
  /\ errors decision = [msg]
  /\ reason decision = None
  /\ (forall ps s,
        ActionRegistry.get (Agent.registry s) "terminate"
        = Some Plugins.TerminateAction ->
        exists s',
          Agent.act env ps decision s = (Returns true, s')
          /\ last (Agent.actionLog s')
             = Some {| LogEntry.step := Agent.currentStep s;
                       LogEntry.action := decision;
                       LogEntry.result := Some (true, None);
                       LogEntry.error := None |}
          /\ ActionExecutor.execute (Agent.registry s) (Agent.page env)
               (Agent.ps_elementMap ps) decision (Agent.world s)
             = (Returns
                  (Outcome.ok_with
                     (JObj [("terminated", JBool true);
                            ("reason", JStr "Task terminated")])),
                Agent.world s)).
Proof.
  intros Hprompt Hcall decision.
  split.
  { unfold OpenRouterAdapter.generateAction, bind,
      OpenRouterAdapter.lift_pure, try_catch.
    rewrite Hprompt, Hcall. reflexivity. }
  repeat (split; [reflexivity|]).
  intros ps s Hget.
  assert (Hex : ActionExecutor.execute (Agent.registry s) (Agent.page env)
                  (Agent.ps_elementMap ps) decision (Agent.world s)
                = (Returns
                     (Outcome.ok_with
                        (JObj [("terminated", JBool true);
                               ("reason", JStr "Task terminated")])),
                   Agent.world s)).
  { unfold ActionExecutor.execute. simpl. rewrite Hget. reflexivity. }
  eexists. split; [|split; [|exact Hex]].
  - unfold Agent.act, bind, get_state, Agent.call, modify.
    rewrite Hex. simpl.
    unfold ActionRegistry.isTerminal. rewrite Hget. reflexivity.
  - simpl. apply last_snoc.
Qed.
End AdapterFacts.

(** ** The output file *)

Section OutputFacts.
Context {World : Type}.
Variable env : @Agent.Env World.
Implicit Types (s : @Agent.State World).

Lemma str_or_falsy o default :
  truthy_str o = false -> str_or o default = default.
Proof.
  destruct o as [v|]; simpl; [|reflexivity].
  destruct (String.eqb v ""); [reflexivity | discriminate].
Qed.



Lemma safe_char c :
  Agent.in_safe_class
    (let c' := if Agent.in_title_class c then c else "_"%char in
     let n := nat_of_ascii c' in
     if ((65 <=? n) && (n <=? 90))%nat then ascii_of_nat (n + 32) else c')
  = true.
Proof. destruct c as [[] [] [] [] [] [] [] []]; reflexivity. Qed.

Lemma all_chars_map p f title :
  Agent.all_chars p (Agent.map_chars f title)
  = Agent.all_chars (fun c => p (f c)) title.
Proof.
  induction title as [|c title IH]; simpl; [reflexivity|].
  rewrite IH. reflexivity.
Qed.

Lemma all_chars_true p title :
  (forall c, p c = true) -> Agent.all_chars p title = true.
Proof.
  intros Hp. induction title as [|c title IH]; simpl; [reflexivity|].
  rewrite Hp, IH. reflexivity.
Qed.

Lemma length_map_chars f title :
  String.length (Agent.map_chars f title) = String.length title.
Proof.
  induction title as [|c title IH]; simpl; [reflexivity|].
  rewrite IH. reflexivity.
Qed.

Lemma safeTitle_chars title :
  Agent.all_chars Agent.in_safe_class (Agent.safeTitle title) = true.
Proof.
  unfold Agent.safeTitle, Agent.toLowerCase, Agent.replace_outside_class.
  rewrite !all_chars_map. apply all_chars_true.
  intros c. exact (safe_char c).
Qed.


End OutputFacts.

(** ** Runs on the scripted world *)

Section ScriptedRuns.
Import Script.

(** Three steps without a terminal action. *)
Example three_clicks :
  let out :=
    Agent.run (env None scripted) "about:blank" "find the docs"
      (start 3 (world [Returns click_e1; Returns click_e1;
                       Returns click_e1])) in
  (Agent.r_status <$> match out.1 with Returns r => Some r | _ => None end)
  = Some "max_steps_reached"
  /\ Agent.currentStep out.2 = 3
  /\ map LogEntry.step (Agent.actionLog out.2) = [1; 2; 3].
Proof. vm_compute. repeat split. Qed.

(** The session registry of a new agent in a fresh process. *)
Lemma session_registry_start provider close_error m w :
  Agent.session_registry (env close_error provider) (start m w) = loaded.
Proof. reflexivity. Qed.






(** C3 on the scripted world: an unknown kind and a throwing handler
    both give a failure outcome. *)
Lemma executor_never_throws_witness :
  ActionExecutor.execute loaded page table (bare_action "fly") (world [])
  = (Returns
       (Outcome.failure
          "Unknown action type: fly. Available: click, complete, extract, hover, terminate"),
     world [])
  /\ ActionExecutor.execute [("faulty", FaultyAction)] page table
       (bare_action "faulty") (world [])
     = (Returns (Outcome.failure "handler crashed"), world []).
Proof.
  destruct (executor_never_throws (env None scripted))
    as (_ & Hunknown & Hthrows & _).
  split.
  - apply (Hunknown loaded page table (bare_action "fly") (world [])).
    reflexivity.
  - apply (Hthrows [("faulty", FaultyAction)] page table
             (bare_action "faulty") (world []) FaultyAction);
      reflexivity.
Defined.


(** C5 fails as stated: with every request failing and the retries
    used up, the decision returned has no [reason] field; the error
    text stands in [reasoning] behind a prefix, and in [errors]. The
    terminate handler then reports its default reason, and so does the
    last entry of the session log. *)
Lemma fallback_has_no_reason :
  let decided := failing_provider some_context (world []) in
  let out :=
    Agent.run (env None failing_provider) "about:blank" "find the docs"
      (start 3 (world [])) in
  decided.1 = Returns (OpenRouterAdapter.fallback "fetch failed")
  /\ reason (OpenRouterAdapter.fallback "fetch failed") = None
  /\ reasoning (OpenRouterAdapter.fallback "fetch failed")
     = Some "LLM API error: fetch failed"
  /\ (ActionClass.execute Plugins.TerminateAction page table
        (OpenRouterAdapter.fallback "fetch failed") (world [])).1
     = Returns
         (Outcome.ok_with
            (JObj [("terminated", JBool true);
                   ("reason", JStr "Task terminated")]))
  /\ (LogEntry.action <$> last (Agent.actionLog out.2))
     = Some (OpenRouterAdapter.fallback "fetch failed")
  /\ ((fun e => reason (LogEntry.action e)) <$> last (Agent.actionLog out.2))
     = Some None.
Proof. vm_compute. repeat split. Qed.

Lemma provider_failure_falls_back_witness :
  (fun _ : Context => Returns "prompt") some_context
  = Returns "prompt"
  /\ OpenRouterAdapter.retry (fun _ => ret tt) 3 1000 2
       (OpenRouterAdapter.apiCall failing_fetch
          (fun _ => Returns (bare_action "wait")) "prompt") (world [])
     = (Throws "fetch failed", world [])
  /\ failing_provider some_context (world [])
     = (Returns (OpenRouterAdapter.fallback "fetch failed"), world []).
Proof.
  split; [reflexivity|]. split; [reflexivity|].
  apply (provider_failure_falls_back failing_fetch
           (fun _ => Returns "prompt")
           (fun _ => Returns (bare_action "wait")) limiter
           (env None failing_provider) some_context "prompt"
           "fetch failed" (world []) (world []));
    reflexivity.
Defined.

(** C6 fails as stated: with the limit 1 and a first action of kind
    complete, the step counter has reached the limit, and the status
    is completed, not max_steps_reached. *)
Lemma completed_at_the_limit :
  let out :=
    Agent.run (env None scripted) "about:blank" "find the docs"
      (start 1 (world [Returns (complete_with (JStr "done"))])) in
  (Agent.r_status <$> match out.1 with Returns r => Some r | _ => None end)
  = Some "completed"
  /\ Agent.currentStep out.2 = 1
  /\ Agent.maxSteps (Agent.options out.2) = 1.
Proof. vm_compute. repeat split. Qed.

Lemma loaded_eq :
  loaded
  = [("click", Plugins.ClickAction); ("complete", Plugins.CompleteAction);
     ("extract", Plugins.ExtractAction); ("hover", Plugins.HoverAction);
     ("terminate", Plugins.TerminateAction)].
Proof. reflexivity. Qed.

Lemma loaded_terminal_kinds k :
  ActionRegistry.isTerminal loaded k = true ->
  k = "complete" \/ k = "terminate".
Proof.
  rewrite loaded_eq.
  unfold ActionRegistry.isTerminal, ActionRegistry.get.
  cbn [ActionRegistry.map_get].
  repeat match goal with
         | |- context [String.eqb ?kind k] =>
             destruct (String.eqb_spec kind k) as [<-|_];
             [simpl; intros H; first [discriminate H | auto]|]
         end.
  intros H; discriminate H.
Qed.

Lemma loaded_terminal_classes k cls :
  ActionRegistry.get loaded k = Some cls ->
  ActionClass.isTerminal cls = true ->
  cls = Plugins.CompleteAction \/ cls = Plugins.TerminateAction.
Proof.
  rewrite loaded_eq. unfold ActionRegistry.get.
  cbn [ActionRegistry.map_get].
  repeat match goal with
         | |- context [String.eqb ?kind k] =>
             destruct (String.eqb kind k);
             [intros [= <-]; simpl; intros H;
              first [discriminate H | auto]|]
         end.
  intros H; discriminate H.
Qed.

Lemma status_is_derived_witness :
  let out :=
    Agent.run (env None scripted) "about:blank" "find the docs"
      (start 3 (world [Returns click_e1])) in
  exists r,
    out.1 = Returns r
    /\ Agent.r_status r
       ∈ ["completed"; "terminated"; "error"; "max_steps_reached";
          "no_actions"].
Proof.
  cbv zeta.
  destruct (Agent.run (env None scripted) "about:blank" "find the docs"
              (start 3 (world [Returns click_e1])))
    as [[r|e] s'] eqn:Hrun.
  - exists r. split; [reflexivity|].
    destruct (status_is_derived (env None scripted)) as (_ & _ & H).
    eapply H; [exact Hrun|].
    intros k. rewrite session_registry_start. apply loaded_terminal_kinds.
  - exfalso. vm_compute in Hrun. discriminate Hrun.
Defined.

(** C7 on the scripted world: after the execution of the action of
    kind complete, only the browser is closed and files are written,
    although the script holds one more decision. *)
Lemma terminal_action_is_final_witness :
  let out :=
    Agent.run (env None scripted) "about:blank" "find the docs"
      (start 5 (world [Returns click_e1;
                       Returns (complete_with (JStr "done"));
                       Returns click_e1])) in
  exists pre post,
    Agent.trace out.2 = pre ++ Agent.Execute "complete" :: post
    /\ ActionRegistry.isTerminal loaded "complete" = true
    /\ Forall (fun c => Agent.is_cleanup c = true) post.
Proof.
  cbv zeta.
  destruct (terminal_action_is_final (env None scripted)) as (_ & _ & H).
  destruct (H "about:blank" "find the docs"
              (start 5 (world [Returns click_e1;
                               Returns (complete_with (JStr "done"));
                               Returns click_e1])))
    as (calls & Htrace & Hpost).
  vm_compute in Htrace. subst calls.
  pose (pre := [Agent.CreateAdapter; Agent.LaunchBrowser; Agent.OpenPage;
                Agent.PreloadCookies; Agent.Goto "about:blank";
                Agent.WaitForTimeout 2000; Agent.GetPageState;
                Agent.GenerateAction; Agent.Execute "click";
                Agent.WaitForTimeout 1000; Agent.GetPageState;
                Agent.GenerateAction]).
  exists [Agent.CreateAdapter; Agent.LaunchBrowser; Agent.OpenPage;
          Agent.PreloadCookies; Agent.Goto "about:blank";
          Agent.WaitForTimeout 2000; Agent.GetPageState;
          Agent.GenerateAction; Agent.Execute "click";
          Agent.WaitForTimeout 1000; Agent.GetPageState;
          Agent.GenerateAction],
    [Agent.CloseBrowser;
     Agent.WriteFile "data/action-logs/20240101_000000.json";
     Agent.WriteFile
       "data/output/output_20240101_000000_20240101_000000.json"].
  split; [vm_compute; reflexivity|].
  split; [reflexivity|].
  apply (Hpost pre "complete"); reflexivity.
Defined.


(** C9 on the scripted world: a session ended by complete. *)
Lemma terminal_handlers_succeed_witness :
  let out :=
    Agent.try_block (env None scripted) "about:blank" "find the docs"
      (start 5 (world [Returns click_e1;
                       Returns (complete_with (JStr "done"))])) in
  out.1 = Returns Agent.ExitBreak
  /\ exists e,
       last (Agent.actionLog out.2) = Some e
       /\ LogEntry.result e = Some (true, None).
Proof.
  cbv zeta.
  destruct (Agent.try_block (env None scripted) "about:blank"
              "find the docs"
              (start 5 (world [Returns click_e1;
                               Returns (complete_with (JStr "done"))])))
    as [c s1] eqn:Htry.
  assert (Hc : c = Returns Agent.ExitBreak).
  { apply (f_equal fst) in Htry. vm_compute in Htry. symmetry.
    exact Htry. }
  subst c. split; [reflexivity|].
  destruct (terminal_handlers_succeed (env None scripted)) as (_ & _ & H).
  eapply H; [|exact Htry].
  intros k cls. rewrite session_registry_start.
  apply loaded_terminal_classes.
Defined.

End ScriptedRuns.

(** ** Listings of the registry *)

Section ListingFacts.
Context {World : Type}.
Implicit Types (reg : ActionRegistry.t World) (cls : ActionClass.t World).

Lemma getTypes_map_set reg k cls :
  ActionRegistry.getTypes (ActionRegistry.map_set reg k cls)
  = if ActionRegistry.has reg k then ActionRegistry.getTypes reg
    else ActionRegistry.getTypes reg ++ [k].
Proof.
  unfold ActionRegistry.getTypes, ActionRegistry.has.
  induction reg as [|[k0 v0] reg IH]; simpl; [reflexivity|].
  destruct (String.eqb_spec k0 k) as [->|Hne]; simpl; [reflexivity|].
  rewrite IH. destruct (ActionRegistry.map_get reg k); reflexivity.
Qed.

Lemma has_getTypes reg k :
  ActionRegistry.has reg k = true <-> k ∈ ActionRegistry.getTypes reg.
Proof.
  rewrite get_getTypes. unfold ActionRegistry.has, ActionRegistry.get.
  destruct (ActionRegistry.map_get reg k); split; eauto; try done.
Qed.

Lemma getTypes_load_file reg file :
  ActionRegistry.getTypes (ActionRegistry.load_file reg file)
  = match RegistryListing.usable_type file with
    | Some k =>
        if ActionRegistry.has reg k then ActionRegistry.getTypes reg
        else ActionRegistry.getTypes reg ++ [k]
    | None => ActionRegistry.getTypes reg
    end.
Proof.
  destruct file as [cls|msg]; simpl; [|reflexivity].
  unfold ActionRegistry.register.
  destruct (String.eqb (ActionClass.type cls) "");
    destruct (String.eqb (ActionClass.type cls) "unknown"); simpl;
    try reflexivity.
  apply getTypes_map_set.
Qed.

Lemma NoDup_load_file reg file :
  NoDup (ActionRegistry.getTypes reg) ->
  NoDup (ActionRegistry.getTypes (ActionRegistry.load_file reg file)).
Proof.
  intros Hnd. rewrite getTypes_load_file.
  destruct (RegistryListing.usable_type file) as [k|]; [|exact Hnd].
  destruct (ActionRegistry.has reg k) eqn:Hhas; [exact Hnd|].
  apply NoDup_app. split; [exact Hnd|]. split; [|apply NoDup_singleton].
  intros x Hx ->%list_elem_of_singleton.
  apply has_getTypes in Hx. congruence.
Qed.

Lemma NoDup_loadPlugins dir reg :
  NoDup (ActionRegistry.getTypes reg) ->
  NoDup (ActionRegistry.getTypes (ActionRegistry.loadPlugins dir reg)).
Proof.
  destruct dir as [files|]; simpl; [|done].
  revert reg. induction files as [|f files IH]; intros reg Hnd; simpl.
  - exact Hnd.
  - apply IH, NoDup_load_file, Hnd.
Qed.

Lemma usable_load_file reg file :
  RegistryListing.usable_type file = None ->
  ActionRegistry.load_file reg file = reg.
Proof.
  destruct file as [cls|msg]; simpl; [|reflexivity].
  destruct (_ && _); [discriminate | reflexivity].
Qed.

Lemma loadPlugins_usable files : forall reg,
  ActionRegistry.loadPlugins (Some files) reg
  = ActionRegistry.loadPlugins
      (Some (filter (fun f => is_Some (RegistryListing.usable_type f)) files))
      reg.
Proof.
  induction files as [|f files IH]; intros reg; simpl; [reflexivity|].
  destruct (RegistryListing.usable_type f) as [k|] eqn:Hk.
  - rewrite filter_cons_True by eauto. simpl. apply IH.
  - rewrite filter_cons_False by (rewrite Hk; intros [? [=]]).
    rewrite usable_load_file by exact Hk. apply IH.
Qed.

Lemma types_loadPlugins files k : forall reg,
  k ∈ ActionRegistry.getTypes (ActionRegistry.loadPlugins (Some files) reg)
  <-> k ∈ ActionRegistry.getTypes reg
      \/ Some k ∈ map RegistryListing.usable_type files.
Proof.
  induction files as [|f files IH]; intros reg; simpl.
  - split; [auto | intros [?|H]; [done | inversion H]].
  - simpl in IH. rewrite IH, getTypes_load_file, elem_of_cons.
    destruct (RegistryListing.usable_type f) as [k'|].
    + destruct (ActionRegistry.has reg k') eqn:Hhas.
      * apply has_getTypes in Hhas.
        split; [intros [?|?]; auto | intros [?|[[= ->]|?]]; auto].
      * rewrite elem_of_app, list_elem_of_singleton.
        split; [intros [[?| ->]|?]; auto | intros [?|[[= ->]|?]]; auto].
    + split; [intros [?|?]; auto | intros [?|[[=]|?]]; auto].
Qed.

(** X1. The registry is a JavaScript [Map]: loading one more plugin
    file appends its kind to [getTypes()] when the kind is new, leaves
    the list as it is when the kind is already registered (the class is
    replaced in place), and does nothing for a file that cannot be
    required or exports no usable type. So, loaded from the empty
    registry, [getTypes()] holds no kind twice, holds exactly the kinds
    of the usable files, and the files that are not usable might as
    well not be there. *)
Theorem types_in_registration_order :
  (forall reg file,
      ActionRegistry.getTypes (ActionRegistry.load_file reg file)
      = match RegistryListing.usable_type file with
        | Some k =>
            if ActionRegistry.has reg k then ActionRegistry.getTypes reg
            else ActionRegistry.getTypes reg ++ [k]
        | None => ActionRegistry.getTypes reg
        end)
  /\ (forall files,
        let reg := ActionRegistry.loadPlugins (World := World) (Some files)
                     ActionRegistry.empty in
        NoDup (ActionRegistry.getTypes reg)
        /\ (forall k, k ∈ ActionRegistry.getTypes reg
                      <-> Some k ∈ map RegistryListing.usable_type files)
        /\ reg = ActionRegistry.loadPlugins
                   (Some (filter
                            (fun f => is_Some (RegistryListing.usable_type f))
                            files))
                   ActionRegistry.empty).
Proof.
  split; [exact getTypes_load_file|].
  intros files reg. split; [|split].
  - apply NoDup_loadPlugins. constructor.
  - intros k. unfold reg. rewrite types_loadPlugins.
    split; [intros [H|?]; [inversion H | done] | auto].
  - apply loadPlugins_usable.
Qed.

Lemma map_get_elem reg k cls :
  NoDup (ActionRegistry.getTypes reg) ->
  (k, cls) ∈ reg <-> ActionRegistry.map_get reg k = Some cls.
Proof.
  unfold ActionRegistry.getTypes.
  induction reg as [|[k0 v0] reg IH]; simpl; intros Hnd.
  - split; [intros H; inversion H | discriminate].
  - apply NoDup_cons in Hnd as [Hk0 Hnd]. rewrite elem_of_cons.
    destruct (String.eqb_spec k0 k) as [->|Hne].
    + split.
      * intros [[= ->]|Hin]; [reflexivity|].
        exfalso. apply Hk0. apply list_elem_of_fmap. exists (k, cls). auto.
      * intros [= ->]. auto.
    + rewrite <- (IH Hnd). split; [intros [[= ? ?]|?]; [congruence | done] | auto].
Qed.

Lemma listed_iff (P : ActionClass.t World -> bool) reg k :
  NoDup (ActionRegistry.getTypes reg) ->
  k ∈ map fst (filter (fun kv => P (snd kv) = true) reg)
  <-> exists cls, ActionRegistry.get reg k = Some cls /\ P cls = true.
Proof.
  intros Hnd. unfold ActionRegistry.get. rewrite list_elem_of_fmap. split.
  - intros ([k' cls] & -> & [HP Hin]%list_elem_of_filter). simpl in *.
    exists cls. split; [apply map_get_elem; assumption | exact HP].
  - intros (cls & Hget & HP). exists (k, cls). split; [reflexivity|].
    apply list_elem_of_filter. split; [exact HP|].
    apply map_get_elem; assumption.
Qed.

Lemma via_getAll (P : ActionClass.t World -> bool)
    (Q : RegistryListing.Meta -> bool) reg :
  (forall kv, Q {| RegistryListing.type := fst kv;
                   RegistryListing.requiresElement :=
                     ActionClass.requiresElement (snd kv) || false;
                   RegistryListing.isCoordinate :=
                     ActionClass.isCoordinate (snd kv) || false;
                   RegistryListing.isTerminal :=
                     ActionClass.isTerminal (snd kv) || false;
                   RegistryListing.description :=
                     str_or (Some (ActionClass.description (snd kv))) "" |}
              = P (snd kv)) ->
  map RegistryListing.type
    (filter (fun a => Q a = true) (RegistryListing.getAll reg))
  = map fst (filter (fun kv => P (snd kv) = true) reg).
Proof.
  intros HQ. unfold RegistryListing.getAll.
  induction reg as [|kv reg IH]; [reflexivity|].
  cbn [map]. destruct (P (snd kv)) eqn:HP.
  - rewrite filter_cons_True by (rewrite HQ; exact HP).
    rewrite (filter_cons_True (fun kv : string * ActionClass.t World => P (snd kv) = true)) by exact HP.
    cbn [map]. f_equal. exact IH.
  - rewrite filter_cons_False by (rewrite HQ, HP; discriminate).
    rewrite (filter_cons_False (fun kv : string * ActionClass.t World => P (snd kv) = true))
      by (rewrite HP; discriminate).
    exact IH.
Qed.

(** X2. The lists exported for backward compatibility agree with the
    lookups: in a registry loaded from plugin files, [getElementActions()]
    holds exactly the kinds for which [requiresElement(k)] is true and
    [getTerminalActions()] exactly those for which [isTerminal(k)] is
    true, each once and in the order of [getTypes()]; a kind for which
    [isCoordinateAction(k)] is true is registered. *)
Theorem listings_agree_with_lookups files k :
  let reg := ActionRegistry.loadPlugins (World := World) (Some files)
               ActionRegistry.empty in
  RegistryListing.element_types reg = ActionRegistry.getElementActions reg
  /\ RegistryListing.terminal_types reg = ActionRegistry.getTerminalActions reg
  /\ (k ∈ RegistryListing.element_types reg
      <-> ActionRegistry.requiresElement reg k = true)
  /\ (k ∈ RegistryListing.terminal_types reg
      <-> ActionRegistry.isTerminal reg k = true)
  /\ NoDup (RegistryListing.element_types reg)
  /\ NoDup (RegistryListing.terminal_types reg)
  /\ RegistryListing.element_types reg `sublist_of` ActionRegistry.getTypes reg
  /\ RegistryListing.terminal_types reg `sublist_of` ActionRegistry.getTypes reg
  /\ (RegistryListing.isCoordinateAction reg k = true ->
      k ∈ ActionRegistry.getTypes reg).
Proof.
  intros reg.
  assert (Hnd : NoDup (ActionRegistry.getTypes reg))
    by (apply NoDup_loadPlugins; constructor).
  assert (He : RegistryListing.element_types reg
               = ActionRegistry.getElementActions reg).
  { apply (via_getAll ActionClass.requiresElement).
    intros kv. simpl. apply orb_false_r. }
  assert (Ht : RegistryListing.terminal_types reg
               = ActionRegistry.getTerminalActions reg).
  { apply (via_getAll ActionClass.isTerminal).
    intros kv. simpl. apply orb_false_r. }
  assert (Hsub : forall P : ActionClass.t World -> bool,
             map fst (filter (fun kv => P (snd kv) = true) reg)
             `sublist_of` ActionRegistry.getTypes reg).
  { intros P. unfold ActionRegistry.getTypes.
    apply (fmap_sublist fst), sublist_filter. }
  split; [exact He|]. split; [exact Ht|]. rewrite He, Ht.
  unfold ActionRegistry.getElementActions, ActionRegistry.getTerminalActions.
  split; [|split; [|split; [|split; [|split; [|split]]]]].
  - rewrite listed_iff by exact Hnd.
    unfold ActionRegistry.requiresElement.
    destruct (ActionRegistry.get reg k) as [cls|].
    + split; [intros (? & [= <-] & ?); done | eauto].
    + split; [intros (? & [=] & _) | done].
  - rewrite listed_iff by exact Hnd.
    unfold ActionRegistry.isTerminal.
    destruct (ActionRegistry.get reg k) as [cls|].
    + split; [intros (? & [= <-] & ?); done | eauto].
    + split; [intros (? & [=] & _) | done].
  - eapply sublist_NoDup; [exact Hnd | apply Hsub].
  - eapply sublist_NoDup; [exact Hnd | apply Hsub].
  - apply Hsub.
  - apply Hsub.
  - unfold RegistryListing.isCoordinateAction. intros H.
    apply get_getTypes. destruct (ActionRegistry.get reg k); [eauto | done].
Qed.
End ListingFacts.

(** ** The table of action types *)

Section ActionTypeFacts.
Context {World : Type}.
Variable toUpperCase : string -> string.

Lemma obj_get_set o k v k' :
  ActionTypes.obj_get (ActionTypes.obj_set o k v) k'
  = if String.eqb k k' then Some v else ActionTypes.obj_get o k'.
Proof.
  induction o as [|[k0 v0] o IH]; simpl.
  - reflexivity.
  - destruct (String.eqb_spec k0 k) as [->|Hne]; simpl.
    + destruct (String.eqb_spec k k'); reflexivity.
    + destruct (String.eqb_spec k0 k') as [->|Hne'].
      * destruct (String.eqb_spec k k'); [congruence | reflexivity].
      * apply IH.
Qed.

Lemma from_types_typed types : forall done o,
  ActionTypes.typed toUpperCase done o ->
  ActionTypes.typed toUpperCase (done ++ types)
    (fold_left (fun o type => ActionTypes.obj_set o (ActionTypes.key_of toUpperCase type) type)
       types o).
Proof.
  induction types as [|t types IH]; intros done o Ho; simpl.
  - rewrite app_nil_r. exact Ho.
  - replace (done ++ t :: types) with ((done ++ [t]) ++ types)
      by (rewrite <- app_assoc; reflexivity).
    apply IH. destruct Ho as [Hval Hkey]. split.
    + intros K v. rewrite obj_get_set.
      destruct (String.eqb_spec (ActionTypes.key_of toUpperCase t) K) as [<-|Hne].
      * intros [= <-]. split; [|reflexivity].
        apply elem_of_app. right. apply list_elem_of_singleton. reflexivity.
      * intros H. destruct (Hval K v H). split; [|done].
        apply elem_of_app. left. assumption.
    + intros t0 Ht0. rewrite obj_get_set.
      destruct (String.eqb_spec (ActionTypes.key_of toUpperCase t) (ActionTypes.key_of toUpperCase t0)); [eauto|].
      apply Hkey. apply elem_of_app in Ht0 as [?|Ht0]; [done|].
      apply list_elem_of_singleton in Ht0. congruence.
Qed.

Lemma with_legacy_merged types legacy : forall done o,
  Forall (fun t => t <> "") legacy ->
  ActionTypes.merged toUpperCase types done o ->
  ActionTypes.merged toUpperCase types (done ++ legacy) (ActionTypes.with_legacy toUpperCase legacy o).
Proof.
  induction legacy as [|t legacy IH]; intros done o Hne Ho; simpl.
  - rewrite app_nil_r. exact Ho.
  - replace (done ++ t :: legacy) with ((done ++ [t]) ++ legacy)
      by (rewrite <- app_assoc; reflexivity).
    apply Forall_cons in Hne as [Ht Hne].
    apply IH; [exact Hne|]. destruct Ho as (Hval & Hkey & Hleg).
    destruct (ActionTypes.obj_get o (toUpperCase t)) as [v|] eqn:Hget; simpl.
    + destruct (Hval _ _ Hget) as [Hv _].
      destruct (String.eqb_spec v ""); [done|]. simpl.
      split; [|split].
      * intros K v' H. destruct (Hval K v' H) as [? [?|(? & ? & ?)]];
          (split; [done|]); [left; done | right].
        split; [apply elem_of_app; left; assumption | done].
      * exact Hkey.
      * intros t0 [?| ->%list_elem_of_singleton]%elem_of_app; eauto.
    + simpl. split; [|split].
      * intros K v'. rewrite obj_get_set.
        destruct (String.eqb_spec (toUpperCase t) K) as [<-|HK].
        -- intros [= <-]. split; [done|]. right.
           split; [apply elem_of_app; right;
                   apply list_elem_of_singleton; reflexivity|].
           split; [reflexivity|].
           intros t0 Ht0 Heq. destruct (Hkey t0 Ht0) as (t' & Ht' & _).
           rewrite Heq in Ht'. congruence.
        -- intros H. destruct (Hval K v' H) as [? [?|(? & ? & ?)]];
             (split; [done|]); [left; done | right].
           split; [apply elem_of_app; left; assumption | done].
      * intros t0 Ht0. destruct (Hkey t0 Ht0) as (t' & Ht' & Hin).
        exists t'. split; [|exact Hin]. rewrite obj_get_set.
        destruct (String.eqb_spec (toUpperCase t) (ActionTypes.key_of toUpperCase t0)) as [Heq|];
          [|exact Ht'].
        rewrite Heq in Hget. congruence.
      * intros t0 Ht0. rewrite obj_get_set.
        destruct (String.eqb_spec (toUpperCase t) (toUpperCase t0)); [eauto|].
        apply Hleg. apply elem_of_app in Ht0 as [?|Ht0]; [done|].
        apply list_elem_of_singleton in Ht0. congruence.
Qed.

Lemma loaded_types_usable files k :
  k ∈ ActionRegistry.getTypes
        (ActionRegistry.loadPlugins (World := World) (Some files)
           ActionRegistry.empty) ->
  k <> "".
Proof.
  intros Hk.
  apply types_loadPlugins in Hk as [Hk|Hk]; [inversion Hk|].
  apply list_elem_of_fmap in Hk as (f & Hf & _).
  destruct f as [cls|]; simpl in Hf; [|discriminate].
  destruct (String.eqb_spec (ActionClass.type cls) ""); simpl in Hf;
    [discriminate|].
  destruct (String.eqb (ActionClass.type cls) "unknown"); simpl in Hf;
    [discriminate|].
  congruence.
Qed.

(** X3. The object [ActionType] sends every key to a type that has
    this key: a registered type [t] is found under
    [t.toUpperCase().replace(/-/g, '_')], or another registered type
    with the same key is; every legacy type has an entry under its
    upper-case name; and a legacy type is the value of a key only when
    no registered type has that key, so that the second loop never
    replaces what a plugin has defined. No value is the empty string. *)
Theorem legacy_types_never_override files :
  let reg := ActionRegistry.loadPlugins (World := World) (Some files)
               ActionRegistry.empty in
  let table := ActionTypes.ActionType toUpperCase reg in
  (forall t, t ∈ ActionRegistry.getTypes reg ->
     exists t', ActionTypes.obj_get table (ActionTypes.key_of toUpperCase t) = Some t'
                /\ t' ∈ ActionRegistry.getTypes reg
                /\ ActionTypes.key_of toUpperCase t' = ActionTypes.key_of toUpperCase t)
  /\ (forall t, t ∈ ActionTypes.LEGACY_TYPES ->
        exists v, ActionTypes.obj_get table (toUpperCase t) = Some v
                  /\ v <> "")
  /\ (forall K v, ActionTypes.obj_get table K = Some v ->
        v <> ""
        /\ ((v ∈ ActionRegistry.getTypes reg /\ ActionTypes.key_of toUpperCase v = K)
            \/ (v ∈ ActionTypes.LEGACY_TYPES /\ toUpperCase v = K
                /\ forall t, t ∈ ActionRegistry.getTypes reg ->
                             ActionTypes.key_of toUpperCase t <> K))).
Proof.
  intros reg table.
  assert (Htyped : ActionTypes.typed toUpperCase (ActionRegistry.getTypes reg)
                     (ActionTypes.from_types toUpperCase
                        (ActionRegistry.getTypes reg))).
  { apply (from_types_typed _ [] []). split; [discriminate|].
    intros t Ht. inversion Ht. }
  assert (Hmerged : ActionTypes.merged toUpperCase (ActionRegistry.getTypes reg)
                      ActionTypes.LEGACY_TYPES table).
  { apply (with_legacy_merged _ _ []).
    - repeat constructor; discriminate.
    - destruct Htyped as [Hval Hkey]. split; [|split].
      + intros K v H. destruct (Hval K v H) as [Hin HK].
        split; [eapply loaded_types_usable; exact Hin | left; done].
      + intros t Ht. destruct (Hkey t Ht) as (t' & Ht').
        exists t'. split; [exact Ht' | apply (Hval _ _ Ht')].
      + intros t Ht. inversion Ht. }
  destruct Hmerged as (Hval & Hkey & Hleg). split; [|split].
  - intros t Ht. destruct (Hkey t Ht) as (t' & Ht' & Hin).
    exists t'. split; [exact Ht'|]. split; [exact Hin|].
    destruct (Hval _ _ Ht') as [_ [[_ ?]|(_ & _ & Hno)]]; [done|].
    exfalso. exact (Hno t Ht eq_refl).
  - intros t Ht. destruct (Hleg t Ht) as (v & Hv).
    exists v. split; [exact Hv | apply (Hval _ _ Hv)].
  - exact Hval.
Qed.
End ActionTypeFacts.

(** ** Handlers on elements and coordinates *)

Section HandlerFacts.
Context {World : Type}.
Variable toLowerCase : string -> string.
Implicit Types (p : Page.t World) (em : ElementMap) (a : Action).




(** The resolution of an element only looks for it. *)
Lemma getElement_lookups p em id w tr c w' tr' :
  BaseAction.getElement (PageLog.logged p) em id (w, tr) = (c, (w', tr')) ->
  exists lookups,
    tr' = tr ++ lookups /\ Forall (fun c => PageLog.is_lookup c = true) lookups.
Proof.
  assert (Hor : forall e value selector w tr c w' tr',
             BaseAction.or_query (PageLog.logged p) e value selector (w, tr)
             = (c, (w', tr')) ->
             exists lookups,
               tr' = tr ++ lookups
               /\ Forall (fun c => PageLog.is_lookup c = true) lookups).
  { intros e value selector w0 tr0 c0 w0' tr0'.
    unfold BaseAction.or_query, ret.
    destruct e as [h|]; [intros [= <- <- <-]; exists []; split;
                          [symmetry; apply app_nil_r | constructor]|].
    destruct value as [v|]; [|intros [= <- <- <-]; exists []; split;
                               [symmetry; apply app_nil_r | constructor]].
    destruct (String.eqb v ""); [intros [= <- <- <-]; exists []; split;
                                  [symmetry; apply app_nil_r | constructor]|].
    simpl. unfold PageLog.record. simpl.
    destruct (Page.query_selector p _ w0) as [r w1].
    intros [= <- <- <-]. eexists. split; [reflexivity|].
    repeat constructor. }
  assert (Hx : forall info w tr c w' tr',
             BaseAction.by_xpath (PageLog.logged p) info (w, tr)
             = (c, (w', tr')) ->
             exists lookups,
               tr' = tr ++ lookups
               /\ Forall (fun c => PageLog.is_lookup c = true) lookups).
  { intros info w0 tr0 c0 w0' tr0'. unfold BaseAction.by_xpath, ret.
    destruct (ElementInfo.xpath info) as [xp|];
      [|intros [= <- <- <-]; exists []; split;
        [symmetry; apply app_nil_r | constructor]].
    destruct (String.eqb xp ""); [intros [= <- <- <-]; exists []; split;
                                   [symmetry; apply app_nil_r | constructor]|].
    unfold try_catch, bind, ret. simpl. unfold PageLog.record. simpl.
    destruct (Page.locator_xpath p xp w0) as [[h|e] w1];
      intros [= <- <- <-]; eexists; (split; [reflexivity|]);
      repeat constructor. }
  unfold BaseAction.getElement, throw.
  destruct id as [id|]; [|intros [= <- <- <-]; exists []; split;
                           [symmetry; apply app_nil_r | constructor]].
  destruct (String.eqb id ""); [intros [= <- <- <-]; exists []; split;
                                 [symmetry; apply app_nil_r | constructor]|].
  destruct (em !! id) as [info|]; [|intros [= <- <- <-]; exists []; split;
                                     [symmetry; apply app_nil_r | constructor]].
  unfold bind.
  destruct (BaseAction.by_xpath _ info (w, tr)) as [c1 [w1 tr1]] eqn:H1.
  apply Hx in H1 as (l1 & -> & Hl1).
  destruct c1 as [e1|msg];
    [|intros [= <- <- <-]; exists l1; split; [reflexivity | exact Hl1]].
  destruct (BaseAction.or_query _ e1 (ElementInfo.name info) _ _)
    as [c2 [w2 tr2]] eqn:H2.
  apply Hor in H2 as (l2 & -> & Hl2).
  destruct c2 as [e2|msg];
    [|intros [= <- <- <-]; exists (l1 ++ l2); split;
      [symmetry; apply app_assoc | apply Forall_app; done]].
  destruct (BaseAction.or_query _ e2 (ElementInfo.aria_label info) _ _)
    as [c3 [w3 tr3]] eqn:H3.
  apply Hor in H3 as (l3 & -> & Hl3).
  destruct c3 as [e3|msg];
    [|intros [= <- <- <-]; exists (l1 ++ l2 ++ l3); split;
      [rewrite !app_assoc; reflexivity | rewrite !Forall_app; done]].
  destruct (BaseAction.or_query _ e3 (BaseAction.input_type_of info) _ _)
    as [c4 [w4 tr4]] eqn:H4.
  apply Hor in H4 as (l4 & -> & Hl4).
  assert (Hall : Forall (fun c => PageLog.is_lookup c = true)
                   (l1 ++ l2 ++ l3 ++ l4))
    by (rewrite !Forall_app; done).
  destruct c4 as [[h|]|msg]; unfold ret, throw;
    intros [= <- <- <-]; exists (l1 ++ l2 ++ l3 ++ l4);
    (split; [rewrite !app_assoc; reflexivity | exact Hall]).
Qed.
End HandlerFacts.

Section HandlerFacts2.
Context {World : Type}.
Variable toLowerCase : string -> string.
Implicit Types (p : Page.t World) (em : ElementMap) (a : Action).

(** X5. [input_text] never throws. On the page it only looks for the
    element, fills it, presses Enter and waits 500 ms: it never clicks,
    hovers, moves the mouse or navigates. When it reports success it
    has, once the element is found, emptied the field, then filled it
    with the text (the empty string when the action has none), and
    then pressed Enter and waited 500 ms exactly when the descriptor
    of the element looks like a search input. A failure carries the
    message of what went wrong. *)
Theorem input_text_clears_types_submits p em a w :
  exists o w' tr,
    ActionClass.execute (InputText.InputTextAction toLowerCase)
      (PageLog.logged p) em a (w, []) = (Returns o, (w', tr))
    /\ Forall (fun c => PageLog.is_typing c = true) tr
    /\ (Outcome.success o = true ->
        exists lookups h,
          Forall (fun c => PageLog.is_lookup c = true) lookups
          /\ tr = lookups
                  ++ [PageLog.Fill h ""; PageLog.Fill h (str_or (text a) "")]
                  ++ (if InputText.isSearchInput toLowerCase
                           (InputText.info_of em (element_id a))
                      then [PageLog.KeyboardPress "Enter";
                            PageLog.WaitForTimeout 500]
                      else []))
    /\ (Outcome.success o = false -> is_Some (Outcome.error o)).
Proof.
  assert (Htyping : forall l, Forall (fun c => PageLog.is_lookup c = true) l ->
                              Forall (fun c => PageLog.is_typing c = true) l).
  { intros l Hl. eapply Forall_impl; [exact Hl|].
    intros [] H; simpl in *; done. }
  simpl. unfold try_catch, bind.
  destruct (BaseAction.getElement _ em (element_id a) (w, []))
    as [c [w1 tr1]] eqn:Hget.
  apply getElement_lookups in Hget as (lookups & -> & Hlook). simpl.
  destruct c as [h|msg]; unfold ret; simpl.
  2: { eexists _, _, _. split; [reflexivity|]. split; [auto|].
       split; [discriminate | eauto]. }
  unfold PageLog.record; simpl.
  destruct (Page.fill p h "" w1) as [[[]|msg] w2]; simpl.
  2: { eexists _, _, _. split; [reflexivity|].
       split; [apply Forall_app; split; [auto | repeat constructor]|].
       split; [discriminate | eauto]. }
  destruct (Page.fill p h (str_or (text a) "") w2) as [[[]|msg] w3]; simpl.
  2: { eexists _, _, _. split; [reflexivity|].
       split; [rewrite !Forall_app; split; [split|]; [auto|..];
                repeat constructor|].
       split; [discriminate | eauto]. }
  destruct (InputText.isSearchInput toLowerCase
              (InputText.info_of em (element_id a))) eqn:Hsearch; simpl.
  2: { eexists _, _, _. split; [reflexivity|].
       split; [rewrite !Forall_app; split; [split|]; [auto|..];
                repeat constructor|].
       split; [|discriminate].
       intros _. exists lookups, h. split; [exact Hlook|].
       rewrite <- ?app_assoc. reflexivity. }
  destruct (Page.keyboard_press p "Enter" w3) as [[[]|msg] w4]; simpl.
  2: { eexists _, _, _. split; [reflexivity|].
       split; [rewrite !Forall_app; repeat split; [auto|..];
                repeat constructor|].
       split; [discriminate | eauto]. }
  destruct (Page.waitForTimeout p 500 w4) as [[[]|msg] w5]; simpl.
  2: { eexists _, _, _. split; [reflexivity|].
       split; [rewrite !Forall_app; repeat split; [auto|..];
                repeat constructor|].
       split; [discriminate | eauto]. }
  eexists _, _, _. split; [reflexivity|].
  split; [rewrite !Forall_app; repeat split; [auto|..]; repeat constructor|].
  split; [|discriminate].
  intros _. exists lookups, h. split; [exact Hlook|].
  rewrite <- !app_assoc. reflexivity.
Qed.

End HandlerFacts2.

(** ** The session identifier *)

Section SessionIdFacts.
Import SessionId.

Lemma all_from_spec first count check n :
  all_from first count check = true ->
  first <= n < first + count ->
  check n = true.
Proof.
  unfold all_from. rewrite forallb_forall. intros Hall Hn.
  replace n with (first + Z.of_nat (Z.to_nat (n - first))) by lia.
  apply Hall, in_seq. lia.
Qed.

Lemma string_app_length (s1 s2 : string) :
  String.length (s1 +:+ s2) = (String.length s1 + String.length s2)%nat.
Proof.
  induction s1 as [|c s1 IH]; [reflexivity|].
  change (String c s1 +:+ s2) with (String c (s1 +:+ s2)).
  simpl. rewrite IH. reflexivity.
Qed.

Lemma all_chars_app p (s1 s2 : string) :
  Agent.all_chars p (s1 +:+ s2)
  = Agent.all_chars p s1 && Agent.all_chars p s2.
Proof.
  induction s1 as [|c s1 IH]; [reflexivity|].
  change (String c s1 +:+ s2) with (String c (s1 +:+ s2)).
  simpl. rewrite IH. apply andb_assoc.
Qed.

Lemma string_app_inj (s1 s1' s2 s2' : string) :
  String.length s1 = String.length s1' ->
  s1 +:+ s2 = s1' +:+ s2' -> s1 = s1' /\ s2 = s2'.
Proof.
  revert s1'. induction s1 as [|c s1 IH]; intros [|c' s1']; try discriminate.
  - auto.
  - intros [= Hlen].
    change (String c (s1 +:+ s2) = String c' (s1' +:+ s2') -> 
            String c s1 = String c' s1' /\ s2 = s2').
    intros [= -> Happ]. destruct (IH _ Hlen Happ) as [-> ->]. auto.
Qed.

Lemma string_app_assoc (s1 s2 s3 : string) :
  (s1 +:+ s2) +:+ s3 = s1 +:+ s2 +:+ s3.
Proof.
  induction s1 as [|c s1 IH]; [reflexivity|].
  change (String c (s1 +:+ s2 +:+ s3)) with (String c s1 +:+ s2 +:+ s3) in *.
  change ((String c s1 +:+ s2) +:+ s3) with (String c ((s1 +:+ s2) +:+ s3)).
  rewrite IH. reflexivity.
Qed.

Lemma string_get_app (s1 s2 : string) i :
  String.get i (s1 +:+ s2)
  = if (i <? String.length s1)%nat then String.get i s1
    else String.get (i - String.length s1) s2.
Proof.
  revert i. induction s1 as [|c s1 IH]; intros i.
  - change ("" +:+ s2) with s2. simpl. rewrite Nat.sub_0_r. reflexivity.
  - change (String c s1 +:+ s2) with (String c (s1 +:+ s2)).
    destruct i as [|i]; [reflexivity|]. simpl. rewrite IH. reflexivity.
Qed.

Lemma all_chars_get p s i c :
  Agent.all_chars p s = true -> String.get i s = Some c -> p c = true.
Proof.
  revert i. induction s as [|c0 s IH]; intros i; simpl; [discriminate|].
  intros [Hc Hs]%andb_true_iff.
  destruct i as [|i]; [intros [= <-]; exact Hc | apply IH, Hs].
Qed.

Lemma all_chars_of_get p s :
  (forall i c, String.get i s = Some c -> p c = true) ->
  Agent.all_chars p s = true.
Proof.
  induction s as [|c0 s IH]; intros H; simpl; [reflexivity|].
  rewrite (H O c0 eq_refl), IH; [reflexivity|].
  intros i c Hget. exact (H (S i) c Hget).
Qed.

Lemma all_chars_weaken (p q : ascii -> bool) s :
  (forall c, p c = true -> q c = true) ->
  Agent.all_chars p s = true -> Agent.all_chars q s = true.
Proof.
  intros Hpq. induction s as [|c s IH]; simpl; [done|].
  intros [Hc Hs]%andb_true_iff. rewrite (Hpq _ Hc), (IH Hs). reflexivity.
Qed.

Lemma year_digits y :
  1000 <= y <= 9999 ->
  String.length (pretty y) = 4%nat
  /\ Agent.all_chars is_digit (pretty y) = true.
Proof.
  intros Hy.
  assert (H : all_from 1000 9000
                (fun n => (String.length (pretty n) =? 4)%nat
                          && Agent.all_chars is_digit (pretty n)) = true)
    by (vm_compute; reflexivity).
  apply (all_from_spec _ _ _ y) in H; [|lia].
  apply andb_true_iff in H as [Hlen Hd]. apply Nat.eqb_eq in Hlen. auto.
Qed.

Lemma two_digits n :
  0 <= n <= 99 ->
  String.length (two n) = 2%nat /\ Agent.all_chars is_digit (two n) = true.
Proof.
  intros Hn.
  assert (H : all_from 0 100
                (fun n => (String.length (two n) =? 2)%nat
                          && Agent.all_chars is_digit (two n)) = true)
    by (vm_compute; reflexivity).
  apply (all_from_spec _ _ _ n) in H; [|lia].
  apply andb_true_iff in H as [Hlen Hd]. apply Nat.eqb_eq in Hlen. auto.
Qed.

Lemma two_inj n m :
  0 <= n <= 99 -> 0 <= m <= 99 -> two n = two m -> n = m.
Proof.
  intros Hn Hm Heq.
  assert (H : all_from 0 100
                (fun n => all_from 0 100
                            (fun m => implb (String.eqb (two n) (two m))
                                        (n =? m))) = true)
    by (vm_compute; reflexivity).
  apply (all_from_spec _ _ _ n) in H; [|lia].
  apply (all_from_spec _ _ _ m) in H; [|lia].
  rewrite Heq, String.eqb_refl in H. simpl in H. lia.
Qed.

Lemma digit_is_safe c : is_digit c = true -> Agent.in_safe_class c = true.
Proof.
  unfold is_digit, Agent.in_safe_class.
  intros H. rewrite H. rewrite ?orb_true_r. reflexivity.
Qed.

(** The identifier is made of characters that a safe title keeps. *)
Lemma session_id_safe t :
  in_range t ->
  Agent.all_chars Agent.in_safe_class (generateSessionId t) = true.
Proof.
  intros (Hy & Hmo & Hd & Hh & Hmi & Hs).
  destruct (year_digits _ Hy) as [_ Dy].
  destruct (two_digits (month t + 1)) as [_ Dmo]; [lia|].
  destruct (two_digits (date t)) as [_ Dd]; [lia|].
  destruct (two_digits (hours t)) as [_ Dh]; [lia|].
  destruct (two_digits (minutes t)) as [_ Dmi]; [lia|].
  destruct (two_digits (seconds t)) as [_ Ds]; [lia|].
  pose proof (fun s => all_chars_weaken _ _ s digit_is_safe) as Hsafe.
  unfold generateSessionId. rewrite !all_chars_app.
  rewrite (Hsafe _ Dy), (Hsafe _ Dmo), (Hsafe _ Dd), (Hsafe _ Dh),
    (Hsafe _ Dmi), (Hsafe _ Ds).
  reflexivity.
Qed.

(** X7. For a date of the years 1000 to 9999 the session identifier
    has the form YYYYMMDD_HHMMSS: fifteen characters, the ninth an
    underscore, the others decimal digits. Two such dates have the
    same identifier only when they agree in year, month, day, hour,
    minute and second, so that sessions created in different seconds
    never share an identifier (and two created within one second
    always do). *)
Theorem session_id_is_a_timestamp t :
  in_range t ->
  String.length (generateSessionId t) = 15%nat
  /\ String.get 8 (generateSessionId t) = Some "_"%char
  /\ (forall i c, String.get i (generateSessionId t) = Some c ->
                  i <> 8%nat -> is_digit c = true)
  /\ (forall t', in_range t' ->
        (generateSessionId t = generateSessionId t' <-> t = t')).
Proof.
  intros (Hy & Hmo & Hd & Hh & Hmi & Hs).
  destruct (year_digits _ Hy) as [Ly Dy].
  destruct (two_digits (month t + 1)) as [Lmo Dmo]; [lia|].
  destruct (two_digits (date t)) as [Ld Dd]; [lia|].
  destruct (two_digits (hours t)) as [Lh Dh]; [lia|].
  destruct (two_digits (minutes t)) as [Lmi Dmi]; [lia|].
  destruct (two_digits (seconds t)) as [Ls Ds]; [lia|].
  set (day := pretty (fullYear t) +:+ two (month t + 1) +:+ two (date t)).
  set (time := two (hours t) +:+ two (minutes t) +:+ two (seconds t)).
  assert (Hid : generateSessionId t = day +:+ "_" +:+ time).
  { unfold generateSessionId, day, time.
    rewrite <- !string_app_assoc. reflexivity. }
  assert (Lday : String.length day = 8%nat).
  { unfold day. rewrite !string_app_length, Ly, Lmo, Ld. reflexivity. }
  assert (Ltime : String.length time = 6%nat).
  { unfold time. rewrite !string_app_length, Lh, Lmi, Ls. reflexivity. }
  assert (Dday : Agent.all_chars is_digit day = true).
  { unfold day. rewrite !all_chars_app, Dy, Dmo, Dd. reflexivity. }
  assert (Dtime : Agent.all_chars is_digit time = true).
  { unfold time. rewrite !all_chars_app, Dh, Dmi, Ds. reflexivity. }
  split; [|split; [|split]].
  - rewrite Hid, !string_app_length, Lday, Ltime. reflexivity.
  - rewrite Hid, string_get_app, Lday. reflexivity.
  - intros i c. rewrite Hid, string_get_app, Lday.
    destruct (i <? 8)%nat eqn:Hi.
    + intros Hget _. exact (all_chars_get _ _ _ _ Dday Hget).
    + apply Nat.ltb_ge in Hi. intros Hget Hne.
      destruct (i - 8)%nat as [|j] eqn:Hj; [lia|].
      change (String.get (S j) ("_" +:+ time)) with (String.get j time)
        in Hget.
      exact (all_chars_get _ _ _ _ Dtime Hget).
  - intros t' (Hy' & Hmo' & Hd' & Hh' & Hmi' & Hs').
    split; [|intros <-; reflexivity].
    destruct (year_digits _ Hy') as [Ly' _].
    destruct (two_digits (month t' + 1)) as [Lmo' _]; [lia|].
    destruct (two_digits (date t')) as [Ld' _]; [lia|].
    destruct (two_digits (hours t')) as [Lh' _]; [lia|].
    destruct (two_digits (minutes t')) as [Lmi' _]; [lia|].
    unfold generateSessionId. intros Heq.
    apply string_app_inj in Heq as [Ey Heq]; [|congruence].
    apply string_app_inj in Heq as [Emo Heq]; [|congruence].
    apply string_app_inj in Heq as [Ed Heq]; [|congruence].
    apply string_app_inj in Heq as [_ Heq]; [|reflexivity].
    apply string_app_inj in Heq as [Eh Heq]; [|congruence].
    apply string_app_inj in Heq as [Emi Es]; [|congruence].
    apply (inj pretty) in Ey.
    apply two_inj in Emo; [|lia..]. apply two_inj in Ed; [|lia..].
    apply two_inj in Eh; [|lia..]. apply two_inj in Emi; [|lia..].
    apply two_inj in Es; [|lia..].
    destruct t, t'; simpl in *. f_equal; lia.
Qed.
End SessionIdFacts.

(** ** The default output file *)

Section DefaultOutputFacts.
Context {World : Type}.
Variable env : @Agent.Env World.
Implicit Types (s : @Agent.State World).

Lemma safeTitle_fixed title :
  Agent.all_chars Agent.in_safe_class title = true ->
  Agent.safeTitle title = title.
Proof.
  unfold Agent.safeTitle, Agent.toLowerCase, Agent.replace_outside_class.
  induction title as [|c title IH]; simpl; [reflexivity|].
  intros [Hc Htitle]%andb_true_iff. f_equal; [|exact (IH Htitle)].
  revert Hc. destruct c as [[] [] [] [] [] [] [] []]; vm_compute; congruence.
Qed.

(** X8. The making of a safe title is idempotent, and a title made
    of the characters a to z, 0 to 9, [_] and [-] is used as it is. So
    for a session that has no title, neither on the agent nor in the
    log, and whose identifier is a timestamp of [generateSessionId],
    the output file is output_<id>_<id> with the extension of the
    format, in the output directory: the default title passes through
    unchanged and the identifier appears twice. *)
Theorem default_output_file :
  (forall title,
      Agent.safeTitle (Agent.safeTitle title) = Agent.safeTitle title)
  /\ (forall title,
        Agent.all_chars Agent.in_safe_class title = true ->
        Agent.safeTitle title = title)
  /\ (forall s t extension,
        SessionId.in_range t ->
        Agent.sessionId s = SessionId.generateSessionId t ->
        truthy_str (Agent.outputTitle s) = false ->
        Forall (fun e => truthy_str (output_title (LogEntry.action e))
                         = false) (Agent.actionLog s) ->
        Agent.output_path s extension
        = "data/output/output_" +:+ Agent.sessionId s +:+ "_"
            +:+ Agent.sessionId s +:+ extension).
Proof.
  split; [|split].
  - intros title. apply safeTitle_fixed, safeTitle_chars.
  - exact safeTitle_fixed.
  - intros s t extension Ht Hid Htitle Hlog.
    assert (Hchosen : Agent.chosen_title s = "output_" +:+ Agent.sessionId s).
    { unfold Agent.chosen_title. rewrite (str_or_falsy _ _ Htitle).
      apply str_or_falsy.
      destruct (List.find Agent.has_output (Agent.actionLog s)) as [e|] eqn:He;
        [|reflexivity].
      apply find_some in He as [Hin _]. simpl.
      rewrite Forall_forall in Hlog. apply Hlog. apply list_elem_of_In, Hin. }
    unfold Agent.output_path. rewrite Hchosen.
    rewrite safeTitle_fixed; [rewrite <- !string_app_assoc; reflexivity|].
    rewrite all_chars_app. simpl. rewrite Hid.
    apply session_id_safe, Ht.
Qed.
End DefaultOutputFacts.

(** ** Cookies *)

Section CookieFacts.
Context {World : Type}.
Variable toLowerCase : string -> string.

Lemma prefix_refl s : String.prefix s s = true.
Proof.
  induction s as [|c s IH]; simpl; [reflexivity|].
  destruct (ascii_dec c c); [exact IH | done].
Qed.

Lemma prefix_trans s1 s2 s3 :
  String.prefix s1 s2 = true -> String.prefix s2 s3 = true ->
  String.prefix s1 s3 = true.
Proof.
  revert s2 s3. induction s1 as [|c1 s1 IH]; intros s2 s3;
    [intros _ _; destruct s3; reflexivity|].
  destruct s2 as [|c2 s2]; [discriminate|].
  destruct s3 as [|c3 s3]; [discriminate|]. simpl.
  destruct (ascii_dec c1 c2) as [->|]; [|discriminate].
  destruct (ascii_dec c2 c3) as [->|]; [|discriminate].
  apply IH.
Qed.

Lemma includes_prefix short long s :
  String.prefix short long = true ->
  Str.includes long s = true -> Str.includes short s = true.
Proof.
  intros Hpre. induction s as [|c s IH]; cbn [Str.includes].
  - rewrite !orb_false_r. apply prefix_trans, Hpre.
  - intros [H|H]%orb_true_iff; apply orb_true_iff.
    + left. exact (prefix_trans _ _ _ Hpre H).
    + right. exact (IH H).
Qed.

Lemma includes_empty s : Str.includes "" s = true.
Proof. destruct s; reflexivity. Qed.

Lemma before_prefix separator s :
  String.prefix (Str.before separator s) s = true.
Proof.
  induction s as [|c s IH]; simpl; [reflexivity|].
  destruct (Ascii.eqb c separator); [reflexivity|].
  destruct (ascii_dec c c); [exact IH | done].
Qed.

(** X9. Whether a cookie file is loaded is decided by the first label
    of its name alone: the short name (the lower-cased name up to its
    first dot) is a prefix of the domain (the lower-cased name without
    its first '.json'), so that the test on the domain adds nothing,
    and the file matches exactly when the lower-cased goal and URL
    contain the short name. A file whose short name is empty matches
    every goal. *)
Theorem cookie_file_matches_by_short_name goal url file :
  String.prefix (Cookies.shortName toLowerCase file)
    (Cookies.domain toLowerCase file) = true
  /\ Cookies.matches toLowerCase goal url file
     = Str.includes (Cookies.shortName toLowerCase file)
         (Cookies.searchText toLowerCase goal url)
  /\ (Cookies.shortName toLowerCase file = "" ->
      Cookies.matches toLowerCase goal url file = true).
Proof.
  assert (Hpre : String.prefix (Cookies.shortName toLowerCase file)
                   (Cookies.domain toLowerCase file) = true)
    by apply before_prefix.
  assert (Heq : Cookies.matches toLowerCase goal url file
                = Str.includes (Cookies.shortName toLowerCase file)
                    (Cookies.searchText toLowerCase goal url)).
  { unfold Cookies.matches.
    destruct (Str.includes (Cookies.domain toLowerCase file) _) eqn:Hd;
      [|reflexivity].
    symmetry. exact (includes_prefix _ _ _ Hpre Hd). }
  split; [exact Hpre|]. split; [exact Heq|].
  intros Hshort. rewrite Heq, Hshort. apply includes_empty.
Qed.

Lemma js_or_truthy a b : truthy b = true -> truthy (js_or a b) = true.
Proof. unfold js_or. destruct (truthy a) eqn:Ha; auto. Qed.

Lemma js_or_idem a b : js_or (js_or a b) b = js_or a b.
Proof.
  unfold js_or. destruct (truthy a) eqn:Ha; [rewrite Ha; reflexivity|].
  destruct (truthy b); reflexivity.
Qed.

(** X10. The cookie handed to the browser always has a path and an
    expiry that are truthy (['/'] and [-1] when the file gives none),
    and its [sameSite] is one of 'None', 'Lax' and 'Strict'. The
    conversion is not idempotent: it only knows the lower-case names
    of the browser extensions, so that a cookie that is already in the
    format of Playwright keeps its seven other properties but comes out
    with [sameSite] 'None', whatever it was. *)
Theorem cookie_conversion c n :
  Cookies.normalize c = Returns n ->
  truthy (Cookies.field n "path") = true
  /\ truthy (Cookies.field n "expires") = true
  /\ (exists s, Cookies.field n "sameSite" = JStr s
                /\ (s = "None" \/ s = "Lax" \/ s = "Strict"))
  /\ exists n',
       Cookies.normalize n = Returns n'
       /\ Cookies.field n' "sameSite" = JStr "None"
       /\ forall name, name <> "sameSite" ->
                       Cookies.field n' name = Cookies.field n name.
Proof.
  intros Hn.
  assert (Hobj : n = JObj
           [ ("name", Cookies.field c "name");
             ("value", Cookies.field c "value");
             ("domain", Cookies.field c "domain");
             ("path", js_or (Cookies.field c "path") (JStr "/"));
             ("expires",
              js_or (Cookies.field c "expires")
                (js_or (Cookies.field c "expirationDate") (JNum (-1))));
             ("httpOnly", js_or (Cookies.field c "httpOnly") (JBool false));
             ("secure", js_or (Cookies.field c "secure") (JBool false));
             ("sameSite",
              JStr (Cookies.sameSite_of (Cookies.field c "sameSite"))) ]).
  { destruct c; try discriminate Hn; injection Hn as <-; reflexivity. }
  clear Hn. subst n.
  assert (Hsame : exists s,
             Cookies.sameSite_of (Cookies.field c "sameSite") = s
             /\ (s = "None" \/ s = "Lax" \/ s = "Strict")).
  { unfold Cookies.sameSite_of.
    destruct (Cookies.field c "sameSite") as [| | | |s| |]; eauto.
    destruct (String.eqb s "no_restriction"); [eauto|].
    destruct (String.eqb s "lax"); [eauto|].
    destruct (String.eqb s "strict"); eauto. }
  split; [apply js_or_truthy; reflexivity|].
  split; [apply js_or_truthy, js_or_truthy; reflexivity|].
  split.
  { destruct Hsame as (s & Hs & Hcases). exists s. simpl. rewrite Hs. auto. }
  set (n := JObj _).
  assert (Hpath : Cookies.field n "path"
                  = js_or (Cookies.field c "path") (JStr "/"))
    by reflexivity.
  assert (Hexpires : Cookies.field n "expires"
                     = js_or (Cookies.field c "expires")
                         (js_or (Cookies.field c "expirationDate")
                            (JNum (-1))))
    by reflexivity.
  assert (Hdate : Cookies.field n "expirationDate" = JUndefined)
    by reflexivity.
  assert (HhttpOnly : Cookies.field n "httpOnly"
                      = js_or (Cookies.field c "httpOnly") (JBool false))
    by reflexivity.
  assert (Hsecure : Cookies.field n "secure"
                    = js_or (Cookies.field c "secure") (JBool false))
    by reflexivity.
  assert (Hsite : Cookies.field n "sameSite"
                  = JStr (Cookies.sameSite_of (Cookies.field c "sameSite")))
    by reflexivity.
  eexists. split; [reflexivity|]. split.
  - change (JStr (Cookies.sameSite_of (Cookies.field n "sameSite"))
            = JStr "None").
    rewrite Hsite. destruct Hsame as (s & -> & [->|[->| ->]]); reflexivity.
  - intros name Hname. unfold Cookies.field at 1. cbn [List.find fst snd].
    destruct (String.eqb_spec "name" name) as [<-|H1]; [reflexivity|].
    destruct (String.eqb_spec "value" name) as [<-|H2]; [reflexivity|].
    destruct (String.eqb_spec "domain" name) as [<-|H3]; [reflexivity|].
    destruct (String.eqb_spec "path" name) as [<-|H4].
    { rewrite Hpath. apply js_or_idem. }
    destruct (String.eqb_spec "expires" name) as [<-|H5].
    { rewrite Hexpires, Hdate. unfold js_or at 1.
      rewrite js_or_truthy by (apply js_or_truthy; reflexivity).
      reflexivity. }
    destruct (String.eqb_spec "httpOnly" name) as [<-|H6].
    { rewrite HhttpOnly. apply js_or_idem. }
    destruct (String.eqb_spec "secure" name) as [<-|H7].
    { rewrite Hsecure. apply js_or_idem. }
    destruct (String.eqb_spec "sameSite" name) as [<-|H8]; [done|].
    apply String.eqb_neq in H1, H2, H3, H4, H5, H6, H7, H8.
    unfold n, Cookies.field at 1. cbn [List.find fst snd].
    rewrite H1, H2, H3, H4, H5, H6, H7, H8. reflexivity.
Qed.

Section Preload.
Variable existsSync : Eff World bool.
Variable mkdirSync : Eff World unit.
Variable readdirSync : Eff World (list string).
Variable readFileSync : string -> Eff World string.
Variable JSON_parse : string -> Completion JsValue.
Variable addCookies : list JsValue -> Eff World unit.

Lemma load_total file :
  total (Cookies.load readFileSync JSON_parse addCookies file).
Proof.
  intros w. unfold Cookies.load, try_catch, bind, Cookies.lift_pure, ret.
  destruct (readFileSync file w) as [[cookieData|e] w1]; [|eauto].
  destruct (JSON_parse cookieData) as [rawCookies|e]; [|eauto].
  destruct rawCookies as [| | | | |[|c rest]|]; eauto.
  destruct (Cookies.normalize_all (c :: rest)) as [cookies|e]; [|eauto].
  destruct (addCookies cookies w1) as [[[]|e] w2]; eauto.
Qed.

Lemma each_file_total goal url files :
  total (Cookies.each_file toLowerCase readFileSync JSON_parse addCookies
           goal url files).
Proof.
  induction files as [|file files IH]; intros w; simpl.
  - unfold ret. eauto.
  - unfold bind.
    destruct (Cookies.matches toLowerCase goal url file).
    + destruct (load_total file w) as ([] & w1 & ->). apply IH.
    + unfold ret. apply IH.
Qed.

Lemma each_file_unmatched goal url files w :
  Forall (fun file => Cookies.matches toLowerCase goal url file = false)
    files ->
  Cookies.each_file toLowerCase readFileSync JSON_parse addCookies
    goal url files w
  = (Returns tt, w).
Proof.
  induction 1 as [|file files Hfile _ IH]; simpl; [reflexivity|].
  unfold bind. rewrite Hfile. exact IH.
Qed.

(** X11. Loading the cookies never stops a run on account of a cookie
    file: when the cookies directory can be tested, created and
    listed, [preloadCookiesFromGoal] returns, whatever reading a file,
    parsing it or adding its cookies to the browser does, since all
    of this happens inside the [try] of the loop. When a directory is
    missing it is created and nothing is read; and when no file whose
    name ends in '.json' matches the goal and the URL, nothing is read
    or added either: the world is as the listing left it. *)
Theorem cookie_files_never_stop_the_run goal url :
  let preload :=
    Cookies.preloadCookiesFromGoal toLowerCase existsSync mkdirSync
      readdirSync readFileSync JSON_parse addCookies goal url in
  total existsSync -> total mkdirSync -> total readdirSync ->
  total preload
  /\ (forall w w1,
        existsSync w = (Returns false, w1) ->
        preload w = mkdirSync w1)
  /\ (forall w w1 w2 files,
        existsSync w = (Returns true, w1) ->
        readdirSync w1 = (Returns files, w2) ->
        Forall (fun file =>
                  Str.endsWith ".json" file = true ->
                  Cookies.matches toLowerCase goal url file = false)
          files ->
        preload w = (Returns tt, w2)).
Proof.
  intros preload Hexists Hmkdir Hreaddir. subst preload.
  split; [|split].
  - intros w. unfold Cookies.preloadCookiesFromGoal, bind.
    destruct (Hexists w) as (present & w1 & ->).
    destruct present; simpl; [|apply Hmkdir].
    destruct (Hreaddir w1) as (files & w2 & ->).
    destruct (List.filter _ files) as [|file cookieFiles];
      [unfold ret; eauto|].
    apply each_file_total.
  - intros w w1 Hw. unfold Cookies.preloadCookiesFromGoal, bind.
    rewrite Hw. reflexivity.
  - intros w w1 w2 files Hw Hw1 Hfiles.
    unfold Cookies.preloadCookiesFromGoal, bind. rewrite Hw. simpl.
    rewrite Hw1.
    assert (Hnone : Forall
                      (fun file =>
                         Cookies.matches toLowerCase goal url file = false)
                      (List.filter (Str.endsWith ".json") files)).
    { apply Forall_forall. intros file Hin.
      apply list_elem_of_In, filter_In in Hin as [Hin Hjson].
      rewrite Forall_forall in Hfiles.
      apply Hfiles; [apply list_elem_of_In, Hin | exact Hjson]. }
    destruct (List.filter _ files) as [|file cookieFiles]; [reflexivity|].
    apply each_file_unmatched, Hnone.
Qed.
End Preload.
End CookieFacts.

(** ** The command line *)

Section CliFacts.

Lemma nonFlagArgs_from pre : forall args,
  concat (imap (fun i arg =>
                  if Cli.is_non_flag (pre ++ args) (length pre + i) arg
                  then [arg] else []) args)
  = Cli.scan (last pre) args.
Proof.
  intros args. revert pre.
  induction args as [|arg rest IH]; intros pre; [reflexivity|].
  rewrite imap_cons. cbn [concat Cli.scan]. f_equal.
  - unfold Cli.is_non_flag.
    destruct (Str.startsWith "--" arg); [reflexivity|].
    rewrite Nat.add_0_r.
    destruct pre as [|p pre _] using rev_ind.
    + reflexivity.
    + rewrite last_snoc, length_app. simpl.
      replace (length pre + 1 - 1)%nat with (length pre) by lia.
      replace (0 <? length pre + 1)%nat with true
        by (symmetry; apply Nat.ltb_lt; lia).
      rewrite <- app_assoc. simpl.
      rewrite list_lookup_middle by reflexivity. simpl.
      destruct (bool_decide (Some p = Some "--llm")); reflexivity.
  - specialize (IH (pre ++ [arg])).
    rewrite last_snoc, length_app in IH. simpl in IH.
    rewrite <- IH. f_equal. apply imap_ext. intros i x _. simpl.
    rewrite <- app_assoc. simpl.
    replace (length pre + 1 + i)%nat with (length pre + S i)%nat by lia.
    reflexivity.
Qed.

Lemma nonFlagArgs_scan args : Cli.nonFlagArgs args = Cli.scan None args.
Proof. exact (nonFlagArgs_from [] args). Qed.

Lemma scan_sublist previous args : Cli.scan previous args `sublist_of` args.
Proof.
  revert previous. induction args as [|arg rest IH]; intros previous; simpl.
  - constructor.
  - destruct (Str.startsWith "--" arg); simpl;
      [apply sublist_cons, IH|].
    destruct (bool_decide (previous = Some "--llm")); simpl;
      [apply sublist_cons, IH | apply sublist_skip, IH].
Qed.

Lemma scan_no_flag previous args :
  Forall (fun word => Str.startsWith "--" word = false)
    (Cli.scan previous args).
Proof.
  revert previous. induction args as [|arg rest IH]; intros previous; simpl.
  - constructor.
  - destruct (Str.startsWith "--" arg) eqn:Hflag; simpl; [apply IH|].
    destruct (bool_decide (previous = Some "--llm")); simpl; [apply IH|].
    constructor; [exact Hflag | apply IH].
Qed.



Lemma indexOf_lookup x args i :
  Cli.indexOf x args = Some i -> args !! i = Some x.
Proof.
  revert i. induction args as [|arg rest IH]; intros i; simpl; [discriminate|].
  destruct (String.eqb_spec arg x) as [->|_].
  - intros [= <-]. reflexivity.
  - destruct (Cli.indexOf x rest) as [j|]; simpl; [|discriminate].
    intros [= <-]. simpl. apply IH. reflexivity.
Qed.

(** X12. What [main] makes of the command line. It prints the usage
    and exits with code 1 exactly when there is no argument or the
    first one is '--help' or '-h'. Otherwise the agent is headless
    exactly when '--headless' is given and quiet exactly when
    '--quiet' is; the provider is the default or one of the arguments,
    and it is the default when '--llm' is not given; and the URL and
    the words of the goal are arguments of the command line, in their
    order, none of them starting with '--': the words of the goal are
    all the arguments kept by the filter, the URL being 'about:blank',
    or all but the first, which starts with 'http://' or 'https://'
    and is the URL. *)
Theorem command_line_is_split defaultProvider args :
  (Cli.parse defaultProvider args = Cli.Usage
   <-> args = [] \/ head args = Some "--help" \/ head args = Some "-h")
  /\ (forall llmProvider url goal headless verbose,
        Cli.parse defaultProvider args
        = Cli.Run llmProvider url goal headless verbose ->
        (headless = true <-> "--headless" ∈ args)
        /\ (verbose = false <-> "--quiet" ∈ args)
        /\ (llmProvider = defaultProvider \/ llmProvider ∈ args)
        /\ ("--llm" ∉ args -> llmProvider = defaultProvider)
        /\ exists words,
             goal = String.concat " " words
             /\ Forall (fun word => Str.startsWith "--" word = false) words
             /\ ((url = "about:blank" /\ words = Cli.nonFlagArgs args)
                 \/ (Cli.is_url url = true
                     /\ url :: words = Cli.nonFlagArgs args))
             /\ Cli.nonFlagArgs args `sublist_of` args).
Proof.
  split.
  - destruct args as [|first rest]; simpl; [tauto|].
    destruct (String.eqb_spec first "--help") as [->|Hhelp]; simpl;
      [tauto|].
    destruct (String.eqb_spec first "-h") as [->|Hh]; simpl; [tauto|].
    destruct (Cli.target _). split; [discriminate|].
    intros [?|[[= ?]|[= ?]]]; congruence.
  - intros llmProvider url goal headless verbose.
    destruct args as [|first rest]; [intros [=]|].
    unfold Cli.parse.
    destruct (String.eqb first "--help" || String.eqb first "-h");
      [intros [=]|].
    set (args := first :: rest).
    destruct (Cli.target (Cli.nonFlagArgs args)) as [url' goal'] eqn:Htarget.
    intros [= <- <- <- <- <-].
    split; [apply bool_decide_eq_true|]. split.
    { rewrite negb_false_iff. apply bool_decide_eq_true. }
    assert (Hprovider : (Cli.llmProvider defaultProvider args
                         = defaultProvider
                         \/ Cli.llmProvider defaultProvider args ∈ args)
                        /\ ("--llm" ∉ args ->
                            Cli.llmProvider defaultProvider args
                            = defaultProvider)).
    { unfold Cli.llmProvider.
      destruct (Cli.indexOf "--llm" args) as [i|] eqn:Hi; [|auto].
      split.
      - destruct (args !! (i + 1)%nat) as [v|] eqn:Hv; simpl; [|auto].
        destruct (String.eqb v ""); [auto|].
        right. eapply list_elem_of_lookup_2. exact Hv.
      - intros Hno. exfalso. apply Hno.
        eapply list_elem_of_lookup_2, indexOf_lookup, Hi. }
    split; [apply Hprovider|]. split; [apply Hprovider|].
    pose proof (scan_no_flag None args) as Hwords.
    pose proof (scan_sublist None args) as Hsub.
    rewrite <- nonFlagArgs_scan in Hwords, Hsub.
    unfold Cli.target in Htarget.
    destruct (Cli.nonFlagArgs args) as [|firstArg others] eqn:Hfilter.
    + injection Htarget as <- <-. exists [].
      split; [reflexivity|]. split; [constructor|].
      split; [left; split; reflexivity | exact Hsub].
    + destruct (Cli.is_url firstArg) eqn:Hurl; injection Htarget as <- <-.
      * exists others. apply Forall_cons in Hwords as [_ Hwords].
        split; [reflexivity|]. split; [exact Hwords|].
        split; [right; split; [exact Hurl | reflexivity] | exact Hsub].
      * exists (firstArg :: others).
        split; [reflexivity|]. split; [exact Hwords|].
        split; [left; split; reflexivity | exact Hsub].
Qed.

End CliFacts.

(** ** The options of an agent *)

Section AgentOptionsFacts.
Import AgentOptions.

Lemma get_set o name v name' :
  get (set o name v) name' = if String.eqb name name' then v else get o name'.
Proof.
  unfold get. induction o as [|[k0 v0] o IH]; simpl.
  - destruct (String.eqb name name'); reflexivity.
  - destruct (String.eqb_spec k0 name) as [->|Hne]; simpl.
    + destruct (String.eqb_spec name name'); reflexivity.
    + destruct (String.eqb_spec k0 name') as [->|Hne'].
      * destruct (String.eqb_spec name name'); [congruence | reflexivity].
      * apply IH.
Qed.

Lemma get_spread source : forall target name,
  NoDup (map fst source) ->
  get (spread target source) name
  = if has source name then get source name else get target name.
Proof.
  unfold spread.
  induction source as [|[k v] source IH]; intros target name Hnd; simpl.
  - reflexivity.
  - apply NoDup_cons in Hnd as [Hk Hnd]. rewrite (IH _ _ Hnd), get_set.
    unfold has, get. simpl.
    destruct (String.eqb_spec k name) as [<-|Hne]; [|reflexivity].
    destruct (List.find _ source) as [[k' v']|] eqn:Hfind; [|reflexivity].
    exfalso. apply find_some in Hfind as [Hin Heq]. simpl in Heq.
    apply String.eqb_eq in Heq as ->. apply Hk.
    apply list_elem_of_fmap. exists (k, v'). split; [reflexivity|].
    apply list_elem_of_In, Hin.
Qed.

(** X14. In [this.options] the argument of the constructor always
    wins: a property that the argument has is taken from it as it is,
    also when its value is [null] or [undefined], because the argument
    is spread after the defaults; the default of a name is used only
    when the argument has no such property. So [new Agent({ maxSteps:
    undefined })] has [undefined] for its step limit, where
    [new Agent({})] has the limit of the configuration. *)
Theorem given_options_win config options name :
  NoDup (map fst options) ->
  get (constructor config options) name
  = if has options name then get options name else default_of config name.
Proof.
  intros Hnd. unfold constructor. rewrite get_spread by exact Hnd.
  destruct (has options name) eqn:Hhas; [reflexivity|].
  assert (Hget : get options name = JUndefined).
  { unfold has, get in *. destruct (List.find _ options); [discriminate|].
    reflexivity. }
  unfold get at 1, default_of. cbn [List.find fst snd].
  repeat match goal with
         | |- context [String.eqb ?k name] =>
             destruct (String.eqb_spec k name) as [<-|?]
         end;
    try (cbn [snd]; rewrite Hget; reflexivity);
    repeat match goal with
           | |- context [String.eqb name ?k] =>
               destruct (String.eqb_spec name k) as [->|?]
           end;
    try reflexivity; congruence.
Qed.
End AgentOptionsFacts.

(** ** What the adapter throws *)

Section AdapterThrowFacts.
Context {World : Type}.
Variable fetch : string -> Eff World OpenRouterAdapter.Response.
Variable buildPrompt : Context -> Completion string.
Variable parseResponse : string -> Completion Action.
Variable rateLimiter : option (Eff World Action -> Eff World Action).

End AdapterThrowFacts.

(** ** Cleaning the data folder *)

Section CleanDataFacts.
Import CleanData.





Lemma alter_entry_ext name f g entries :
  (forall node, lookup_entry name entries = Some node -> f node = g node) ->
  alter_entry name f entries = alter_entry name g entries.
Proof.
  induction entries as [|[n0 c0] entries IH]; simpl; [reflexivity|].
  destruct (String.eqb_spec n0 name) as [->|Hne]; intros H.
  - rewrite (H c0 eq_refl). reflexivity.
  - rewrite (IH H). reflexivity.
Qed.

Lemma alter_entry_alter_entry name f g entries :
  alter_entry name g (alter_entry name f entries)
  = alter_entry name (fun node => g (f node)) entries.
Proof.
  induction entries as [|[n0 c0] entries IH]; simpl; [reflexivity|].
  destruct (String.eqb_spec n0 name) as [->|Hne]; simpl.
  - rewrite String.eqb_refl. reflexivity.
  - destruct (String.eqb_spec n0 name); [done|]. rewrite IH. reflexivity.
Qed.


Lemma remove_alter_entry name f entries :
  remove_entry name (alter_entry name f entries) = remove_entry name entries.
Proof.
  induction entries as [|[n0 c0] entries IH]; simpl; [reflexivity|].
  destruct (String.eqb_spec n0 name) as [->|Hne]; simpl.
  - rewrite String.eqb_refl. reflexivity.
  - destruct (String.eqb_spec n0 name); [done|]. rewrite IH. reflexivity.
Qed.


Lemma alter_ext path f g : forall fs,
  (forall node, lookup path fs = Some node -> f node = g node) ->
  alter path f fs = alter path g fs.
Proof.
  induction path as [|p path IH]; intros fs H; simpl; [apply H; reflexivity|].
  destruct fs as [|entries]; [reflexivity|]. f_equal.
  apply alter_entry_ext. intros child Hchild. apply IH.
  intros node Hnode. apply H. simpl. rewrite Hchild. exact Hnode.
Qed.


Lemma alter_alter path f g : forall fs,
  alter path g (alter path f fs) = alter path (fun node => g (f node)) fs.
Proof.
  induction path as [|p path IH]; intros fs; simpl; [reflexivity|].
  destruct fs as [|entries]; [reflexivity|]. f_equal.
  rewrite alter_entry_alter_entry. apply alter_entry_ext.
  intros child _. apply IH.
Qed.



(** The state of the loop of [cleanFolder]: the folder holds the
    entries that are left. *)
Lemma put_put path n1 n2 fs : put path n2 (put path n1 fs) = put path n2 fs.
Proof. unfold put. rewrite alter_alter. reflexivity. Qed.















End CleanDataFacts.

(** ** Counting tokens *)

Section TokenFacts.
Context {C : Type}.
Variable is_space : C -> bool.
Variable is_punctuation : C -> bool.

Lemma split_from_concat text : forall in_space chunk,
  concat (TokenCounter.split_from is_space is_punctuation in_space chunk text)
  = chunk ++ text.
Proof.
  induction text as [|c rest IH]; intros in_space chunk; simpl.
  - destruct in_space; simpl; rewrite ?app_nil_r; reflexivity.
  - destruct (is_space c), (is_punctuation c), in_space; simpl;
      rewrite ?IH; simpl; rewrite <- ?app_assoc; reflexivity.
Qed.

Lemma split_from_pieces text : forall (in_space : bool) chunk,
  (if in_space then chunk <> [] /\ forallb is_space chunk = true
   else forallb (fun c => negb (is_space c) && negb (is_punctuation c))
          chunk = true) ->
  Forall (TokenCounter.piece is_space is_punctuation)
    (TokenCounter.split_from is_space is_punctuation in_space chunk text).
Proof.
  assert (Hword : forall chunk,
             forallb (fun c => negb (is_space c) && negb (is_punctuation c))
               chunk = true ->
             TokenCounter.piece is_space is_punctuation chunk).
  { intros [|c chunk] H; [left; reflexivity|].
    right. right. right. split; [discriminate | exact H]. }
  assert (Hspace : forall chunk,
             chunk <> [] /\ forallb is_space chunk = true ->
             TokenCounter.piece is_space is_punctuation chunk).
  { intros chunk H. right. left. exact H. }
  assert (Hempty : TokenCounter.piece is_space is_punctuation [])
    by (left; reflexivity).
  induction text as [|c rest IH]; intros in_space chunk Hchunk; simpl.
  - destruct in_space.
    + apply Forall_cons. split; [auto|]. apply Forall_cons. split; [auto|].
      constructor.
    + apply Forall_cons. split; [auto | constructor].
  - destruct (is_space c) eqn:Hs.
    + destruct in_space.
      * apply IH. destruct Hchunk as [Hne Hall]. split.
        -- destruct chunk; discriminate.
        -- rewrite forallb_app, Hall. simpl. rewrite Hs. reflexivity.
      * apply Forall_cons. split; [auto|]. apply IH. split; [discriminate|].
        simpl. rewrite Hs. reflexivity.
    + destruct (is_punctuation c) eqn:Hp.
      * assert (Hc : TokenCounter.piece is_space is_punctuation [c])
          by (right; right; left; eauto).
        destruct in_space.
        -- apply Forall_cons. split; [auto|].
           apply Forall_cons. split; [auto|].
           apply Forall_cons. split; [auto|]. apply IH. reflexivity.
        -- apply Forall_cons. split; [auto|].
           apply Forall_cons. split; [auto|]. apply IH. reflexivity.
      * destruct in_space.
        -- apply Forall_cons. split; [auto|]. apply IH. simpl.
           rewrite Hs, Hp. reflexivity.
        -- apply IH. rewrite forallb_app, Hchunk. simpl.
           rewrite Hs, Hp. reflexivity.
Qed.

Lemma concat_nonempty (chunks : list (list C)) :
  concat chunks <> [] -> exists chunk, chunk ∈ chunks /\ chunk <> [].
Proof.
  induction chunks as [|chunk chunks IH]; simpl; [done|].
  destruct chunk as [|c chunk].
  - intros H. destruct (IH H) as (chunk' & Hin & Hne).
    exists chunk'. split; [right; exact Hin | exact Hne].
  - intros _. exists (c :: chunk). split; [left | discriminate].
Qed.

Lemma ceil_quarter_bounds n :
  4 < n -> 1 <= TokenCounter.ceil_quarter n <= n.
Proof.
  intros Hn. unfold TokenCounter.ceil_quarter.
  split; [apply Z.div_le_lower_bound; lia|].
  apply Z.div_le_upper_bound; lia.
Qed.

Lemma chunk_tokens_bounds chunk :
  chunk <> [] ->
  1 <= TokenCounter.chunk_tokens is_space is_punctuation chunk
    <= Z.of_nat (length chunk).
Proof.
  intros Hne. unfold TokenCounter.chunk_tokens.
  destruct chunk as [|c chunk]; [done|].
  set (l := c :: chunk).
  assert (Hlen : 1 <= Z.of_nat (length l)) by (simpl; lia).
  destruct (forallb is_space l); [lia|].
  destruct ((Z.of_nat (length l) =? 1) && existsb is_punctuation l); [lia|].
  destruct (Z.leb_spec (Z.of_nat (length l)) 4); [lia|].
  apply ceil_quarter_bounds. lia.
Qed.

Lemma sum_tokens_bounds chunks : forall count,
  count
  <= fold_left
       (fun tokenCount chunk =>
          tokenCount
          + TokenCounter.chunk_tokens is_space is_punctuation chunk)
       chunks count
  <= count + Z.of_nat (length (concat chunks)).
Proof.
  induction chunks as [|chunk chunks IH]; intros count; simpl; [lia|].
  specialize (IH (count
                  + TokenCounter.chunk_tokens is_space is_punctuation chunk)).
  rewrite length_app.
  destruct chunk as [|c chunk]; [simpl in *; lia|].
  pose proof (chunk_tokens_bounds (c :: chunk)) as H.
  specialize (H ltac:(discriminate)). lia.
Qed.

Lemma sum_tokens_positive chunks chunk : forall count,
  chunk ∈ chunks -> chunk <> [] ->
  count
  < fold_left
      (fun tokenCount chunk =>
         tokenCount
         + TokenCounter.chunk_tokens is_space is_punctuation chunk)
      chunks count.
Proof.
  induction chunks as [|chunk0 chunks IH]; intros count Hin Hne;
    [inversion Hin|]. simpl.
  apply elem_of_cons in Hin as [<-|Hin].
  - pose proof (chunk_tokens_bounds chunk Hne).
    pose proof (sum_tokens_bounds chunks
                  (count + TokenCounter.chunk_tokens is_space is_punctuation
                             chunk)). lia.
  - specialize (IH (count + TokenCounter.chunk_tokens is_space is_punctuation
                              chunk0) Hin Hne).
    destruct chunk0 as [|c0 chunk0]; [simpl in *; lia|].
    pose proof (chunk_tokens_bounds (c0 :: chunk0) ltac:(discriminate)). lia.
Qed.

(** X18. Splitting a text loses nothing: the pieces, put together
    again, are the text. Each piece is empty, or a run of white space,
    or one punctuation character, or a run of characters that are
    neither. *)
Theorem split_keeps_the_text text :
  concat (TokenCounter.split is_space is_punctuation text) = text
  /\ Forall (TokenCounter.piece is_space is_punctuation)
       (TokenCounter.split is_space is_punctuation text).
Proof.
  split.
  - apply (split_from_concat text false []).
  - apply split_from_pieces. reflexivity.
Qed.

(** X19. The estimates never exceed the length of the text. The
    GPT-style count is 0 for the empty text and at least 1 for any
    other, and at most one token per code unit; the estimate by
    characters is the least number of tokens of three and a half
    characters that cover the text. *)
Theorem estimates_are_bounded text :
  0 <= TokenCounter.countTokensGPTStyle is_space is_punctuation text
    <= Z.of_nat (length text)
  /\ (TokenCounter.countTokensGPTStyle is_space is_punctuation text = 0
      <-> text = [])
  /\ 2 * Z.of_nat (length text)
     <= 7 * TokenCounter.countTokensCharBased text
     < 2 * Z.of_nat (length text) + 7
  /\ TokenCounter.countTokensCharBased text <= Z.of_nat (length text).
Proof.
  unfold TokenCounter.countTokensGPTStyle.
  pose proof (sum_tokens_bounds
                (TokenCounter.split is_space is_punctuation text) 0) as Hb.
  unfold TokenCounter.split in *. rewrite split_from_concat in Hb.
  simpl in Hb. split; [lia|]. split; [|split].
  - split.
    + intros Hzero. destruct text as [|c rest]; [reflexivity|]. exfalso.
      assert (Hsome : exists chunk,
                 chunk ∈ TokenCounter.split_from is_space is_punctuation
                           false [] (c :: rest)
                 /\ chunk <> []).
      { destruct (concat_nonempty
                    (TokenCounter.split_from is_space is_punctuation false []
                       (c :: rest))) as (chunk & Hin & Hne); [|eauto].
        rewrite split_from_concat. discriminate. }
      destruct Hsome as (chunk & Hin & Hne).
      pose proof (sum_tokens_positive _ _ 0 Hin Hne). lia.
    + intros ->. reflexivity.
  - unfold TokenCounter.countTokensCharBased.
    pose proof (Z.div_mod (2 * Z.of_nat (length text) + 6) 7 ltac:(lia)).
    pose proof (Z.mod_pos_bound (2 * Z.of_nat (length text) + 6) 7
                  ltac:(lia)). lia.
  - unfold TokenCounter.countTokensCharBased.
    destruct text as [|c [|c' rest]]; [done | done |].
    apply Z.div_le_upper_bound; [lia|]. simpl length. lia.
Qed.
End TokenFacts.

(** ** Headless runs *)

Section VisualFacts.
Context {World : Type}.
Variable env : @Agent.Env World.
Implicit Types (s : @Agent.State World).

Lemma plain_refl tr : Visual.plain_since tr tr.
Proof. exists []. split; [symmetry; apply app_nil_r | constructor]. Qed.

Lemma plain_trans tr0 tr1 tr2 :
  Visual.plain_since tr0 tr1 -> Visual.plain_since tr1 tr2 ->
  Visual.plain_since tr0 tr2.
Proof.
  intros (a1 & -> & H1) (a2 & -> & H2). exists (a1 ++ a2).
  split; [symmetry; apply app_assoc | apply Forall_app; auto].
Qed.

Lemma iteration_plain goal s :
  Agent.highlighter s = false ->
  Agent.highlighter (Agent.iteration env goal s).2 = false
  /\ Visual.plain_since (Agent.trace s)
       (Agent.trace (Agent.iteration env goal s).2).
Proof.
  intros Hh.
  unfold Agent.iteration, Agent.decide, Agent.act, bind, modify,
    get_state, Agent.call, Agent.lift_pure, ret, Agent.print_action,
    Agent.highlight, Agent.pause, throw, bind, Agent.call.
  eff_cases; simpl in *; rewrite ?Hh in *; simpl in *; try discriminate;
    (split; [first [assumption | reflexivity] | red; plain_witness]).
Qed.

Lemma loop_plain goal fuel : forall s,
  Agent.highlighter s = false ->
  Agent.highlighter (Agent.loop env goal fuel s).2 = false
  /\ Visual.plain_since (Agent.trace s)
       (Agent.trace (Agent.loop env goal fuel s).2).
Proof.
  induction fuel as [|fuel IH]; intros s Hh; simpl.
  - destruct (_ <? _); (split; [assumption | apply plain_refl]).
  - destruct (_ <? _); [|split; [assumption | apply plain_refl]].
    unfold bind. destruct (iteration_plain goal s Hh) as [Hh1 Hp1].
    destruct (Agent.iteration env goal s) as [[[]|e] s1]; simpl in *;
      try (split; assumption).
    destruct (IH s1 Hh1) as [Hh2 Hp2].
    split; [assumption | eapply plain_trans; eassumption].
Qed.

Lemma setup_plain url goal s :
  Agent.headless (Agent.options s) = true ->
  Agent.highlighter s = false ->
  Agent.highlighter (Agent.setup env url goal s).2 = false
  /\ Visual.plain_since (Agent.trace s)
       (Agent.trace (Agent.setup env url goal s).2).
Proof.
  intros Hheadless Hh.
  unfold Agent.setup, Agent.initialize, bind, modify, get_state,
    Agent.call, ret.
  eff_cases; simpl in *; rewrite ?Hheadless in *; simpl in *;
    try discriminate; (split; [first [assumption | reflexivity] | red; plain_witness]).
Qed.

Lemma try_block_plain url goal s :
  Agent.headless (Agent.options s) = true ->
  Agent.highlighter s = false ->
  Visual.plain_since (Agent.trace s)
    (Agent.trace (Agent.try_block env url goal s).2).
Proof.
  intros Hheadless Hh.
  destruct (setup_plain url goal s Hheadless Hh) as [Hh1 Hp1].
  unfold Agent.try_block, bind.
  destruct (Agent.setup env url goal s) as [[[]|e] s1]; simpl in *;
    [|assumption].
  unfold Agent.run_loop.
  destruct (loop_plain goal
              (Z.to_nat (Agent.maxSteps (Agent.options s1)
                         - Agent.currentStep s1)) s1 Hh1) as [_ Hp2].
  eapply plain_trans; eassumption.
Qed.

Lemma finish_plain {A} (c : Completion A) s1 :
  Visual.plain_since (Agent.trace s1)
    (Agent.trace
       ((try_finally
           (fun s => match c with
                     | Returns _ => (Returns tt, s)
                     | Throws e => Agent.catch_block e s
                     end)
           (Agent.close env) ;;
         Agent.saveResults env)%eff s1).2).
Proof.
  unfold try_finally, bind, Agent.catch_block, Agent.close,
    Agent.saveResults, Agent.saveExtractedData, bind, get_state, modify,
    Agent.call, ret.
  destruct c as [a|e]; eff_cases; red; plain_witness.
Qed.

(** X20. A headless run never touches the page through the
    highlighter: when the agent is headless, no style is injected, no
    element is highlighted and no toast is shown between the start of
    [run] and its end, whatever the page, the provider and the actions
    do. *)
Theorem headless_runs_never_highlight url goal s :
  Agent.headless (Agent.options s) = true ->
  Agent.highlighter s = false ->
  exists calls,
    Agent.trace (Agent.run env url goal s).2 = Agent.trace s ++ calls
    /\ Forall (fun c => Visual.is_visual c = false) calls.
Proof.
  intros Hheadless Hh.
  pose proof (try_block_plain url goal s Hheadless Hh) as Hp.
  unfold Agent.run, Agent.guarded.
  destruct (Agent.try_block env url goal s) as [c s1] eqn:Htry.
  simpl in Hp.
  pose proof (finish_plain c s1) as Hf.
  assert (Heq : (try_finally
                   (try_catch (Agent.try_block env url goal ;; ret tt)%eff
                      Agent.catch_block)
                   (Agent.close env) ;;
                 Agent.saveResults env)%eff s
                = (try_finally
                     (fun s => match c with
                               | Returns _ => (Returns tt, s)
                               | Throws e => Agent.catch_block e s
                               end)
                     (Agent.close env) ;;
                   Agent.saveResults env)%eff s1).
  { unfold try_finally, try_catch, bind. rewrite Htry.
    destruct c; reflexivity. }
  rewrite Heq. exact (plain_trans _ _ _ Hp Hf).
Qed.
End VisualFacts.

(** ** The session record *)

Section RecordFacts.
Context {World : Type}.
Variable env : @Agent.Env World.
Implicit Types (s : @Agent.State World).


End RecordFacts.

(** ** Screenshots *)

Section ScreenshotFacts.
Context {World : Type}.
Variable toISOString : World -> string.
Variable screenshotDir : string.
Variable path_join : string -> string -> string.
Variable ensure_dir : string -> Eff World unit.
Variable page_screenshot : string -> Eff World unit.

Lemma occurs_app c (s1 s2 : string) :
  Str.occurs c (s1 +:+ s2) = Str.occurs c s1 || Str.occurs c s2.
Proof.
  induction s1 as [|c1 s1 IH]; [reflexivity|].
  change (String c1 s1 +:+ s2) with (String c1 (s1 +:+ s2)).
  simpl. rewrite IH. apply orb_assoc.
Qed.

Lemma timestamp_clean c iso :
  c = ":"%char \/ c = "."%char ->
  Str.occurs c (Screenshot.timestamp_of iso) = false.
Proof.
  intros Hc. unfold Screenshot.timestamp_of.
  induction iso as [|c0 iso IH]; simpl; [reflexivity|].
  rewrite IH, orb_false_r.
  destruct (Ascii.eqb_spec c0 ":") as [->|H1]; simpl;
    [destruct Hc as [-> | ->]; reflexivity|].
  destruct (Ascii.eqb_spec c0 ".") as [->|H2]; simpl;
    [destruct Hc as [-> | ->]; reflexivity|].
  apply Ascii.eqb_neq. destruct Hc as [-> | ->]; congruence.
Qed.

(** X22. The name of a screenshot file is made for every file system:
    whatever the clock gives, the name has no colon, its only dot is
    the one of the extension '.png', and it is as long as the
    timestamp and fifteen characters more. The plugin never throws:
    it reports the file it has written, or a failure whose error
    starts with 'Screenshot failed: ' when the directory cannot be
    made or the page cannot be captured. *)
Theorem screenshot_file_name :
  (forall iso,
      let filename := Screenshot.filename_of iso in
      Str.occurs ":" filename = false
      /\ (exists stem, filename = stem +:+ ".png"
                       /\ Str.occurs "." stem = false)
      /\ String.length filename = (String.length iso + 15)%nat)
  /\ (forall page em a w,
        exists o w',
          ActionClass.execute
            (Screenshot.ScreenshotAction toISOString screenshotDir
               path_join ensure_dir page_screenshot) page em a w
          = (Returns o, w')
          /\ (Outcome.success o = true ->
              o = Screenshot.saved
                    (path_join screenshotDir
                       (Screenshot.filename_of (toISOString w)))
                    (Screenshot.filename_of (toISOString w)))
          /\ (Outcome.success o = false ->
              exists msg,
                Outcome.error o = Some ("Screenshot failed: " +:+ msg))).
Proof.
  split.
  - intros iso filename. unfold filename, Screenshot.filename_of.
    split; [|split].
    + rewrite !occurs_app, timestamp_clean by auto. reflexivity.
    + exists ("screenshot-" +:+ Screenshot.timestamp_of iso).
      split; [symmetry; apply string_app_assoc|].
      rewrite occurs_app, timestamp_clean by auto. reflexivity.
    + rewrite !string_app_length. unfold Screenshot.timestamp_of.
      rewrite length_map_chars. simpl. lia.
  - intros page em a w. simpl. unfold try_catch, bind, get_state, ret.
    destruct (ensure_dir screenshotDir w) as [[[]|e] w1];
      [|eexists _, _; split; [reflexivity|]; split; [discriminate | eauto]].
    destruct (page_screenshot _ w1) as [[[]|e] w2];
      eexists _, _; (split; [reflexivity|]); split;
      try discriminate; eauto.
Qed.
End ScreenshotFacts.

(** ** Further examples *)

Section FurtherExamples.
Import Script.


Lemma session_id_is_a_timestamp_witness :
  let t := SessionId.mkLocalTime 2024 0 5 9 30 7 in
  SessionId.in_range t
  /\ SessionId.generateSessionId t = "20240105_093007"
  /\ String.length (SessionId.generateSessionId t) = 15%nat.
Proof.
  cbv zeta.
  assert (Hrange : SessionId.in_range (SessionId.mkLocalTime 2024 0 5 9 30 7))
    by (unfold SessionId.in_range; simpl; lia).
  split; [exact Hrange|]. split; [reflexivity|].
  exact (proj1 (session_id_is_a_timestamp _ Hrange)).
Defined.

Lemma cookie_conversion_witness :
  let exported :=
    JObj [ ("name", JStr "sid"); ("value", JStr "abc");
           ("domain", JStr ".example.com");
           ("expirationDate", JNum 1900000000);
           ("sameSite", JStr "lax") ] in
  exists n n',
    Cookies.normalize exported = Returns n
    /\ Cookies.field n "path" = JStr "/"
    /\ Cookies.field n "expires" = JNum 1900000000
    /\ Cookies.field n "sameSite" = JStr "Lax"
    /\ Cookies.normalize n = Returns n'
    /\ Cookies.field n' "sameSite" = JStr "None".
Proof.
  intros exported.
  destruct (Cookies.normalize exported) as [n|e] eqn:Hn; [|discriminate Hn].
  destruct (cookie_conversion exported n Hn)
    as (_ & _ & _ & n' & Hn' & Hsame & _).
  exists n, n'. injection Hn as <-.
  repeat split; first [reflexivity | assumption].
Defined.

Lemma cookie_files_never_stop_the_run_witness :
  let existsSync : Eff World bool := ret true in
  let mkdirSync : Eff World unit := ret tt in
  let readdirSync : Eff World (list string) :=
    ret ["github.com.json"; "notes.txt"] in
  let readFileSync : string -> Eff World string :=
    fun _ => throw "EACCES: permission denied" in
  let JSON_parse : string -> Completion JsValue :=
    fun _ => Throws "Unexpected token" in
  let addCookies : list JsValue -> Eff World unit :=
    fun _ => throw "Protocol error" in
  total existsSync /\ total mkdirSync /\ total readdirSync
  /\ Cookies.matches Agent.toLowerCase "star the repo"
       "https://github.com/" "github.com.json" = true
  /\ total
       (Cookies.preloadCookiesFromGoal Agent.toLowerCase existsSync
          mkdirSync readdirSync readFileSync JSON_parse addCookies
          "star the repo" "https://github.com/").
Proof.
  intros existsSync mkdirSync readdirSync readFileSync JSON_parse
    addCookies.
  assert (H1 : total existsSync) by (intros w; exists true, w; reflexivity).
  assert (H2 : total mkdirSync) by (intros w; exists tt, w; reflexivity).
  assert (H3 : total readdirSync)
    by (intros w; eexists _, w; reflexivity).
  split; [exact H1|]. split; [exact H2|]. split; [exact H3|].
  split; [vm_compute; reflexivity|].
  exact (proj1 (cookie_files_never_stop_the_run Agent.toLowerCase
                  existsSync mkdirSync readdirSync readFileSync JSON_parse
                  addCookies "star the repo" "https://github.com/"
                  H1 H2 H3)).
Defined.


Lemma given_options_win_witness :
  let config :=
    AgentOptions.mkConfig (JNum 50) (JNum 1000) (JBool true)
      (JStr "gemini") in
  let options := [("maxSteps", JUndefined); ("headless", JBool true)] in
  NoDup (map fst options)
  /\ AgentOptions.get (AgentOptions.constructor config options) "maxSteps"
     = JUndefined
  /\ AgentOptions.get (AgentOptions.constructor config []) "maxSteps"
     = JNum 50.
Proof.
  intros config options.
  assert (Hopts : NoDup (map fst options))
    by (apply (bool_decide_unpack (NoDup (map fst options)));
        vm_compute; exact I).
  split; [exact Hopts|]. split.
  - rewrite (given_options_win config options "maxSteps" Hopts).
    reflexivity.
  - reflexivity.
Defined.


Lemma headless_runs_never_highlight_witness :
  let s := start 3 (world [Returns click_e1]) in
  Agent.headless (Agent.options s) = true
  /\ Agent.highlighter s = false
  /\ exists calls,
       Agent.trace
         (Agent.run (env None scripted) "about:blank" "find the docs" s).2
       = Agent.trace s ++ calls
       /\ Forall (fun c => Visual.is_visual c = false) calls.
Proof.
  intros s. split; [reflexivity|]. split; [reflexivity|].
  exact (headless_runs_never_highlight (env None scripted) "about:blank"
           "find the docs" s eq_refl eq_refl).
Defined.



Lemma default_output_file_witness :
  let t := SessionId.mkLocalTime 2024 0 1 0 0 0 in
  let s := start 3 (world []) in
  SessionId.in_range t
  /\ Agent.sessionId s = SessionId.generateSessionId t
  /\ Agent.output_path s ".json"
     = "data/output/output_20240101_000000_20240101_000000.json".
Proof.
  intros t s.
  assert (Hrange : SessionId.in_range t)
    by (unfold SessionId.in_range; simpl; lia).
  split; [exact Hrange|]. split; [reflexivity|].
  etransitivity; [|reflexivity].
  apply (proj2 (proj2 (default_output_file (World := World))) s t ".json"
           Hrange eq_refl eq_refl).
  constructor.
Defined.

Lemma command_line_is_split_witness :
  let args := ["https://example.com"; "find"; "--headless"; "the"; "docs"] in
  Cli.parse "gemini" args
  = Cli.Run "gemini" "https://example.com" "find the docs" true true
  /\ "--headless" ∈ args
  /\ ~ "--quiet" ∈ args.
Proof.
  intros args.
  assert (Hparse : Cli.parse "gemini" args
                   = Cli.Run "gemini" "https://example.com" "find the docs"
                       true true) by reflexivity.
  destruct (proj2 (command_line_is_split "gemini" args) _ _ _ _ _ Hparse)
    as (Hheadless & Hquiet & _).
  split; [exact Hparse|]. split.
  - apply Hheadless. reflexivity.
  - intros Hin. apply Hquiet in Hin. discriminate Hin.
Defined.


End FurtherExamples.
